(** * Launcher.js: launching, handshaking with and tearing down a Chrome child

    A shallow embedding of [src/lib/Launcher.js].  The file follows the
    source top to bottom:

    - [JS]         the few JavaScript notions the launcher relies on
                   (truthiness, strict comparison with [false], [typeof],
                   the text of a number, error objects, promises);
    - [Helper]     the event-subscription helper;
    - [Handshake]  [waitForWSEndpoint], the race between stderr lines,
                   stream close, child exit, child error and the deadline;
    - [FS]         [fs.mkdtemp] and [rimraf];
    - [Path]       [path.join], as it is on POSIX;
    - [Composer]   the part of [Launcher.launch] that builds the argument
                   list and decides whether a profile directory is allocated;
    - [Supervisor] the closures of [Launcher.launch]: the close listener,
                   [killChrome] and [forceKillChrome], and [ExitEmitter];
    - [Launcher]   the signal wiring, the choice of the executable, the
                   spawning and the [try] of [Launcher.launch].

    The modules named [...Facts] hold the properties.

    Node's single-threaded event loop is modelled by delivering events one
    at a time to handlers that run to completion. *)

From Stdlib Require Import ZArith String Ascii List Lia DecimalString.
From stdpp Require Import base gmap strings list.

Open Scope string_scope.
Open Scope list_scope.

(** ** JavaScript values *)

Module JS.

(** Option fields are read with [!x], [x === true], [x !== false] and
    [typeof x !== 'boolean']; a small value type is enough to give those
    tests their JavaScript meaning. *)
Inductive value : Type :=
| VUndefined
| VNull
| VBool (b : bool)
| VNum (z : Z)
| VStr (s : string).

Definition truthy (v : value) : bool :=
  match v with
  | VUndefined | VNull => false
  | VBool b => b
  | VNum z => negb (z =? 0)%Z
  | VStr s => negb (String.eqb s "")
  end.

(** [v === true] *)
Definition isTrue (v : value) : bool :=
  match v with VBool true => true | _ => false end.

(** [v !== false] *)
Definition isNotFalse (v : value) : bool :=
  match v with VBool false => false | _ => true end.

(** [typeof v === 'boolean'] *)
Definition isBoolean (v : value) : bool :=
  match v with VBool _ => true | _ => false end.

(** *** Numbers

    The numbers the launcher handles are integral (a pid, a timeout in
    milliseconds), and a number is modelled by its integer value.  Every
    integer of magnitude below 2^53 is a number, represented exactly
    ([Number.isSafeInteger]); beyond, only the integers that are an IEEE
    double are numbers. *)
Definition isSafeInteger (z : Z) : bool := (Z.abs z <? 2 ^ 53)%Z.

(** The exponent of the last bit of the double that is [a], for
    [a >= 2^53]. *)
Definition binaryExponent (a : Z) : Z := (Z.log2 a - 52)%Z.

Definition isNumber (z : Z) : bool :=
  let a := Z.abs z in
  (a <? 2 ^ 53)%Z
  || ((a mod 2 ^ binaryExponent a =? 0)%Z && (a <? 2 ^ 1024)%Z).

(** The decimal digits of an integer, with a leading [-] below zero. *)
Definition decimal (z : Z) : string := NilZero.string_of_int (Z.to_int z).

(** [Number::toString] looks for the fewest digits [s] such that
    [s * 10^p] reads back as the number.  [candidate a p] is that [s] for
    the double [a >= 2^53] and the power [p], if there is one: [s * 10^p]
    has to lie within half a gap of [a], bounds included when the mantissa
    of [a] is even; of several, the one closest to [a] is taken, the even
    one on a tie.  Bounds are doubled to stay among the integers. *)
Definition candidate (a : Z) (p : nat) : option Z :=
  let e := binaryExponent a in
  let m := (a / 2 ^ e)%Z in
  let closed := Z.even m in
  let low := (2 * a - (if (m =? 2 ^ 52)%Z then 2 ^ (e - 1) else 2 ^ e))%Z in
  let high := (2 * a + 2 ^ e)%Z in
  let unit := (2 * 10 ^ Z.of_nat p)%Z in
  let least :=
    if closed then ((low + unit - 1) / unit)%Z else (low / unit + 1)%Z in
  let most :=
    if closed then (high / unit)%Z else ((high - 1) / unit)%Z in
  if (least <=? most)%Z && (1 <=? most)%Z then
    let twice := (2 * a)%Z in
    let down := (twice / unit)%Z in
    let rest := (twice mod unit)%Z in
    let nearest :=
      if (2 * rest <? unit)%Z then down
      else if (unit <? 2 * rest)%Z then (down + 1)%Z
      else if Z.even down then down else (down + 1)%Z in
    Some (Z.max least (Z.min most nearest))
  else None.

(** The digits for the largest power of ten that has a candidate. *)
Fixpoint shortest (a : Z) (p : nat) : Z * nat :=
  match candidate a p with
  | Some s => (s, p)
  | None =>
      match p with
      | O => (a, O)
      | S p' => shortest a p'
      end
  end.

Fixpoint zeros (n : nat) : string :=
  match n with
  | O => ""
  | S n' => "0" +:+ zeros n'
  end.

(** The text of a double [a >= 2^53]: digits and zeros up to 21 places,
    the exponent form beyond. *)
Definition large (a : Z) : string :=
  let '(s, p) := shortest a (String.length (decimal a)) in
  let text := decimal s in
  let n := (String.length text + p)%nat in
  if (n <=? 21)%nat then text +:+ zeros p
  else
    match text with
    | String first rest =>
        String first (if (String.length rest =? 0)%nat then "" else "." +:+ rest)
          +:+ "e+" +:+ decimal (Z.of_nat (n - 1))
    | EmptyString => ""
    end.

(** [`${n}`] for a number [n] with an integer value: plain decimal below
    2^53, [Number::toString] on the double beyond.  It has a meaning for
    the integers that are numbers, [isNumber]. *)
Definition showNumber (z : Z) : string :=
  if isSafeInteger z then decimal z
  else if (z <? 0)%Z then "-" +:+ large (Z.abs z) else large z.

(** [Array.prototype.join] on strings. *)
Definition join (sep : string) (parts : list string) : string :=
  String.concat sep parts.

(** *** Errors

    An error object as far as it is looked at: the [name] of its class
    and its [message]. *)
Record error : Type := mkError {
  errorName : string;
  errorMessage : string
}.

(** [new Error(message)], the only way the launcher makes an error: it
    defines no error class of its own. *)
Definition newError (message : string) : error := mkError "Error" message.

(** *** Promises

    The state of a promise: the first [resolve] or [reject] wins and
    later calls leave it alone. *)
Inductive promise (A : Type) : Type :=
| Pending
| Resolved (v : A)
| Rejected (reason : error).
Arguments Pending {A}.
Arguments Resolved {A} v.
Arguments Rejected {A} reason.

Definition isPending {A} (p : promise A) : bool :=
  match p with Pending => true | _ => false end.

Definition settle {A} (outcome p : promise A) : promise A :=
  if isPending p then outcome else p.

End JS.

(** ** helper.addEventListener / helper.removeEventListeners *)

Module Helper.

Inductive Emitter : Type := Rl | ChromeProcess | ExitEmitter.

#[global] Instance Emitter_eq_dec : EqDecision Emitter.
Proof. solve_decision. Defined.

Section Subscriptions.
Context {H : Type} `{EqDecision H}.

(** A subscription is the triple the helper hands back. *)
Record Subscription : Type := mkSub {
  emitter : Emitter;
  eventName : string;
  handler : H
}.

#[global] Instance Subscription_eq_dec : EqDecision Subscription.
Proof. solve_decision. Defined.

(** The registry is the list of subscriptions currently attached to
    the emitters, oldest first (the order in which [emit] calls them). *)
Definition registry : Type := list Subscription.

(** Modelled from the spec: [helper.addEventListener] lives in
    [lib/helper.js], which is not part of the sources at hand.  It
    attaches [h] to [(em, ev)] and returns the subscription triple. *)
Definition addEventListener (em : Emitter) (ev : string) (h : H)
    (reg : registry) : Subscription * registry :=
  let sub := mkSub em ev h in (sub, reg ++ [sub]).

(** [emitter.removeListener(eventName, handler)]: detaches one
    attachment of the triple, nothing when it is not attached. *)
Fixpoint removeListener (sub : Subscription) (reg : registry) : registry :=
  match reg with
  | [] => []
  | s :: rest =>
      if decide (s = sub) then rest else s :: removeListener sub rest
  end.

(** Modelled from the spec: [helper.removeEventListeners] lives in
    [lib/helper.js], which is not part of the sources at hand.  It
    releases every subscription of the array; releasing a subscription
    that is no longer attached is a no-op. *)
Definition removeEventListeners (subs : list Subscription)
    (reg : registry) : registry :=
  foldl (fun r s => removeListener s r) reg subs.

(** The handlers [emit] calls for [(em, ev)], in attachment order. *)
Definition listenersOf (em : Emitter) (ev : string) (reg : registry)
    : list H :=
  handler <$>
    filter (fun s => emitter s = em ∧ eventName s = ev) reg.

End Subscriptions.
Arguments Subscription H : clear implicits.
Arguments registry H : clear implicits.

End Helper.

(** ** waitForWSEndpoint *)

Module Handshake.
Import JS Helper.

(** The line feed that [onLine] appends and [join] inserts. *)
Definition nl : string := String (ascii_of_nat 10) EmptyString.

(** *** The discovery pattern

    The regular expression of [onLine] is anchored at both ends: the
    literal [DevTools listening on ], then a captured group made of
    [ws://] and any run of characters matched by the dot. *)

Fixpoint stripPrefix (p s : string) : option string :=
  match p, s with
  | EmptyString, _ => Some s
  | String a p', String b s' =>
      if Ascii.eqb a b then stripPrefix p' s' else None
  | String _ _, EmptyString => None
  end.

(** [.] matches any character but a line terminator, and ECMAScript has
    four: the line feed, the carriage return, and the line and paragraph
    separators U+2028 and U+2029.  Strings hold text in UTF-8 here, where
    the two separators are three bytes each. *)
Definition cr : string := String (ascii_of_nat 13) EmptyString.

Definition lineSeparator : string :=
  String (ascii_of_nat 226)
    (String (ascii_of_nat 128) (String (ascii_of_nat 168) EmptyString)).

Definition paragraphSeparator : string :=
  String (ascii_of_nat 226)
    (String (ascii_of_nat 128) (String (ascii_of_nat 169) EmptyString)).

Definition lineTerminators : list string :=
  [nl; cr; lineSeparator; paragraphSeparator].

(** A line terminator starts at the head of [s]. *)
Definition atLineTerminator (s : string) : bool :=
  existsb (fun terminator =>
             match stripPrefix terminator s with
             | Some _ => true
             | None => false
             end)
          lineTerminators.

(** The dot, starred, matches all of [s]: no line terminator starts
    anywhere in it. *)
Fixpoint dotStar (s : string) : bool :=
  match s with
  | EmptyString => true
  | String _ s' => negb (atLineTerminator s) && dotStar s'
  end.

(** [line.match(...)]: [Some match[1]] or [None] for a null match. *)
Definition matchEndpoint (line : string) : option string :=
  match stripPrefix "DevTools listening on " line with
  | Some group =>
      match stripPrefix "ws://" group with
      | Some tail => if dotStar tail then Some group else None
      | None => None
      end
  | None => None
  end.

(** *** State of one call *)

Inductive Handler : Type := OnLine | OnRlClose | OnExit | OnError.

#[global] Instance Handler_eq_dec : EqDecision Handler.
Proof. solve_decision. Defined.

(** The variables the closures of [waitForWSEndpoint] share, the
    listeners attached to [rl] and [chromeProcess], and the promise.
    [calls] counts the invocations of [resolve] and [reject]. *)
Record state : Type := mkState {
  attached : registry Handler;
  listeners : list (Subscription Handler);
  timeoutId : bool;        (* a timer handle (truthy), or 0 *)
  timerPending : bool;     (* the timer is armed and has not fired *)
  stderr : string;
  result : promise string;
  calls : nat
}.

Definition withStderr (text : string) (s : state) : state :=
  mkState (attached s) (listeners s) (timeoutId s) (timerPending s)
          text (result s) (calls s).

Definition withTimerPending (b : bool) (s : state) : state :=
  mkState (attached s) (listeners s) (timeoutId s) b
          (stderr s) (result s) (calls s).

Definition withAttached (reg : registry Handler) (s : state) : state :=
  mkState reg (listeners s) (timeoutId s) (timerPending s)
          (stderr s) (result s) (calls s).

(** [resolve(v)] and [reject(new Error(message))]. *)
Definition resolve (v : string) (s : state) : state :=
  mkState (attached s) (listeners s) (timeoutId s) (timerPending s)
          (stderr s) (settle (Resolved v) (result s)) (S (calls s)).

Definition reject (message : string) (s : state) : state :=
  mkState (attached s) (listeners s) (timeoutId s) (timerPending s)
          (stderr s) (settle (Rejected (newError message)) (result s))
          (S (calls s)).

Definition TROUBLESHOOTING : string :=
  "TROUBLESHOOTING: https://github.com/GoogleChrome/puppeteer/blob/master/docs/troubleshooting.md".

Section WaitForWSEndpoint.
(** [require('../package.json').puppeteer.chromium_revision] *)
Variable ChromiumRevision : string.
(** The [timeout] argument, in milliseconds. *)
Variable timeout : Z.

Definition cleanup (s : state) : state :=
  let s := if timeoutId s then withTimerPending false s else s in
  withAttached (removeEventListeners (listeners s) (attached s)) s.

Definition launchFailure (error : option string) (buffer : string)
    : string :=
  join nl [
    "Failed to launch chrome!" +:+
      match error with Some message => " " +:+ message | None => "" end;
    buffer;
    "";
    TROUBLESHOOTING;
    ""
  ].

Definition timedOut : string :=
  "Timed out after " +:+ showNumber timeout +:+
  " ms while trying to connect to Chrome! The only Chrome revision guaranteed to work is r"
  +:+ ChromiumRevision.

Definition onClose (error : option string) (s : state) : state :=
  let s := cleanup s in
  reject (launchFailure error (stderr s)) s.

Definition onTimeout (s : state) : state :=
  let s := cleanup s in
  reject timedOut s.

Definition onLine (line : string) (s : state) : state :=
  let s := withStderr (stderr s +:+ line +:+ nl) s in
  match matchEndpoint line with
  | None => s
  | Some endpoint => resolve endpoint (cleanup s)
  end.

(** The state right after the executor of [new Promise] has run. *)
Definition start : state :=
  let reg := [] in
  let '(l1, reg) := addEventListener Rl "line" OnLine reg in
  let '(l2, reg) := addEventListener Rl "close" OnRlClose reg in
  let '(l3, reg) := addEventListener ChromeProcess "exit" OnExit reg in
  let '(l4, reg) := addEventListener ChromeProcess "error" OnError reg in
  let armed := truthy (VNum timeout) in
  mkState reg [l1; l2; l3; l4] armed armed "" Pending 0.

(** *** Event delivery *)

Inductive event : Type :=
| StderrLine (line : string)      (* rl emits 'line' *)
| StderrClose                     (* rl emits 'close' *)
| ChildExit                       (* chromeProcess emits 'exit' *)
| ChildError (message : string)   (* chromeProcess emits 'error' *)
| Deadline.                       (* the timer runs out *)

(** What each attached listener does with the event's argument:
    [onLine], [() => onClose()], [() => onClose()] and
    [error => onClose(error)]. *)
Definition call (h : Handler) (argument : option string) (s : state)
    : state :=
  match h with
  | OnLine => onLine (default "" argument) s
  | OnRlClose => onClose None s
  | OnExit => onClose None s
  | OnError => onClose argument s
  end.

(** [emitter.emit(ev, argument)]: the listeners attached when the
    event is emitted are called in order. *)
Definition emit (em : Emitter) (ev : string) (argument : option string)
    (s : state) : state :=
  foldl (fun s h => call h argument s) s (listenersOf em ev (attached s)).

(** A timer fires only while it is pending, and only once. *)
Definition deliver (s : state) (e : event) : state :=
  match e with
  | StderrLine line => emit Rl "line" (Some line) s
  | StderrClose => emit Rl "close" None s
  | ChildExit => emit ChromeProcess "exit" None s
  | ChildError message => emit ChromeProcess "error" (Some message) s
  | Deadline =>
      if timerPending s then onTimeout (withTimerPending false s) else s
  end.

Definition feed (events : list event) (s : state) : state :=
  foldl deliver s events.

(** *** The race as the specification words it

    The first qualifying event decides: a matching line resolves with
    the captured endpoint; stream close, child exit and child error
    reject with the launch failure carrying the lines read so far; the
    deadline rejects when a timer was armed.  Lines that do not match
    only grow the buffer. *)
Fixpoint firstQualifying (buffer : string) (events : list event)
    : promise string :=
  match events with
  | [] => Pending
  | StderrLine line :: rest =>
      match matchEndpoint line with
      | Some endpoint => Resolved endpoint
      | None => firstQualifying (buffer +:+ line +:+ nl) rest
      end
  | StderrClose :: _ => Rejected (newError (launchFailure None (buffer)))
  | ChildExit :: _ => Rejected (newError (launchFailure None (buffer)))
  | ChildError message :: _ =>
      Rejected (newError (launchFailure (Some message) (buffer)))
  | Deadline :: rest =>
      if truthy (VNum timeout) then Rejected (newError timedOut)
      else firstQualifying buffer rest
  end.

End WaitForWSEndpoint.

(** *** Vocabulary for the properties of the race *)

(** The four subscriptions of [waitForWSEndpoint]. *)
Definition raceListeners : list (Subscription Handler) :=
  [ mkSub Rl "line" OnLine;
    mkSub Rl "close" OnRlClose;
    mkSub ChromeProcess "exit" OnExit;
    mkSub ChromeProcess "error" OnError ].

(** While nothing has qualified: everything attached, the promise
    pending, [stderr] holding the lines read so far. *)
Definition racing (timeout : Z) (buffer : string) : state :=
  mkState raceListeners raceListeners
          (truthy (VNum timeout)) (truthy (VNum timeout)) buffer Pending 0.

(** Once something has qualified: nothing attached, no timer pending, the
    promise settled by the one call made. *)
Definition finished (timeout : Z) (buffer : string) (outcome : promise string)
    : state :=
  mkState [] raceListeners (truthy (VNum timeout)) false buffer outcome 1.

(** An event that ends the race when it is the first of its kind. *)
Definition qualifying (timeout : Z) (e : event) : bool :=
  match e with
  | StderrLine line =>
      match matchEndpoint line with Some _ => true | None => false end
  | StderrClose | ChildExit | ChildError _ => true
  | Deadline => truthy (VNum timeout)
  end.

(** What an event adds to the text [onLine] accumulates, and the text
    accumulated from a run of events. *)
Definition grow (buffer : string) (e : event) : string :=
  match e with
  | StderrLine line => buffer +:+ line +:+ nl
  | _ => buffer
  end.

Definition linesRead (events : list event) : string := foldl grow "" events.

End Handshake.


(** ** The file system as the launcher sees it *)

Module FS.

(** What a fallible call yields: a value, or the error it throws (or
    rejects with). *)
Inductive result (A : Type) : Type :=
| Ok (a : A)
| Err (reason : JS.error).
Arguments Ok {A} a.
Arguments Err {A} reason.

(** [dirs] are the directories that exist; [suffixes] are the random
    name endings that the coming [mkdtemp] calls will draw, in order. *)
Record world : Type := mkWorld {
  dirs : gset string;
  suffixes : list string
}.

(** [fs.mkdtemp(prefix)], of which [mkdtempAsync] is the promise form:
    draws endings until [prefix + ending] names no existing directory,
    creates that directory and returns its path; fails when no drawn name
    is free. *)
Fixpoint mkdtempFrom (prefix : string) (candidates : list string)
    (existing : gset string) : result (string * world) :=
  match candidates with
  | [] => Err (JS.newError "EEXIST: file already exists, mkdtemp")
  | ending :: rest =>
      let path := prefix +:+ ending in
      if decide (path ∈ existing) then mkdtempFrom prefix rest existing
      else Ok (path, mkWorld ({[path]} ∪ existing) rest)
  end.

Definition mkdtemp (prefix : string) (w : world) : result (string * world) :=
  mkdtempFrom prefix (suffixes w) (dirs w).

(** How a run of [rimraf] on a path ends. *)
Inductive removal : Type :=
| Removed      (* the directory was there and is gone now *)
| Absent       (* nothing to remove: rimraf succeeds *)
| Failed.      (* the directory is still there: rimraf throws or rejects *)

(** [rimraf(path)] and [rimraf.sync(path)], the [removeFolder] of the
    launcher; [removeFolderAsync] is its promise form.  A path that does
    not exist is no error.  Whether removing an existing tree succeeds is
    up to the operating system (files in use, permissions): [permitted]
    says so. *)
Definition rimraf (path : string) (permitted : bool) (existing : gset string)
    : removal * gset string :=
  if decide (path ∈ existing) then
    if permitted then (Removed, existing ∖ {[path]}) else (Failed, existing)
  else (Absent, existing).

End FS.

(** ** path.join *)

Module Path.

(** The segments of a path: what lies between its slashes. *)
Fixpoint segments (current path : string) : list string :=
  match path with
  | EmptyString => [current]
  | String c rest =>
      if Ascii.eqb c "/" then current :: segments "" rest
      else segments (current +:+ String c EmptyString) rest
  end.

(** [normalizeString]: empty segments and [.] are dropped, [..] takes back
    the segment before it, and where there is none to take back it is kept
    if the path is relative.  [kept] holds the segments kept so far, the
    last one first. *)
Fixpoint normalizeSegments (allowAboveRoot : bool) (kept rest : list string)
    : list string :=
  match rest with
  | [] => rev kept
  | segment :: rest =>
      if String.eqb segment "" || String.eqb segment "." then
        normalizeSegments allowAboveRoot kept rest
      else if String.eqb segment ".." then
        match kept with
        | last :: before =>
            if String.eqb last ".."
            then normalizeSegments allowAboveRoot (segment :: kept) rest
            else normalizeSegments allowAboveRoot before rest
        | [] =>
            normalizeSegments allowAboveRoot
              (if allowAboveRoot then [segment] else []) rest
        end
      else normalizeSegments allowAboveRoot (segment :: kept) rest
  end.

Definition endsWithSlash (path : string) : bool :=
  match rev (segments "" path) with
  | last :: _ :: _ => String.eqb last ""
  | _ => false
  end.

(** [path.posix.normalize] *)
Definition normalize (path : string) : string :=
  match path with
  | EmptyString => "."
  | String first _ =>
      let isAbsolute := Ascii.eqb first "/" in
      let body :=
        String.concat "/"
          (normalizeSegments (negb isAbsolute) [] (segments "" path)) in
      let body :=
        if String.eqb body "" && negb isAbsolute then "." else body in
      let body :=
        if negb (String.eqb body "") && endsWithSlash path
        then body +:+ "/" else body in
      if isAbsolute then "/" +:+ body else body
  end.

(** [path.posix.join(a, b)]: the segments that are not empty, joined by a
    slash and normalised. *)
Definition posixJoin (a b : string) : string :=
  let joined :=
    if String.eqb a "" then b
    else if String.eqb b "" then a
    else a +:+ "/" +:+ b in
  normalize joined.

End Path.


(** ** Launcher.launch, part one: the arguments *)

Module Composer.
Import JS FS.

Definition DEFAULT_ARGS : list string := [
  "--disable-background-networking";
  "--disable-background-timer-throttling";
  "--disable-client-side-phishing-detection";
  "--disable-default-apps";
  "--disable-extensions";
  "--disable-hang-monitor";
  "--disable-popup-blocking";
  "--disable-prompt-on-repost";
  "--disable-sync";
  "--disable-translate";
  "--metrics-recording-only";
  "--no-first-run";
  "--remote-debugging-port=0";
  "--safebrowsing-disable-auto-update"
].

Definition AUTOMATION_ARGS : list string := [
  "--enable-automation";
  "--password-store=basic";
  "--use-mock-keychain"
].

(** The options [launch] reads.  [args] is an array of strings or absent,
    [userDataDir] a string or absent, [slowMo] and [timeout] numbers or
    absent; the flags are kept as raw values because the code tests them
    with [!x], [=== true], [!== false] and [typeof]. *)
Record LaunchOptions : Type := mkOptions {
  executablePath : value;
  args : option (list string);
  userDataDir : option string;
  headless : value;
  devtools : value;
  appMode : value;
  dumpio : value;
  handleSIGINT : value;
  handleSIGTERM : value;
  handleSIGHUP : value;
  slowMo : option Z;
  timeout : option Z
}.

(** [launch()] and [launch({})]. *)
Definition noOptions : LaunchOptions :=
  mkOptions VUndefined None None VUndefined VUndefined VUndefined VUndefined
            VUndefined VUndefined VUndefined None None.

(** [arg.startsWith(prefix)] *)
Definition startsWith (prefix arg : string) : bool := String.prefix prefix arg.

(** Truthiness of an optional string: absent and [''] are falsy. *)
Definition truthyString (s : option string) : bool :=
  match s with
  | Some text => truthy (VStr text)
  | None => false
  end.

(** [!options.args || !options.args.some(arg => arg.startsWith('--user-data-dir'))] *)
Definition lacksUserDataDirArg (o : LaunchOptions) : bool :=
  match args o with
  | None => true
  | Some list => negb (existsb (startsWith "--user-data-dir") list)
  end.

(** What the composing part of [launch] leaves behind. *)
Record composed : Type := mkComposed {
  chromeArguments : list string;
  temporaryUserDataDir : option string;
  after : world
}.

Section Compose.
(** [path.join] of the platform the launcher runs on: it joins with the
    platform's separator and normalises the result. *)
Variable pathJoin : string -> string -> string.
(** [os.tmpdir()] *)
Variable tmpdir : string.

(** [path.join(os.tmpdir(), 'puppeteer_dev_profile-')] *)
Definition CHROME_PROFILE_PATH : string :=
  pathJoin tmpdir "puppeteer_dev_profile-".

(** Lines 72 to 77: the [--user-data-dir] argument, if one is pushed, the
    directory allocated for it, if any, and the world afterwards. *)
Definition profile (o : LaunchOptions) (w : world)
    : result (list string * option string * world) :=
  if lacksUserDataDirArg o then
    if negb (truthyString (userDataDir o)) then
      match mkdtemp CHROME_PROFILE_PATH w with
      | Ok (temporary, w') =>
          Ok (["--user-data-dir=" +:+ temporary], Some temporary, w')
      | Err reason => Err reason
      end
    else
      Ok (["--user-data-dir=" +:+ default "" (userDataDir o)], None, w)
  else Ok ([], None, w).

(** [options.headless] once app mode and devtools have had their say. *)
Definition effectiveHeadless (o : LaunchOptions) : value :=
  let h := if truthy (appMode o) then VBool false else headless o in
  if isTrue (devtools o) then VBool false else h.

(** Lines 64 to 97, in the order of the pushes. *)
Definition composeArguments (o : LaunchOptions) (w : world) : result composed :=
  let chromeArguments := DEFAULT_ARGS in
  let chromeArguments :=
    if truthy (appMode o) then chromeArguments
    else chromeArguments ++ AUTOMATION_ARGS in
  match profile o w with
  | Err reason => Err reason
  | Ok (pushed, temporary, w') =>
      let chromeArguments := chromeArguments ++ pushed in
      let chromeArguments :=
        if isTrue (devtools o)
        then chromeArguments ++ ["--auto-open-devtools-for-tabs"]
        else chromeArguments in
      let headless := effectiveHeadless o in
      let chromeArguments :=
        if negb (isBoolean headless) || truthy headless
        then chromeArguments ++
             ["--headless"; "--disable-gpu"; "--hide-scrollbars"; "--mute-audio"]
        else chromeArguments in
      let chromeArguments :=
        match args o with
        | Some list => chromeArguments ++ list
        | None => chromeArguments
        end in
      Ok (mkComposed chromeArguments temporary w')
  end.

End Compose.

(** *** Sample options and worlds *)

(** Devtools on, app mode off, nothing else. *)
Definition devtoolsOnly : LaunchOptions :=
  mkOptions VUndefined None None VUndefined (VBool true) VUndefined VUndefined
            VUndefined VUndefined VUndefined None None.

(** A world without directories in which [mkdtemp] will draw the given
    endings. *)
Definition emptyWorld (endings : list string) : world := mkWorld ∅ endings.

(** [{handleSIGINT: false}] *)
Definition sigintDisabled : LaunchOptions :=
  mkOptions VUndefined None None VUndefined VUndefined VUndefined VUndefined
            (VBool false) VUndefined VUndefined None None.

(** [{userDataDir: ''}] *)
Definition emptyUserDataDir : LaunchOptions :=
  mkOptions VUndefined None (Some "") VUndefined VUndefined VUndefined
            VUndefined VUndefined VUndefined VUndefined None None.

(** Options that name the profile directory themselves. *)
Definition ownProfile : LaunchOptions :=
  mkOptions VUndefined (Some ["--window-size=800,600"]) (Some "/home/me/profile")
            (VBool false) VUndefined VUndefined VUndefined
            VUndefined VUndefined VUndefined None None.

End Composer.


(** ** Launcher.launch, part two: the supervised child *)

Module Supervisor.
Import JS Helper FS.

(** The two closures of [launch] that get subscribed to [exitEmitter]. *)
Inductive Handler : Type := ForceKillChrome | KillChrome.

#[global] Instance Handler_eq_dec : EqDecision Handler.
Proof. solve_decision. Defined.

(** The signals [ExitEmitter] listens for, with the exit code it passes
    to [process.exit]. *)
Inductive signal : Type := SIGINT | SIGTERM | SIGHUP.

Definition signalName (sig : signal) : string :=
  match sig with
  | SIGINT => "SIGINT"
  | SIGTERM => "SIGTERM"
  | SIGHUP => "SIGHUP"
  end.

Definition exitCode (sig : signal) : Z :=
  match sig with
  | SIGINT => 2
  | SIGTERM => 15
  | SIGHUP => 1
  end.

(** What the launcher does to the outside world, in the order it does it. *)
Inductive effect : Type :=
| Taskkill (pid : Z)          (* execSync(`taskkill /pid ${pid} /T /F`) *)
| KillGroup (pid : Z)         (* process.kill(-pid, 'SIGKILL') *)
| RimrafSync (path : option string) (outcome : removal)
                              (* removeFolder.sync(path) has run *)
| RimrafAsync (path : string) (outcome : removal)
                              (* removeFolderAsync(path) has settled *)
| ConsoleError                (* console.error(err) *)
| Send (method : string)      (* connection.send(method) *)
| ProcessExit (code : Z)      (* process.exit(code) *)
| Raised (reason : error)     (* an exception leaves killChrome or
                                 forceKillChrome and the handler calling it *)
| Throw (reason : error).     (* launch throws *)

#[global] Instance removal_eq_dec : EqDecision removal.
Proof. solve_decision. Defined.

(** What is fixed once [launch] has spawned the child and wired it. *)
Record child : Type := mkChild {
  pid : option Z;                          (* chromeProcess.pid *)
  killed : bool;                           (* chromeProcess.killed *)
  temporaryUserDataDir : option string;
  listeners : list (Subscription Handler);
  win32 : bool                             (* process.platform === 'win32' *)
}.

(** What changes while the child is supervised. *)
Record state : Type := mkState {
  chrome : child;
  chromeClosed : bool;
  closeArmed : bool;      (* the once('close') listener is still attached *)
  removing : bool;        (* the close listener's removeFolderAsync is in flight *)
  subscribed : registry Handler;      (* attached to exitEmitter *)
  connection : bool;                  (* connection is not null *)
  waitForChromeToClose : promise unit;
  processListening : bool; (* ExitEmitter still listens to the process *)
  halted : bool;           (* the Node process is gone *)
  existing : gset string;
  log : list effect
}.

Definition closed (s : state) : state :=
  mkState (chrome s) true false (removing s) (subscribed s) (connection s)
          (waitForChromeToClose s) (processListening s) (halted s)
          (existing s) (log s).

Definition withRemoving (b : bool) (s : state) : state :=
  mkState (chrome s) (chromeClosed s) (closeArmed s) b (subscribed s)
          (connection s) (waitForChromeToClose s) (processListening s)
          (halted s) (existing s) (log s).

Definition withSubscribed (reg : registry Handler) (s : state) : state :=
  mkState (chrome s) (chromeClosed s) (closeArmed s) (removing s) reg
          (connection s) (waitForChromeToClose s) (processListening s)
          (halted s) (existing s) (log s).

Definition connected (s : state) : state :=
  mkState (chrome s) (chromeClosed s) (closeArmed s) (removing s)
          (subscribed s) true (waitForChromeToClose s) (processListening s)
          (halted s) (existing s) (log s).

Definition fulfill (s : state) : state :=
  mkState (chrome s) (chromeClosed s) (closeArmed s) (removing s)
          (subscribed s) (connection s)
          (settle (Resolved tt) (waitForChromeToClose s))
          (processListening s) (halted s) (existing s) (log s).

Definition deaf (s : state) : state :=
  mkState (chrome s) (chromeClosed s) (closeArmed s) (removing s)
          (subscribed s) (connection s) (waitForChromeToClose s) false
          (halted s) (existing s) (log s).

Definition halt (s : state) : state :=
  mkState (chrome s) (chromeClosed s) (closeArmed s) (removing s)
          (subscribed s) (connection s) (waitForChromeToClose s)
          (processListening s) true (existing s) (log s).

Definition withExisting (paths : gset string) (s : state) : state :=
  mkState (chrome s) (chromeClosed s) (closeArmed s) (removing s)
          (subscribed s) (connection s) (waitForChromeToClose s)
          (processListening s) (halted s) paths (log s).

Definition record (e : effect) (s : state) : state :=
  mkState (chrome s) (chromeClosed s) (closeArmed s) (removing s)
          (subscribed s) (connection s) (waitForChromeToClose s)
          (processListening s) (halted s) (existing s) (log s ++ [e]).

(** [if (temporaryUserDataDir)]: the path when it is a non-empty string. *)
Definition ownedDirectory (s : state) : option string :=
  match temporaryUserDataDir (chrome s) with
  | Some path => if truthy (VStr path) then Some path else None
  | None => None
  end.

(** [chromeProcess.pid && !chromeProcess.killed && !chromeClosed] *)
Definition live (s : state) : bool :=
  match pid (chrome s) with
  | Some n => truthy (VNum n) && negb (killed (chrome s)) && negb (chromeClosed s)
  | None => false
  end.

(** What the operating system answers while a handler of the launcher
    runs.  [removable] says whether rimraf may delete the profile
    directory, should it exist.  [killError] is what [process.kill] or
    [execSync] throws, should the kill be attempted: nothing when the kill
    goes through, an error when it does not ([ESRCH] when the process group
    is gone already, a failing [taskkill]). *)
Record answers : Type := mkAnswers {
  removable : bool;
  killError : option error
}.

(** The operating system's kill, by platform, lines 164 to 167.  Neither
    call is inside a [try]: what it throws leaves [forceKillChrome]. *)
Definition osKill (os : answers) (s : state) : option error * state :=
  match pid (chrome s) with
  | Some n =>
      (killError os,
       record (if win32 (chrome s) then Taskkill n else KillGroup n) s)
  | None => (None, s)
  end.

(** Lines 170 to 172.  The [try] around [removeFolder.sync] swallows what
    it throws, also the assertion that rimraf raises for a path that is
    [null] or empty. *)
Definition removeProfile (os : answers) (s : state) : state :=
  match ownedDirectory s with
  | Some path =>
      let '(outcome, paths) := rimraf path (removable os) (existing s) in
      withExisting paths (record (RimrafSync (Some path) outcome) s)
  | None =>
      record (RimrafSync (temporaryUserDataDir (chrome s)) Failed) s
  end.

(** [forceKillChrome()]: the state it leaves and, when the kill throws,
    the error that leaves it; the removal is not reached then. *)
Definition forceKillChrome (os : answers) (s : state)
    : option error * state :=
  let s := withSubscribed
             (removeEventListeners (listeners (chrome s)) (subscribed s)) s in
  let '(thrown, s) := if live s then osKill os s else (None, s) in
  match thrown with
  | Some reason => (Some reason, s)
  | None => (None, removeProfile os s)
  end.

(** [killChrome()]; the promise it returns is [waitForChromeToClose]. *)
Definition killChrome (os : answers) (s : state) : option error * state :=
  let s := withSubscribed
             (removeEventListeners (listeners (chrome s)) (subscribed s)) s in
  match ownedDirectory s with
  | Some _ => forceKillChrome os s
  | None => (None, if connection s then record (Send "Browser.close") s else s)
  end.

(** The listener of [chromeProcess.once('close', ...)]. *)
Definition onClose (s : state) : state :=
  let s := closed s in
  match ownedDirectory s with
  | Some _ => withRemoving true s
  | None => fulfill s
  end.

(** [removeFolderAsync(temporaryUserDataDir)] settles:
    [.then(() => fulfill()).catch(err => console.error(err))]. *)
Definition onRemoved (permitted : bool) (s : state) : state :=
  match ownedDirectory s with
  | Some path =>
      let '(outcome, paths) := rimraf path permitted (existing s) in
      let s := withExisting paths (record (RimrafAsync path outcome)
                                          (withRemoving false s)) in
      match outcome with
      | Failed => record ConsoleError s
      | _ => fulfill s
      end
  | None => s
  end.

Definition call (h : Handler) (os : answers) (s : state)
    : option error * state :=
  match h with
  | ForceKillChrome => forceKillChrome os s
  | KillChrome => killChrome os s
  end.

(** The listeners are called in order; one that throws ends the round. *)
Fixpoint callAll (handlers : list Handler) (os : answers) (s : state)
    : option error * state :=
  match handlers with
  | [] => (None, s)
  | h :: rest =>
      let '(thrown, s) := call h os s in
      match thrown with
      | Some reason => (Some reason, s)
      | None => callAll rest os s
      end
  end.

(** [exitEmitter.emit(ev)] *)
Definition emit (ev : string) (os : answers) (s : state)
    : option error * state :=
  callAll (listenersOf ExitEmitter ev (subscribed s)) os s.

(** *** Events *)

Inductive event : Type :=
| ChildClose                           (* chromeProcess emits 'close' *)
| RemovalDone (permitted : bool)       (* the asynchronous rimraf finishes *)
| Signal (sig : signal) (os : answers) (* the process gets a signal *)
| Exit (os : answers)                  (* the process emits 'exit' *)
| CloseHook (os : answers).            (* the browser calls [killChrome] *)

(** An exception that leaves a handler is on record; what becomes of it
    is up to the caller of the handler. *)
Definition raised (r : option error * state) : state :=
  match r with
  | (Some reason, s) => record (Raised reason) s
  | (None, s) => s
  end.

(** [ExitEmitter]'s [sigHandler]: stop listening to the process,
    rebroadcast, call [process.exit].  When a handler throws, the
    exception leaves [emit] and [sigHandler], and [process.exit] is not
    reached.  Whether the process survives the exception is not the
    launcher's to say (Node ends a process on an uncaught exception unless
    it is told otherwise): the state stays as the handler left it, and an
    event list that stops here is the run of a process that did not. *)
Definition sigHandler (sig : signal) (os : answers) (s : state) : state :=
  let s := deaf s in
  match emit (signalName sig) os s with
  | (Some reason, s) => record (Raised reason) s
  | (None, s) => halt (record (ProcessExit (exitCode sig)) s)
  end.

(** [ExitEmitter]'s [exitHandler]; the process is exiting, whatever the
    handlers do. *)
Definition exitHandler (os : answers) (s : state) : state :=
  let s := deaf s in
  halt (raised (emit "exit" os s)).

Definition deliver (s : state) (e : event) : state :=
  if halted s then s else
  match e with
  | ChildClose => if closeArmed s then onClose s else s
  | RemovalDone permitted => if removing s then onRemoved permitted s else s
  | Signal sig os =>
      if processListening s then sigHandler sig os s else halt s
  | Exit os =>
      if processListening s then exitHandler os s else halt s
  | CloseHook os => raised (killChrome os s)
  end.

Definition feed (events : list event) (s : state) : state :=
  foldl deliver s events.

(** *** Vocabulary for the properties of the log *)

(** The effect is a run of rimraf on [path]. *)
Definition runsRemoval (path : string) (e : effect) : bool :=
  match e with
  | RimrafSync (Some p) _ => String.eqb p path
  | RimrafAsync p _ => String.eqb p path
  | _ => false
  end.





(** The asynchronous removal started by the close listener has failed. *)
Definition asyncFailure (e : effect) : bool :=
  match e with
  | RimrafAsync _ Failed => true
  | _ => false
  end.

Definition isThrow (e : effect) : bool :=
  match e with
  | Throw _ => true
  | _ => false
  end.

Definition isRaised (e : effect) : bool :=
  match e with
  | Raised _ => true
  | _ => false
  end.

(** How the synchronous removal of [forceKillChrome] ends in a state. *)
Definition syncOutcome (permitted : bool) (s : state) : removal :=
  match ownedDirectory s with
  | Some path => fst (rimraf path permitted (existing s))
  | None => Failed
  end.



(** How the promise [waitForChromeToClose] relates to the close listener
    and to the removal it starts: while the listener is armed or the
    removal is in flight the promise is pending and no removal has failed
    yet; afterwards, if the removal has failed, the failure was reported to
    the console and the promise is pending still. *)
Definition closeProtocol (s : state) : Prop :=
  match closeArmed s, removing s with
  | true, true => False
  | false, false =>
      existsb asyncFailure (log s) = true ->
      waitForChromeToClose s = Pending /\ In ConsoleError (log s)
  | _, _ =>
      waitForChromeToClose s = Pending /\ existsb asyncFailure (log s) = false
  end.

(** From [s] to [s'] the log has only grown, and by no [Throw]. *)
Definition noThrowSince (s s' : state) : Prop :=
  exists extra,
    log s' = log s ++ extra
    /\ forallb (fun e => negb (isThrow e)) extra = true.

(** The subscriptions to [exitEmitter] are those of the array
    [listeners], or none. *)
Definition wired (s : state) : Prop :=
  subscribed s = listeners (chrome s) \/ subscribed s = [].

(** From [s] to [s'] the child is the same and stays wired that way. *)
Definition staysWired (s s' : state) : Prop :=
  chrome s' = chrome s /\ (wired s -> wired s').

(** What [forceKillChrome] sends to a live child. *)
Definition kills (s : state) : list effect :=
  if live s then
    match pid (chrome s) with
    | Some n => [if win32 (chrome s) then Taskkill n else KillGroup n]
    | None => []
    end
  else [].

(** What the kill of [forceKillChrome] throws in [s], if it is attempted
    and throws. *)
Definition refused (os : answers) (s : state) : option error :=
  if live s then killError os else None.

(** *** Sample answers of the operating system *)

(** The kill goes through and the directory may be deleted. *)
Definition obliging : answers := mkAnswers true None.

(** The kill goes through; the directory may not be deleted. *)
Definition guarding : answers := mkAnswers false None.

(** The child is gone, and its process group with it: the kill throws. *)
Definition ESRCH : error := newError "kill ESRCH".

Definition childless : answers := mkAnswers true (Some ESRCH).

End Supervisor.


(** ** Launcher.launch, as a whole *)

Module Launcher.
Import JS Helper FS.
Import Composer(LaunchOptions, handleSIGINT, handleSIGTERM, handleSIGHUP,
                composed, composeArguments).
Import Supervisor(Handler, ForceKillChrome, KillChrome).

(** Lines 127 to 133: the subscriptions to [exitEmitter], as the array
    [listeners] and as what is attached to the emitter afterwards. *)
Definition wire (o : LaunchOptions)
    : list (Subscription Handler) * registry Handler :=
  let '(l, reg) := addEventListener ExitEmitter "exit" ForceKillChrome [] in
  let listeners := [l] in
  let '(listeners, reg) :=
    if isNotFalse (handleSIGINT o) then
      let '(l, reg) := addEventListener ExitEmitter "SIGINT" ForceKillChrome reg in
      (listeners ++ [l], reg)
    else (listeners, reg) in
  let '(listeners, reg) :=
    if isNotFalse (handleSIGTERM o) then
      let '(l, reg) := addEventListener ExitEmitter "SIGTERM" KillChrome reg in
      (listeners ++ [l], reg)
    else (listeners, reg) in
  let '(listeners, reg) :=
    if isNotFalse (handleSIGHUP o) then
      let '(l, reg) := addEventListener ExitEmitter "SIGHUP" KillChrome reg in
      (listeners ++ [l], reg)
    else (listeners, reg) in
  (listeners, reg).

(** [options.timeout || 30 * 1000] *)
Definition handshakeTimeout (o : LaunchOptions) : Z :=
  match Composer.timeout o with
  | Some ms => if truthy (VNum ms) then ms else 30 * 1000
  | None => 30 * 1000
  end.

(** While [launch] awaits the endpoint, events reach the handshake race
    and the supervised child alike. *)
Inductive happening : Type :=
| Race (e : Handshake.event)
| Life (e : Supervisor.event).

(** What [launch] finds on the machine it runs on.  [revisionInfo] is how
    [Downloader.revisionInfo(Downloader.currentPlatform(), ChromiumRevision)]
    ends: its fields [downloaded] and [executablePath], or the error it
    throws ([lib/ChromiumDownloader.js] is not part of the sources at
    hand).  [assertion] is what [console.assert] throws when its first
    argument is falsy: an error in the versions of Node in which it
    throws, nothing in those in which it only prints.  [spawn] is
    [childProcess.spawn] on an executable and its arguments: the pid of
    the child, [None] for a child without one (it could not be started
    and will emit [error]), or the error thrown at once (an empty path,
    for one). *)
Record host : Type := mkHost {
  revisionInfo : result (bool * string);
  assertion : option error;
  spawn : string -> list string -> result (option Z)
}.

(** Lines 90 to 95: [options.executablePath] when it is a string, the
    downloaded revision otherwise.  A message that [console.assert] only
    prints is not recorded. *)
Definition chromeExecutable (o : LaunchOptions) (h : host) : result string :=
  match Composer.executablePath o with
  | VStr path => Ok path
  | _ =>
      match revisionInfo h with
      | Err reason => Err reason
      | Ok (downloaded, path) =>
          if downloaded then Ok path
          else
            match assertion h with
            | Some reason => Err reason
            | None => Ok path
            end
      end
  end.

Section Launch.
(** [process.platform === 'win32'] *)
Variable platformIsWin32 : bool.
(** [path.join] of the platform *)
Variable pathJoin : string -> string -> string.
(** [os.tmpdir()] *)
Variable tmpdir : string.
(** [require('../package.json').puppeteer.chromium_revision] *)
Variable ChromiumRevision : string.

(** The state when [launch] reaches its [try]: the child is spawned with
    [chromePid] ([None] when spawning failed and [pid] is undefined), the
    close listener is attached and the signals are wired. *)
Definition spawned (o : LaunchOptions) (c : composed) (chromePid : option Z)
    : Supervisor.state :=
  let '(listeners, reg) := wire o in
  Supervisor.mkState
    (Supervisor.mkChild chromePid false (Composer.temporaryUserDataDir c)
                        listeners platformIsWin32)
    false true false reg false Pending true false
    (dirs (Composer.after c)) [].

(** [await waitForWSEndpoint(...)]: events are delivered one by one until
    the promise has settled (or the process is gone); the continuation of
    the [await] runs before any further event. *)
Fixpoint awaitEndpoint (ms : Z) (events : list happening)
    (race : Handshake.state) (s : Supervisor.state)
    : Handshake.state * Supervisor.state :=
  match events with
  | [] => (race, s)
  | e :: rest =>
      if isPending (Handshake.result race) && negb (Supervisor.halted s) then
        match e with
        | Race e =>
            awaitEndpoint ms rest
              (Handshake.deliver ChromiumRevision ms race e) s
        | Life e => awaitEndpoint ms rest race (Supervisor.deliver s e)
        end
      else (race, s)
  end.

(** The [catch] of [launch]: [forceKillChrome(); throw e;].  When
    [forceKillChrome] throws, its error leaves [launch] in place of [e]. *)
Definition catch (reason : error) (os : Supervisor.answers)
    (s : Supervisor.state) : promise unit * Supervisor.state :=
  match Supervisor.forceKillChrome os s with
  | (Some thrown, s) =>
      (Rejected thrown, Supervisor.record (Supervisor.Throw thrown) s)
  | (None, s) =>
      (Rejected reason, Supervisor.record (Supervisor.Throw reason) s)
  end.

(** Lines 136 to 144.  [events] happen while the endpoint is awaited,
    [connecting] while [Connection.create] is awaited; [connect] is how
    [Connection.create] ends and [os] what the operating system answers to
    [forceKillChrome] in the [catch].  [Browser.create], whose promise
    [launch] returns as it is, is taken to succeed. *)
Definition supervise (o : LaunchOptions) (s : Supervisor.state)
    (events : list happening) (connecting : list Supervisor.event)
    (connect : result unit) (os : Supervisor.answers)
    : promise unit * Supervisor.state :=
  let ms := handshakeTimeout o in
  let '(race, s) := awaitEndpoint ms events (Handshake.start ms) s in
  if Supervisor.halted s then (Pending, s) else
  match Handshake.result race with
  | Pending => (Pending, s)
  | Rejected reason => catch reason os s
  | Resolved endpoint =>
      let s := Supervisor.feed connecting s in
      if Supervisor.halted s then (Pending, s) else
      match connect with
      | Err reason => catch reason os s
      | Ok _ => (Resolved tt, Supervisor.connected s)
      end
  end.

(** [Launcher.launch(options)].  Before the [try] there are three ways
    of failing, each of which rejects with nothing spawned, wired or
    cleaned up: the allocation of the profile directory, the lookup of
    the executable, and [childProcess.spawn] throwing. *)
Definition launch (o : LaunchOptions) (w : world) (h : host)
    (events : list happening) (connecting : list Supervisor.event)
    (connect : result unit) (os : Supervisor.answers)
    : promise unit * option Supervisor.state :=
  match composeArguments pathJoin tmpdir o w with
  | Err reason => (Rejected reason, None)
  | Ok c =>
      match chromeExecutable o h with
      | Err reason => (Rejected reason, None)
      | Ok executable =>
          match spawn h executable (Composer.chromeArguments c) with
          | Err reason => (Rejected reason, None)
          | Ok chromePid =>
              let '(outcome, s) :=
                supervise o (spawned o c chromePid) events connecting
                          connect os in
              (outcome, Some s)
          end
      end
  end.

(** *** Vocabulary for the properties of [launch]

    The failure, if there is one, of the handshake or of the connection
    setup, together with the state in which [launch] catches it. *)
Definition setupFailure (o : LaunchOptions) (s : Supervisor.state)
    (events : list happening) (connecting : list Supervisor.event)
    (connect : result unit) : option (error * Supervisor.state) :=
  let ms := handshakeTimeout o in
  let '(race, s) := awaitEndpoint ms events (Handshake.start ms) s in
  match Handshake.result race with
  | Pending => None
  | Rejected reason => Some (reason, s)
  | Resolved _ =>
      match connect with
      | Err reason => Some (reason, Supervisor.feed connecting s)
      | Ok _ => None
      end
  end.

End Launch.

(** A child that reports its endpoint at once. *)
Definition endpointLine : happening :=
  Race (Handshake.StderrLine
          "DevTools listening on ws://127.0.0.1:9222/devtools/browser/abc").

(** A machine on which the revision is downloaded and every spawn gives
    a child with the pid [n]. *)
Definition installed (n : Z) : host :=
  mkHost (Ok (true, "/opt/puppeteer/.local-chromium/linux-526987/chrome-linux/chrome"))
         None (fun _ _ => Ok (Some n)).

(** [launch()] on Linux with an empty [/tmp]: the profile directory is
    [/tmp/puppeteer_dev_profile-Ab3dE9], the child has pid 4242, reports
    its endpoint, and the connection is made. *)
Definition sampleLaunch : promise unit * option Supervisor.state :=
  launch false Path.posixJoin "/tmp" "526987" Composer.noOptions
         (Composer.emptyWorld ["Ab3dE9"]) (installed 4242)
         [endpointLine] [] (Ok tt) Supervisor.obliging.

Definition sampleProfile : string := "/tmp/puppeteer_dev_profile-Ab3dE9".

End Launcher.


(** ** Further vocabulary for the properties *)

Module Vocabulary.
Import JS Helper FS Supervisor.

(** How many elements of an argument list start with [--user-data-dir]. *)
Definition userDataDirArgs (arguments : list string) : nat :=
  length (List.filter (Composer.startsWith "--user-data-dir") arguments).

(** [options.headless] is anything but the boolean [false], and neither
    app mode nor devtools overrides it. *)
Definition headlessWanted (o : Composer.LaunchOptions) : Prop :=
  truthy (Composer.appMode o) = false
  /\ Composer.devtools o <> VBool true
  /\ Composer.headless o <> VBool false.

Definition isKill (e : effect) : bool :=
  match e with
  | Taskkill _ | KillGroup _ => true
  | _ => false
  end.

Definition isProcessExit (e : effect) : bool :=
  match e with
  | ProcessExit _ => true
  | _ => false
  end.

(** A kill, if the effect is one, is the platform's command aimed at the
    pid of the child. *)
Definition killsOwnChild (ch : child) (e : effect) : Prop :=
  match e with
  | Taskkill n => win32 ch = true /\ pid ch = Some n
  | KillGroup n => win32 ch = false /\ pid ch = Some n
  | _ => True
  end.

(** From [s] to [s'] the child is the same and the log holds no kill but
    of that child. *)
Definition killsOnlyOwnChild (s s' : state) : Prop :=
  chrome s' = chrome s
  /\ (Forall (killsOwnChild (chrome s)) (log s) ->
      Forall (killsOwnChild (chrome s)) (log s')).

(** From [s] to [s'] the child is the same and every directory but the
    one it owns is still there. *)
Definition keepsOthers (s s' : state) : Prop :=
  chrome s' = chrome s
  /\ forall path, path ∈ existing s -> ownedDirectory s <> Some path ->
       path ∈ existing s'.

(** Once the close listener is spent the child has closed; and
    [waitForChromeToClose] is pending, or else the listener is spent, no
    removal is in flight and the directory the child owned is gone. *)
Definition closedWhenSettled (s : state) : Prop :=
  (closeArmed s = false -> chromeClosed s = true)
  /\ (waitForChromeToClose s = Pending
      \/ (closeArmed s = false /\ removing s = false
          /\ forall path, ownedDirectory s = Some path -> path ∉ existing s)).

(** From [s] to [s'] both descriptions of the close listener's work stay
    true. *)
Definition keepsCloseOrder (s s' : state) : Prop :=
  closeProtocol s /\ closedWhenSettled s ->
  closeProtocol s' /\ closedWhenSettled s'.


(** Nothing is subscribed to [exitEmitter] in [s'] if nothing was in [s]. *)
Definition staysReleased (s s' : state) : Prop :=
  chrome s' = chrome s /\ (subscribed s = [] -> subscribed s' = []).

(** If the child had closed in [s] it has in [s'], and the log has grown
    by no kill. *)
Definition noKillOnceClosed (s s' : state) : Prop :=
  chromeClosed s = true ->
  chromeClosed s' = true
  /\ exists extra,
       log s' = log s ++ extra
       /\ forallb (fun e => negb (isKill e)) extra = true.

End Vocabulary.


(** * Properties *)

(** ** Strings *)

Module StringFacts.

Lemma append_empty s : s +:+ "" = s.
Proof.
  induction s as [|c s IH]; [reflexivity|].
  change (String c (s +:+ "") = String c s). rewrite IH. reflexivity.
Qed.

Lemma append_assoc a b c : (a +:+ b) +:+ c = a +:+ (b +:+ c).
Proof.
  induction a as [|ch a IH]; [reflexivity|].
  change (String ch ((a +:+ b) +:+ c) = String ch (a +:+ b +:+ c)).
  rewrite IH. reflexivity.
Qed.

(** [stripPrefix] takes a prefix off, and only a prefix. *)
Lemma stripPrefix_spec prefix : forall s rest,
  Handshake.stripPrefix prefix s = Some rest <-> s = prefix +:+ rest.
Proof.
  induction prefix as [|a prefix IH]; intros s rest;
    cbn [Handshake.stripPrefix String.append].
  - split; [intros [= ->]; reflexivity | intros ->; reflexivity].
  - destruct s as [|b s]; [split; discriminate|].
    destruct (Ascii.eqb_spec a b) as [->|Hdiff].
    + rewrite IH. split; [intros ->; reflexivity | intros [= ->]; reflexivity].
    + split; [discriminate | intros [= Hab _]; congruence].
Qed.

End StringFacts.

(** ** Subscriptions *)

Module HelperFacts.
Import Helper.

Section Removal.
Context {H : Type} `{EqDecision H}.

Lemma removeEventListeners_nil (subs : list (Subscription H)) :
  removeEventListeners subs [] = [].
Proof. induction subs as [|sub subs IH]; [reflexivity|exact IH]. Qed.

(** Releasing the subscriptions of an array from a registry that holds
    exactly them leaves nothing attached. *)
Lemma removeEventListeners_self (subs : list (Subscription H)) :
  removeEventListeners subs subs = [].
Proof.
  induction subs as [|sub subs IH]; [reflexivity|].
  unfold removeEventListeners. cbn [foldl removeListener].
  rewrite decide_True by reflexivity. exact IH.
Qed.

End Removal.

End HelperFacts.

(** ** The handshake race *)

Module HandshakeFacts.
Import JS Helper Handshake.

Section Race.
Variable ChromiumRevision : string.
Variable timeout : Z.

Abbreviation deliver := (Handshake.deliver ChromiumRevision timeout).
Abbreviation feed := (Handshake.feed ChromiumRevision timeout).
Abbreviation firstQualifying :=
  (Handshake.firstQualifying ChromiumRevision timeout).

Lemma start_racing : start timeout = racing timeout "".
Proof. reflexivity. Qed.

Lemma detach_all : removeEventListeners raceListeners raceListeners = [].
Proof. reflexivity. Qed.

Lemma cleanup_racing buffer :
  cleanup (racing timeout buffer)
  = mkState [] raceListeners (truthy (VNum timeout)) false buffer Pending 0.
Proof.
  unfold cleanup, racing. destruct (truthy (VNum timeout)); reflexivity.
Qed.

Lemma onClose_racing error buffer :
  onClose error (racing timeout buffer)
  = finished timeout buffer (Rejected (newError (launchFailure error buffer))).
Proof. unfold onClose. cbv zeta. rewrite cleanup_racing. reflexivity. Qed.

Lemma onLine_racing line buffer :
  onLine line (racing timeout buffer)
  = match matchEndpoint line with
    | Some endpoint =>
        finished timeout (buffer +:+ line +:+ nl) (Resolved endpoint)
    | None => racing timeout (buffer +:+ line +:+ nl)
    end.
Proof.
  unfold onLine. cbv zeta.
  change (withStderr (stderr (racing timeout buffer) +:+ line +:+ nl)
                     (racing timeout buffer))
    with (racing timeout (buffer +:+ line +:+ nl)).
  destruct (matchEndpoint line); [|reflexivity].
  rewrite cleanup_racing. reflexivity.
Qed.

Lemma onTimeout_racing buffer :
  truthy (VNum timeout) = true ->
  deliver (racing timeout buffer) Deadline
  = finished timeout buffer
      (Rejected (newError (timedOut ChromiumRevision timeout))).
Proof.
  intros Harmed. unfold racing, finished. rewrite Harmed. reflexivity.
Qed.

(** One step of the race, from a racing state. *)
Lemma deliver_racing buffer e :
  deliver (racing timeout buffer) e
  = match e with
    | StderrLine line =>
        match matchEndpoint line with
        | Some endpoint =>
            finished timeout (buffer +:+ line +:+ nl) (Resolved endpoint)
        | None => racing timeout (buffer +:+ line +:+ nl)
        end
    | StderrClose | ChildExit =>
        finished timeout buffer (Rejected (newError (launchFailure None buffer)))
    | ChildError message =>
        finished timeout buffer
          (Rejected (newError (launchFailure (Some message) buffer)))
    | Deadline =>
        if truthy (VNum timeout)
        then finished timeout buffer
               (Rejected (newError (timedOut ChromiumRevision timeout)))
        else racing timeout buffer
    end.
Proof.
  destruct e as [line| | |message|].
  - change (deliver (racing timeout buffer) (StderrLine line))
      with (onLine line (racing timeout buffer)).
    apply onLine_racing.
  - change (deliver (racing timeout buffer) StderrClose)
      with (onClose None (racing timeout buffer)).
    apply onClose_racing.
  - change (deliver (racing timeout buffer) ChildExit)
      with (onClose None (racing timeout buffer)).
    apply onClose_racing.
  - change (deliver (racing timeout buffer) (ChildError message))
      with (onClose (Some message) (racing timeout buffer)).
    apply onClose_racing.
  - destruct (truthy (VNum timeout)) eqn:Harmed.
    + apply onTimeout_racing, Harmed.
    + unfold racing. rewrite Harmed. reflexivity.
Qed.

(** With nothing attached and no timer pending, no event has any effect. *)
Lemma deliver_detached s e :
  attached s = [] -> timerPending s = false -> deliver s e = s.
Proof.
  intros Hnone Hidle.
  destruct e; unfold Handshake.deliver, emit; rewrite ?Hnone, ?Hidle; reflexivity.
Qed.

Lemma feed_detached events s :
  attached s = [] -> timerPending s = false -> feed events s = s.
Proof.
  intros Hnone Hidle. induction events as [|e events IH]; [reflexivity|].
  unfold Handshake.feed. cbn [foldl].
  rewrite deliver_detached by assumption. exact IH.
Qed.

Lemma feed_finished events buffer outcome :
  feed events (finished timeout buffer outcome) = finished timeout buffer outcome.
Proof. apply feed_detached; reflexivity. Qed.

Lemma feed_cons e events s : feed (e :: events) s = feed events (deliver s e).
Proof. reflexivity. Qed.

Lemma feed_app before later s : feed (before ++ later) s = feed later (feed before s).
Proof. unfold Handshake.feed. apply foldl_app. Qed.

(** As long as nothing qualifies the race goes on and only the buffer
    grows. *)
Lemma feed_quiet events : forall buffer,
  existsb (qualifying timeout) events = false ->
  feed events (racing timeout buffer)
  = racing timeout (foldl grow buffer events).
Proof.
  induction events as [|e events IH]; intros buffer Hquiet; [reflexivity|].
  cbn [existsb] in Hquiet. apply orb_false_elim in Hquiet as [He Hrest].
  rewrite feed_cons, deliver_racing. cbn [foldl].
  destruct e as [line| | |message|]; cbn [qualifying] in He; try discriminate.
  - destruct (matchEndpoint line); [discriminate|]. apply IH, Hrest.
  - rewrite He. apply IH, Hrest.
Qed.

Lemma firstQualifying_quiet events : forall buffer rest,
  existsb (qualifying timeout) events = false ->
  firstQualifying buffer (events ++ rest)
  = firstQualifying (foldl grow buffer events) rest.
Proof.
  induction events as [|e events IH]; intros buffer rest Hquiet; [reflexivity|].
  cbn [existsb] in Hquiet. apply orb_false_elim in Hquiet as [He Hrest].
  destruct e as [line| | |message|]; cbn [qualifying] in He; try discriminate;
    cbn [app Handshake.firstQualifying foldl grow].
  - destruct (matchEndpoint line); [discriminate|]. apply IH, Hrest.
  - rewrite He. apply IH, Hrest.
Qed.

(** The race computes what the specification's wording prescribes, and
    ends in one of the two shapes. *)
Lemma feed_racing events : forall buffer,
  result (feed events (racing timeout buffer)) = firstQualifying buffer events
  /\ if existsb (qualifying timeout) events
     then exists text outcome,
            feed events (racing timeout buffer) = finished timeout text outcome
            /\ isPending outcome = false
     else feed events (racing timeout buffer)
          = racing timeout (foldl grow buffer events).
Proof.
  induction events as [|e events IH]; intros buffer; [split; reflexivity|].
  rewrite feed_cons, deliver_racing. cbn [existsb Handshake.firstQualifying].
  destruct e as [line| | |message|]; cbn [qualifying foldl grow].
  - destruct (matchEndpoint line) as [endpoint|].
    + rewrite feed_finished. split; [reflexivity|]. cbn [orb]. eauto.
    + apply IH.
  - rewrite feed_finished. split; [reflexivity|]. cbn [orb]. eauto.
  - rewrite feed_finished. split; [reflexivity|]. cbn [orb]. eauto.
  - rewrite feed_finished. split; [reflexivity|]. cbn [orb]. eauto.
  - destruct (truthy (VNum timeout)).
    + rewrite feed_finished. split; [reflexivity|]. cbn [orb]. eauto.
    + apply IH.
Qed.

End Race.

(** C1.  Whatever events reach the race started by [waitForWSEndpoint],
    and in whatever order, the promise is settled by the first qualifying
    event as the specification prescribes; [resolve] or [reject] is called
    once if some event qualifies and never otherwise; and once the promise
    has settled the timer is no longer pending, all four listeners are
    detached, and no further event changes anything: there is no second
    resolution or rejection. *)
Theorem waitForWSEndpoint_settles_once (ChromiumRevision : string)
    (timeout : Z) (events : list event) :
  let s := Handshake.feed ChromiumRevision timeout events (start timeout) in
  result s = Handshake.firstQualifying ChromiumRevision timeout "" events
  /\ calls s = (if existsb (qualifying timeout) events then 1 else 0)
  /\ isPending (result s) = negb (existsb (qualifying timeout) events)
  /\ (isPending (result s) = false ->
      timerPending s = false
      /\ attached s = []
      /\ forall later,
           Handshake.feed ChromiumRevision timeout later s = s).
Proof.
  cbv zeta. rewrite start_racing.
  destruct (feed_racing ChromiumRevision timeout events "") as [Hresult Hshape].
  split; [exact Hresult|].
  destruct (existsb (qualifying timeout) events).
  - destruct Hshape as (text & outcome & -> & Hsettled).
    cbn [calls result finished negb].
    split; [reflexivity|]. split; [exact Hsettled|].
    intros _. split; [reflexivity|]. split; [reflexivity|].
    intros later. apply feed_finished.
  - rewrite Hshape. cbn [calls result racing negb isPending].
    split; [reflexivity|]. split; [reflexivity|]. discriminate.
Qed.

(** The line Chrome prints when its DevTools server is up. *)
Example endpoint_discovered :
  result (Handshake.feed "526987" 30000
            [StderrLine "DevTools listening on ws://127.0.0.1:9222/devtools/browser/abc"]
            (start 30000))
  = Resolved "ws://127.0.0.1:9222/devtools/browser/abc".
Proof. reflexivity. Qed.

(** The three orderings the specification singles out: a matching line
    then an exit, an exit then a late matching line, and the deadline
    together with a matching line, either of them first. *)
Example race_line_then_exit :
  let s := Handshake.feed "526987" 100
             [StderrLine "DevTools listening on ws://127.0.0.1:9222/devtools/browser/abc";
              ChildExit] (start 100) in
  result s = Resolved "ws://127.0.0.1:9222/devtools/browser/abc"
  /\ calls s = 1 /\ attached s = [] /\ timerPending s = false.
Proof. vm_compute. repeat split. Qed.

Example race_exit_then_line :
  let s := Handshake.feed "526987" 100
             [ChildExit; StderrLine "DevTools listening on ws://late"]
             (start 100) in
  result s = Rejected (newError (launchFailure None ""))
  /\ calls s = 1 /\ attached s = [] /\ timerPending s = false.
Proof. vm_compute. repeat split. Qed.

Example race_deadline_and_line :
  let line := StderrLine "DevTools listening on ws://host/x" in
  let first := Handshake.feed "526987" 100 [Deadline; line] (start 100) in
  let second := Handshake.feed "526987" 100 [line; Deadline] (start 100) in
  result first = Rejected (newError (timedOut "526987" 100))
  /\ calls first = 1
  /\ result second = Resolved "ws://host/x" /\ calls second = 1.
Proof. vm_compute. repeat split. Qed.

(** Below 2^53 the text of a number is its decimal notation. *)
Lemma showNumber_safe z :
  (- 2 ^ 53 < z < 2 ^ 53)%Z ->
  showNumber z = NilZero.string_of_int (Z.to_int z).
Proof.
  intros Hsafe. unfold showNumber, isSafeInteger.
  assert ((Z.abs z <? 2 ^ 53)%Z = true) as -> by (apply Z.ltb_lt; lia).
  reflexivity.
Qed.

(** C7, as the code has it.  The deadline timer is armed exactly when the
    timeout is not zero (a negative one arms it too).  When it is armed and
    runs out before anything else qualifies, the promise is rejected with
    an error made by [new Error], a plain [Error], whose message names the
    timeout and the Chromium revision; a timeout below 2^53 in magnitude is
    written in decimal there. *)
Theorem deadline_rejects_naming_timeout (ChromiumRevision : string)
    (timeout : Z) (before later : list event) :
  (timerPending (start timeout) = true <-> timeout <> 0%Z)
  /\ (timeout <> 0%Z ->
      isNumber timeout = true ->
      existsb (qualifying timeout) before = false ->
      result (Handshake.feed ChromiumRevision timeout
                (before ++ Deadline :: later) (start timeout))
      = Rejected
          (mkError "Error"
             ("Timed out after " +:+ showNumber timeout +:+
              " ms while trying to connect to Chrome! The only Chrome revision guaranteed to work is r"
              +:+ ChromiumRevision)))
  /\ ((- 2 ^ 53 < timeout < 2 ^ 53)%Z ->
      showNumber timeout = NilZero.string_of_int (Z.to_int timeout)).
Proof.
  assert (Harmed : truthy (VNum timeout) = true <-> timeout <> 0%Z).
  { cbn [truthy]. rewrite negb_true_iff, Z.eqb_neq. reflexivity. }
  split; [exact Harmed|]. split; [|apply showNumber_safe].
  intros Hnonzero _ Hquiet. apply Harmed in Hnonzero.
  rewrite start_racing, feed_app, feed_quiet, feed_cons by exact Hquiet.
  rewrite onTimeout_racing, feed_finished by exact Hnonzero. reflexivity.
Qed.

(** A timeout of 100, one stray line, then the deadline. *)
Lemma deadline_after_100 :
  result (Handshake.feed "526987" 100
            ([StderrLine "starting up"] ++ Deadline :: []) (start 100))
  = Rejected
      (mkError "Error"
         "Timed out after 100 ms while trying to connect to Chrome! The only Chrome revision guaranteed to work is r526987").
Proof.
  apply (proj1 (proj2 (deadline_rejects_naming_timeout
                         "526987" 100 [StderrLine "starting up"] []))).
  - lia.
  - reflexivity.
  - reflexivity.
Defined.

(** C7 as the specification words it fails, twice over: a timeout of -1
    is not greater than zero, and yet the timer is armed; and what the
    deadline rejects with is not a [TimeoutError] but a plain [Error]. *)
Lemma deadline_armed_below_zero :
  (timerPending (start (-1)) = true /\ ~ (-1 > 0)%Z)
  /\ exists reason,
       result (Handshake.feed "526987" 100 [Deadline] (start 100))
       = Rejected reason
       /\ errorName reason = "Error"
       /\ errorName reason <> "TimeoutError".
Proof.
  split; [split; [reflexivity | lia]|].
  eexists. split; [reflexivity|]. split; [reflexivity|discriminate].
Qed.

(** The text [onLine] has accumulated from lines alone: each line and a
    line feed. *)
Lemma linesRead_lines lines :
  linesRead (StderrLine <$> lines)
  = String.concat "" ((fun line => line +:+ nl) <$> lines).
Proof.
  unfold linesRead.
  assert (forall buffer,
            foldl grow buffer (StderrLine <$> lines)
            = buffer +:+ String.concat "" ((fun line => line +:+ nl) <$> lines))
    as Hfold.
  { induction lines as [|line lines IH]; intros buffer;
      cbn [fmap list_fmap foldl grow].
    - cbn [String.concat]. symmetry. apply StringFacts.append_empty.
    - rewrite IH.
      assert (String.concat "" ((line +:+ nl) :: ((fun l => l +:+ nl) <$> lines))
              = (line +:+ nl) +:+ String.concat "" ((fun l => l +:+ nl) <$> lines))
        as ->.
      { destruct lines as [|l lines']; cbn [fmap list_fmap String.concat].
        - rewrite StringFacts.append_empty. reflexivity.
        - reflexivity. }
      rewrite !StringFacts.append_assoc. reflexivity. }
  apply (Hfold "").
Qed.

(** C8, as the code has it.  When the stderr stream closes, or the child
    exits or errors, before any line has matched and before an armed
    deadline has run out, the promise is rejected with an error made by
    [new Error], a plain [Error]: its message holds the underlying error
    message when there is one, all the lines read so far, and the
    troubleshooting line of the source. *)
Theorem close_rejects_with_diagnostics (ChromiumRevision : string)
    (timeout : Z) (before later : list event) :
  existsb (qualifying timeout) before = false ->
  let report (error : string) : promise string :=
    Rejected
      (mkError "Error"
         (("Failed to launch chrome!" +:+ error) +:+ nl +:+
          linesRead before +:+ nl +:+ "" +:+ nl +:+
          "TROUBLESHOOTING: https://github.com/GoogleChrome/puppeteer/blob/master/docs/troubleshooting.md"
          +:+ nl +:+ "")) in
  result (Handshake.feed ChromiumRevision timeout
            (before ++ StderrClose :: later) (start timeout)) = report ""
  /\ result (Handshake.feed ChromiumRevision timeout
               (before ++ ChildExit :: later) (start timeout)) = report ""
  /\ (forall message,
        result (Handshake.feed ChromiumRevision timeout
                  (before ++ ChildError message :: later) (start timeout))
        = report (" " +:+ message))
  /\ (forall lines,
        before = StderrLine <$> lines ->
        linesRead before
        = String.concat ""
            ((fun line => line +:+ String (ascii_of_nat 10) "") <$> lines)).
Proof.
  intros Hquiet report.
  assert (Hstep : forall e,
    Handshake.feed ChromiumRevision timeout (before ++ e :: later)
      (start timeout)
    = Handshake.feed ChromiumRevision timeout later
        (Handshake.deliver ChromiumRevision timeout
           (racing timeout (linesRead before)) e)).
  { intros e.
    rewrite start_racing, feed_app, feed_quiet, feed_cons by exact Hquiet.
    reflexivity. }
  split; [|split; [|split; [intros message|]]];
    try (rewrite Hstep, deliver_racing, feed_finished; reflexivity).
  intros lines ->. apply linesRead_lines.
Qed.

(** Two lines of chatter, then the spawn error. *)
Lemma close_after_chatter :
  result (Handshake.feed "526987" 30000
            ([StderrLine "[0101/000000:ERROR] no sandbox"; StderrLine "bye"]
               ++ ChildError "spawn ENOENT" :: [])
            (start 30000))
  = Rejected
      (mkError "Error"
         (("Failed to launch chrome!" +:+ " spawn ENOENT") +:+ nl +:+
          ("[0101/000000:ERROR] no sandbox" +:+ nl +:+ "bye" +:+ nl) +:+ nl +:+
          "" +:+ nl +:+
          "TROUBLESHOOTING: https://github.com/GoogleChrome/puppeteer/blob/master/docs/troubleshooting.md"
          +:+ nl +:+ "")).
Proof.
  apply (proj1 (proj2 (proj2 (close_rejects_with_diagnostics
                         "526987" 30000
                         [StderrLine "[0101/000000:ERROR] no sandbox";
                          StderrLine "bye"] [] eq_refl)))).
Defined.

(** C8 as the specification words it fails: what the promise is rejected
    with when the child exits is not a [LaunchError] but a plain
    [Error]. *)
Lemma close_rejects_with_plain_error :
  exists reason,
    result (Handshake.feed "526987" 30000
              [StderrLine "[0101/000000:ERROR] no sandbox"; ChildExit]
              (start 30000))
    = Rejected reason
    /\ errorName reason = "Error"
    /\ errorName reason <> "LaunchError".
Proof.
  eexists. split; [reflexivity|]. split; [reflexivity|discriminate].
Qed.

End HandshakeFacts.


(** ** The argument list and the profile directory *)

Module ComposerFacts.
Import JS FS Composer.

(** [mkdtemp] returns a name that was free, made of the prefix and a drawn
    ending, and creates exactly that directory. *)
Lemma mkdtempFrom_fresh prefix candidates existing path w' :
  mkdtempFrom prefix candidates existing = Ok (path, w') ->
  (path ∉ existing)
  /\ dirs w' = {[path]} ∪ existing
  /\ exists ending, ending ∈ candidates /\ path = prefix +:+ ending.
Proof.
  induction candidates as [|ending rest IH]; cbn [mkdtempFrom]; [discriminate|].
  destruct (decide (prefix +:+ ending ∈ existing)) as [Htaken|Hfree].
  - intros Hrest. destruct (IH Hrest) as (Hnew & Hdirs & ending' & Hin & ->).
    repeat split; try assumption. exists ending'. split; [|reflexivity].
    apply list_elem_of_further, Hin.
  - intros [= <- <-]. repeat split; try assumption.
    exists ending. split; [apply list_elem_of_here|reflexivity].
Qed.

(** [lacksUserDataDirArg] says what it is meant to say. *)
Lemma lacksUserDataDirArg_spec o :
  lacksUserDataDirArg o = true
  <-> forall list arg, args o = Some list -> arg ∈ list ->
        startsWith "--user-data-dir" arg = false.
Proof.
  unfold lacksUserDataDirArg. destruct (args o) as [list|].
  - rewrite negb_true_iff. split.
    + intros Hnone list' arg [= <-] Hin.
      destruct (startsWith "--user-data-dir" arg) eqn:Hstarts; [|reflexivity].
      assert (existsb (startsWith "--user-data-dir") list = true) as Hsome.
      { apply existsb_exists. exists arg. split; [|exact Hstarts].
        apply list_elem_of_In, Hin. }
      congruence.
    + intros Hall.
      destruct (existsb (startsWith "--user-data-dir") list) eqn:Hsome;
        [|reflexivity].
      apply existsb_exists in Hsome as (arg & Hin & Hstarts).
      rewrite (Hall list arg eq_refl) in Hstarts; [discriminate|].
      apply list_elem_of_In, Hin.
  - split; [intros _ list arg; discriminate | reflexivity].
Qed.

Lemma truthyString_spec dir :
  truthyString dir = false <-> dir = None \/ dir = Some "".
Proof.
  destruct dir as [[|c text]|]; cbn; split; intros H; try discriminate;
    try reflexivity; auto; destruct H; discriminate.
Qed.

(** The list is assembled from five pieces, of which only the second
    depends on anything but the options. *)
Lemma composeArguments_shape pathJoin tmpdir o w c :
  composeArguments pathJoin tmpdir o w = Ok c ->
  exists pushed,
    profile pathJoin tmpdir o w = Ok (pushed, temporaryUserDataDir c, after c)
    /\ chromeArguments c
       = (((DEFAULT_ARGS ++ (if truthy (appMode o) then [] else AUTOMATION_ARGS))
            ++ pushed)
            ++ (if isTrue (devtools o)
                then ["--auto-open-devtools-for-tabs"] else []))
            ++ (if negb (isBoolean (effectiveHeadless o))
                   || truthy (effectiveHeadless o)
                then ["--headless"; "--disable-gpu"; "--hide-scrollbars";
                      "--mute-audio"]
                else [])
            ++ default [] (args o).
Proof.
  unfold composeArguments.
  destruct (profile pathJoin tmpdir o w) as [[[pushed temporary] w']|message];
    [|discriminate].
  intros [= <-]. exists pushed. split; [reflexivity|]. cbn [chromeArguments].
  destruct (truthy (appMode o)), (isTrue (devtools o)),
    (negb (isBoolean (effectiveHeadless o)) || truthy (effectiveHeadless o)),
    (args o); cbn [default]; rewrite ?app_nil_r, <- ?app_assoc; reflexivity.
Qed.

(** What [profile] does in each of its three cases. *)
Lemma profile_cases pathJoin tmpdir o w pushed temporary w' :
  profile pathJoin tmpdir o w = Ok (pushed, temporary, w') ->
  if lacksUserDataDirArg o then
    if truthyString (userDataDir o) then
      exists dir, userDataDir o = Some dir
        /\ pushed = ["--user-data-dir=" +:+ dir]
        /\ temporary = None /\ w' = w
    else
      exists path, mkdtemp (CHROME_PROFILE_PATH pathJoin tmpdir) w = Ok (path, w')
        /\ pushed = ["--user-data-dir=" +:+ path]
        /\ temporary = Some path
  else pushed = [] /\ temporary = None /\ w' = w.
Proof.
  unfold profile. destruct (lacksUserDataDirArg o).
  - destruct (truthyString (userDataDir o)) eqn:Hdir; cbn [negb].
    + intros [= <- <- <-]. destruct (userDataDir o) as [dir|]; [|discriminate].
      exists dir. repeat split.
    + destruct (mkdtemp (CHROME_PROFILE_PATH pathJoin tmpdir) w) as [[path w'']|message];
        [|discriminate].
      intros [= <- <- <-]. exists path. repeat split.
  - intros [= <- <- <-]. repeat split.
Qed.

(** [profile] fails only when it has to allocate. *)
Lemma profile_fails_allocating pathJoin tmpdir o w message :
  profile pathJoin tmpdir o w = Err message ->
  lacksUserDataDirArg o = true /\ truthyString (userDataDir o) = false.
Proof.
  unfold profile. destruct (lacksUserDataDirArg o); [|discriminate].
  destruct (truthyString (userDataDir o)); [discriminate|]. split; reflexivity.
Qed.

(** C4, as the code has it.  With app mode off the composed list carries
    the three automation flags, right after the default ones, whatever
    [devtools] is. *)
Theorem automation_flags_without_app_mode (pathJoin : string -> string -> string)
    (tmpdir : string)
    (o : LaunchOptions) (w : world) (c : composed) :
  truthy (appMode o) = false ->
  composeArguments pathJoin tmpdir o w = Ok c ->
  AUTOMATION_ARGS
    = ["--enable-automation"; "--password-store=basic"; "--use-mock-keychain"]
  /\ (forall flag, flag ∈ AUTOMATION_ARGS -> flag ∈ chromeArguments c)
  /\ exists rest, chromeArguments c = DEFAULT_ARGS ++ AUTOMATION_ARGS ++ rest.
Proof.
  intros Happ Hcomposed.
  destruct (composeArguments_shape _ _ _ _ _ Hcomposed) as (pushed & _ & Hshape).
  rewrite Happ in Hshape. split; [reflexivity|].
  assert (exists rest, chromeArguments c = DEFAULT_ARGS ++ AUTOMATION_ARGS ++ rest)
    as [rest Hrest].
  { eexists. rewrite Hshape, <- !app_assoc. reflexivity. }
  split; [|exists rest; exact Hrest].
  intros flag Hflag. rewrite Hrest.
  apply elem_of_app. right. apply elem_of_app. left. exact Hflag.
Qed.

Lemma automation_flags_with_devtools :
  exists c,
    composeArguments Path.posixJoin "/tmp" devtoolsOnly (emptyWorld ["Ab3dE9"]) = Ok c
    /\ truthy (appMode devtoolsOnly) = false
    /\ "--enable-automation" ∈ chromeArguments c.
Proof.
  destruct (composeArguments Path.posixJoin "/tmp" devtoolsOnly (emptyWorld ["Ab3dE9"]))
    as [c|message] eqn:Hcomposed; [|vm_compute in Hcomposed; discriminate].
  exists c. split; [reflexivity|]. split; [reflexivity|].
  apply (proj1 (proj2 (automation_flags_without_app_mode
                         Path.posixJoin "/tmp" devtoolsOnly (emptyWorld ["Ab3dE9"]) c
                         eq_refl Hcomposed))).
  apply list_elem_of_here.
Defined.

(** C4 as the specification words it fails: with [devtools] set to
    [true] and app mode off the flags are appended all the same. *)
Lemma devtools_keeps_automation_flags :
  exists c,
    composeArguments Path.posixJoin "/tmp" devtoolsOnly (emptyWorld ["Ab3dE9"]) = Ok c
    /\ truthy (appMode devtoolsOnly) = false
    /\ devtools devtoolsOnly = VBool true
    /\ "--enable-automation" ∈ chromeArguments c
    /\ "--password-store=basic" ∈ chromeArguments c
    /\ "--use-mock-keychain" ∈ chromeArguments c.
Proof.
  eexists. split; [vm_compute; reflexivity|].
  cbn [chromeArguments]. repeat split; apply list_elem_of_In; cbn; tauto.
Qed.







Lemma composeArguments_fails_allocating pathJoin tmpdir o w message :
  composeArguments pathJoin tmpdir o w = Err message ->
  lacksUserDataDirArg o = true /\ truthyString (userDataDir o) = false.
Proof.
  unfold composeArguments.
  destruct (profile pathJoin tmpdir o w) as [[[pushed temporary] w']|message'] eqn:Hp;
    [discriminate|].
  intros _. exact (profile_fails_allocating _ _ _ _ _ Hp).
Qed.

Lemma pushed_in_arguments pathJoin tmpdir o w c argument :
  composeArguments pathJoin tmpdir o w = Ok c ->
  profile pathJoin tmpdir o w
  = Ok ([argument], temporaryUserDataDir c, after c) ->
  argument ∈ chromeArguments c.
Proof.
  intros Hcomposed Hprofile.
  destruct (composeArguments_shape _ _ _ _ _ Hcomposed) as (pushed & Hp & ->).
  rewrite Hprofile in Hp. injection Hp as <-.
  rewrite !elem_of_app. left. left. right. apply list_elem_of_here.
Qed.

(** C9, as the code has it.  [launch] allocates a temporary profile
    directory exactly when no element of [options.args] starts with
    [--user-data-dir] and [options.userDataDir] is falsy: absent, or the
    empty string.  The directory allocated is new, its name is the joined
    path of the temporary directory and [puppeteer_dev_profile-] followed
    by an ending, and a [--user-data-dir] argument pointing at it is
    appended.  When [userDataDir] is a string that is not empty and no
    such argument is supplied, the argument appended points at
    [userDataDir] and nothing is allocated.  The only way for the
    composing part to fail is a failed allocation. *)
Theorem temporary_profile_iff_unspecified
    (pathJoin : string -> string -> string) (tmpdir : string)
    (o : LaunchOptions) (w : world) :
  let noSuchArg : Prop :=
    forall list arg, args o = Some list -> arg ∈ list ->
      startsWith "--user-data-dir" arg = false in
  let falsy : Prop := userDataDir o = None \/ userDataDir o = Some "" in
  match composeArguments pathJoin tmpdir o w with
  | Ok c =>
      (is_Some (temporaryUserDataDir c) <-> noSuchArg /\ falsy)
      /\ (forall path, temporaryUserDataDir c = Some path ->
            (path ∉ dirs w)
            /\ dirs (after c) = {[path]} ∪ dirs w
            /\ (exists ending,
                  path = pathJoin tmpdir "puppeteer_dev_profile-" +:+ ending)
            /\ ("--user-data-dir=" +:+ path) ∈ chromeArguments c)
      /\ (forall dir, userDataDir o = Some dir -> dir <> "" -> noSuchArg ->
            temporaryUserDataDir c = None
            /\ after c = w
            /\ ("--user-data-dir=" +:+ dir) ∈ chromeArguments c)
      /\ (temporaryUserDataDir c = None -> after c = w)
  | Err _ => noSuchArg /\ falsy
  end.
Proof.
  intros noSuchArg falsy.
  assert (HnoArg : lacksUserDataDirArg o = true <-> noSuchArg)
    by apply lacksUserDataDirArg_spec.
  assert (HnoDir : truthyString (userDataDir o) = false <-> falsy)
    by apply truthyString_spec.
  destruct (composeArguments pathJoin tmpdir o w) as [c|message] eqn:Hcomposed.
  2:{ destruct (composeArguments_fails_allocating _ _ _ _ _ Hcomposed).
      split; [apply HnoArg|apply HnoDir]; assumption. }
  destruct (composeArguments_shape _ _ _ _ _ Hcomposed) as (pushed & Hp & _).
  pose proof (profile_cases _ _ _ _ _ _ _ Hp) as Hcases.
  destruct (lacksUserDataDirArg o) eqn:Hlacks.
  - destruct (truthyString (userDataDir o)) eqn:Hdir.
    + destruct Hcases as (dir & Hsome & -> & Htemp & Hworld).
      rewrite Htemp. split; [|split; [discriminate|split; [|intros _; exact Hworld]]].
      * split; [intros [? [=]]|].
        intros [_ Hnot]. apply HnoDir in Hnot. discriminate.
      * intros dir' Hdir' _ _. rewrite Hsome in Hdir'. injection Hdir' as <-.
        split; [reflexivity|]. split; [exact Hworld|].
        apply (pushed_in_arguments _ _ _ _ _ _ Hcomposed Hp).
    + destruct Hcases as (path & Hmk & -> & Htemp).
      rewrite Htemp. split; [|split; [|split; [|discriminate]]].
      * split; [|intros _; eexists; reflexivity].
        intros _. split; [apply HnoArg|apply HnoDir]; reflexivity.
      * intros path' [= <-].
        destruct (mkdtempFrom_fresh _ _ _ _ _ Hmk)
          as (Hnew & Hdirs & ending & _ & Hname).
        split; [exact Hnew|]. split; [exact Hdirs|].
        split; [exists ending; exact Hname|].
        apply (pushed_in_arguments _ _ _ _ _ _ Hcomposed Hp).
      * intros dir Hsome Hnonempty _.
        assert (falsy) as [Hnone|Hempty] by (apply HnoDir; reflexivity).
        -- rewrite Hnone in Hsome. discriminate.
        -- rewrite Hempty in Hsome. injection Hsome as <-. contradiction.
  - destruct Hcases as (-> & Htemp & Hworld).
    rewrite Htemp. split; [|split; [discriminate|split; [|intros _; exact Hworld]]].
    + split; [intros [? [=]]|].
      intros [Hno _]. apply HnoArg in Hno. discriminate.
    + intros dir _ _ Hno. apply HnoArg in Hno. discriminate.
Qed.

(** C9 as the specification words it fails: with [userDataDir] supplied
    as the empty string and no [--user-data-dir] argument, a temporary
    directory is allocated all the same, and the argument appended points
    at it, not at [userDataDir]. *)
Lemma empty_userDataDir_allocates :
  exists c,
    composeArguments Path.posixJoin "/tmp" emptyUserDataDir
      (emptyWorld ["Ab3dE9"]) = Ok c
    /\ userDataDir emptyUserDataDir = Some ""
    /\ args emptyUserDataDir = None
    /\ temporaryUserDataDir c = Some "/tmp/puppeteer_dev_profile-Ab3dE9"
    /\ dirs (after c) = {["/tmp/puppeteer_dev_profile-Ab3dE9"]}
    /\ "--user-data-dir=/tmp/puppeteer_dev_profile-Ab3dE9" ∈ chromeArguments c
    /\ "--user-data-dir=" ∉ chromeArguments c.
Proof.
  eexists. split; [vm_compute; reflexivity|].
  cbn [temporaryUserDataDir after chromeArguments dirs].
  split; [reflexivity|]. split; [reflexivity|]. split; [reflexivity|].
  split; [reflexivity|]. split.
  - apply list_elem_of_In. cbn. tauto.
  - apply (proj1 (bool_decide_eq_false _)). vm_compute. reflexivity.
Qed.

(** The empty options in a world where the first drawn name is taken. *)
Example temporary_profile_for_no_options :
  let w := mkWorld {["/tmp/puppeteer_dev_profile-Ab3dE9"]} ["Ab3dE9"; "Zq81xY"] in
  exists c,
    composeArguments Path.posixJoin "/tmp" noOptions w = Ok c
    /\ temporaryUserDataDir c = Some "/tmp/puppeteer_dev_profile-Zq81xY"
    /\ last (chromeArguments c) = Some "--mute-audio"
    /\ "--user-data-dir=/tmp/puppeteer_dev_profile-Zq81xY" ∈ chromeArguments c.
Proof.
  eexists. split; [vm_compute; reflexivity|]. split; [reflexivity|].
  split; [reflexivity|]. apply list_elem_of_In. cbn. tauto.
Qed.

End ComposerFacts.


(** ** The supervised child *)

Module SupervisorFacts.
Import JS Helper FS Supervisor.

(** *** What each operation does to each part of the state *)

Lemma rimraf_cases path permitted paths :
  (path ∈ paths /\ permitted = true
   /\ rimraf path permitted paths = (Removed, paths ∖ {[path]}))
  \/ (path ∈ paths /\ permitted = false
      /\ rimraf path permitted paths = (Failed, paths))
  \/ ((path ∉ paths) /\ rimraf path permitted paths = (Absent, paths)).
Proof.
  unfold rimraf. destruct (decide (path ∈ paths)); [|auto].
  destruct permitted; auto.
Qed.

Lemma owned_is_temporary s path :
  ownedDirectory s = Some path -> temporaryUserDataDir (chrome s) = Some path.
Proof.
  unfold ownedDirectory. destruct (temporaryUserDataDir (chrome s)) as [p|];
    [|discriminate].
  destruct (truthy (VStr p)); [|discriminate]. intros [= ->]. reflexivity.
Qed.

(** The kill is attempted on a live child and on no other, and a live
    child has a pid. *)
Lemma osKill_live os s :
  live s = true ->
  fst (osKill os s) = killError os
  /\ log (snd (osKill os s)) = log s ++ kills s.
Proof.
  unfold kills, osKill, live. intros Hlive. rewrite Hlive.
  destruct (pid (chrome s)) as [n|]; [|discriminate].
  split; reflexivity.
Qed.

(** [removeProfile] touches the log and the file system, nothing else. *)
Lemma removeProfile_effect os s :
  let s' := removeProfile os s in
  chrome s' = chrome s
  /\ chromeClosed s' = chromeClosed s
  /\ closeArmed s' = closeArmed s
  /\ removing s' = removing s
  /\ connection s' = connection s
  /\ waitForChromeToClose s' = waitForChromeToClose s
  /\ processListening s' = processListening s
  /\ halted s' = halted s
  /\ subscribed s' = subscribed s
  /\ log s'
     = log s ++ [RimrafSync (temporaryUserDataDir (chrome s))
                            (syncOutcome (removable os) s)]
  /\ existing s'
     = match ownedDirectory s with
       | Some path => snd (rimraf path (removable os) (existing s))
       | None => existing s
       end.
Proof.
  unfold removeProfile, syncOutcome. cbv zeta.
  destruct (ownedDirectory s) as [path|] eqn:Hdir.
  - apply owned_is_temporary in Hdir. rewrite Hdir.
    destruct (rimraf path (removable os) (existing s)) as [outcome paths].
    repeat split.
  - repeat split.
Qed.

(** [forceKillChrome] throws what the kill throws, when the kill is
    attempted. *)
Lemma forceKillChrome_thrown os s :
  fst (forceKillChrome os s) = refused os s.
Proof.
  unfold forceKillChrome, refused. cbv zeta.
  set (s1 := withSubscribed _ s).
  change (live s1) with (live s).
  destruct (live s) eqn:Hlive.
  - destruct (osKill_live os s1 Hlive) as [Hthrown _].
    destruct (osKill os s1) as [thrown s2]. cbn [fst] in Hthrown.
    rewrite Hthrown. destruct (killError os); reflexivity.
  - reflexivity.
Qed.

(** [forceKillChrome] touches the subscriptions, the log and the file
    system, nothing else; and when the kill throws, the removal is not
    reached. *)
Lemma forceKillChrome_effect os s :
  let s' := snd (forceKillChrome os s) in
  chrome s' = chrome s
  /\ chromeClosed s' = chromeClosed s
  /\ closeArmed s' = closeArmed s
  /\ removing s' = removing s
  /\ connection s' = connection s
  /\ waitForChromeToClose s' = waitForChromeToClose s
  /\ processListening s' = processListening s
  /\ halted s' = halted s
  /\ subscribed s'
     = removeEventListeners (listeners (chrome s)) (subscribed s)
  /\ log s'
     = log s ++ kills s
         ++ match refused os s with
            | Some _ => []
            | None => [RimrafSync (temporaryUserDataDir (chrome s))
                                  (syncOutcome (removable os) s)]
            end
  /\ existing s'
     = match refused os s, ownedDirectory s with
       | None, Some path => snd (rimraf path (removable os) (existing s))
       | _, _ => existing s
       end.
Proof.
  unfold forceKillChrome, refused. cbv zeta.
  set (s1 := withSubscribed _ s).
  change (live s1) with (live s).
  assert (Hkills : kills s1 = kills s) by reflexivity.
  destruct (live s) eqn:Hlive.
  - destruct (osKill_live os s1 Hlive) as [Hthrown Hlog].
    assert (Hsame : chrome (snd (osKill os s1)) = chrome s
      /\ chromeClosed (snd (osKill os s1)) = chromeClosed s
      /\ closeArmed (snd (osKill os s1)) = closeArmed s
      /\ removing (snd (osKill os s1)) = removing s
      /\ connection (snd (osKill os s1)) = connection s
      /\ waitForChromeToClose (snd (osKill os s1)) = waitForChromeToClose s
      /\ processListening (snd (osKill os s1)) = processListening s
      /\ halted (snd (osKill os s1)) = halted s
      /\ subscribed (snd (osKill os s1))
         = removeEventListeners (listeners (chrome s)) (subscribed s)
      /\ existing (snd (osKill os s1)) = existing s).
    { unfold osKill. destruct (pid (chrome s1)); repeat split. }
    destruct (osKill os s1) as [thrown s2]. cbn [fst snd] in *.
    rewrite Hkills in Hlog.
    destruct Hsame as (Hc & Hcc & Hca & Hr & Hco & Hw & Hp & Hh & Hs & He).
    rewrite Hthrown. destruct (killError os) as [reason|].
    + cbn [snd]. rewrite Hlog, app_nil_r.
      destruct (ownedDirectory s); repeat split; assumption.
    + cbn [snd].
      destruct (removeProfile_effect os s2)
        as (Hc' & Hcc' & Hca' & Hr' & Hco' & Hw' & Hp' & Hh' & Hs' & Hl' & He').
      assert (Howned : ownedDirectory s2 = ownedDirectory s)
        by (unfold ownedDirectory; rewrite Hc; reflexivity).
      assert (Hsync : syncOutcome (removable os) s2
                      = syncOutcome (removable os) s)
        by (unfold syncOutcome; rewrite Howned, He; reflexivity).
      rewrite Hc'. rewrite Hcc', Hca', Hr', Hco', Hw', Hp', Hh', Hs', Hl', He'.
      rewrite Howned, Hsync, Hc, Hlog, He, <- app_assoc.
      repeat split; assumption.
  - cbn [snd].
    destruct (removeProfile_effect os s1)
      as (Hc' & Hcc' & Hca' & Hr' & Hco' & Hw' & Hp' & Hh' & Hs' & Hl' & He').
    rewrite Hc'. rewrite Hcc', Hca', Hr', Hco', Hw', Hp', Hh', Hs', Hl', He'.
    assert (kills s = []) as -> by (unfold kills; rewrite Hlive; reflexivity).
    repeat split.
Qed.

(** *** Relations that every step of the supervised child respects *)

Section Preservation.
Variable R : state -> state -> Prop.
Hypothesis R_refl : forall s, R s s.
Hypothesis R_trans : forall s1 s2 s3, R s1 s2 -> R s2 s3 -> R s1 s3.
Hypothesis R_unsubscribe :
  forall s,
    R s (withSubscribed
           (removeEventListeners (listeners (chrome s)) (subscribed s)) s).
Hypothesis R_force : forall os s, R s (snd (forceKillChrome os s)).
Hypothesis R_send : forall s, R s (record (Send "Browser.close") s).
Hypothesis R_close : forall s, closeArmed s = true -> R s (onClose s).
Hypothesis R_removed :
  forall permitted s, removing s = true -> R s (onRemoved permitted s).
Hypothesis R_deaf : forall s, R s (deaf s).
Hypothesis R_halt : forall s, R s (halt s).
Hypothesis R_exit : forall code s, R s (record (ProcessExit code) s).
Hypothesis R_raised : forall reason s, R s (record (Raised reason) s).

Lemma killChrome_preserves os s : R s (snd (killChrome os s)).
Proof.
  unfold killChrome. cbv zeta.
  set (s1 := withSubscribed _ s).
  assert (R s s1) as Hs1 by apply R_unsubscribe.
  destruct (ownedDirectory s1).
  - eapply R_trans; [exact Hs1|apply R_force].
  - cbn [snd]. destruct (connection s1); [|exact Hs1].
    eapply R_trans; [exact Hs1|apply R_send].
Qed.

Lemma call_preserves h os s : R s (snd (call h os s)).
Proof.
  destruct h; [apply R_force|apply killChrome_preserves].
Qed.

Lemma callAll_preserves handlers os : forall s,
  R s (snd (callAll handlers os s)).
Proof.
  induction handlers as [|h handlers IH]; intros s; [apply R_refl|].
  cbn [callAll]. pose proof (call_preserves h os s) as Hcalled.
  destruct (call h os s) as [[reason|] s1]; cbn [snd] in *; [exact Hcalled|].
  eapply R_trans; [exact Hcalled|apply IH].
Qed.

Lemma emit_preserves ev os s : R s (snd (emit ev os s)).
Proof. apply callAll_preserves. Qed.

Lemma raised_preserves r s : R s (snd r) -> R s (raised r).
Proof.
  destruct r as [[reason|] s1]; cbn [snd raised]; [|exact id].
  intros Hs1. eapply R_trans; [exact Hs1|apply R_raised].
Qed.

Lemma deliver_preserves s e : R s (deliver s e).
Proof.
  unfold deliver. destruct (halted s); [apply R_refl|].
  destruct e as [|permitted|sig os|os|os].
  - destruct (closeArmed s) eqn:Harmed; [apply R_close, Harmed|apply R_refl].
  - destruct (removing s) eqn:Hremoving;
      [apply R_removed, Hremoving|apply R_refl].
  - destruct (processListening s); [|apply R_halt].
    unfold sigHandler. cbv zeta.
    pose proof (emit_preserves (signalName sig) os (deaf s)) as Hemitted.
    destruct (emit (signalName sig) os (deaf s)) as [[reason|] s1];
      cbn [snd] in Hemitted.
    + eapply R_trans; [apply R_deaf|].
      eapply R_trans; [exact Hemitted|apply R_raised].
    + eapply R_trans; [apply R_deaf|].
      eapply R_trans; [exact Hemitted|].
      eapply R_trans; [apply R_exit|apply R_halt].
  - destruct (processListening s); [|apply R_halt].
    unfold exitHandler. cbv zeta.
    eapply R_trans; [apply R_deaf|].
    eapply R_trans; [|apply R_halt].
    apply raised_preserves, emit_preserves.
  - apply raised_preserves, killChrome_preserves.
Qed.

End Preservation.

(** A reflexive and transitive relation that every delivery respects is
    respected by every run of deliveries. *)
Lemma feed_preserves (R : state -> state -> Prop) :
  (forall s, R s s) ->
  (forall s1 s2 s3, R s1 s2 -> R s2 s3 -> R s1 s3) ->
  (forall s e, R s (deliver s e)) ->
  forall events s, R s (feed events s).
Proof.
  intros R_refl R_trans R_deliver.
  induction events as [|e events IH]; intros s; [apply R_refl|].
  unfold feed. cbn [foldl].
  eapply R_trans; [apply R_deliver|apply IH].
Qed.

Lemma feed_split before later s :
  feed (before ++ later) s = feed later (feed before s).
Proof. unfold feed. apply foldl_app. Qed.

(** Nothing is delivered once the Node process is gone. *)
Lemma deliver_halted s e : halted s = true -> deliver s e = s.
Proof. unfold deliver. intros ->. reflexivity. Qed.

Lemma feed_halted events s : halted s = true -> feed events s = s.
Proof.
  induction events as [|e events IH]; intros Hhalted; [reflexivity|].
  unfold feed. cbn [foldl]. rewrite deliver_halted by exact Hhalted.
  apply IH, Hhalted.
Qed.

(** *** Counting deletions *)













(** *** After the deletion *)












(** *** The close listener and the promise it settles *)

Lemma closeProtocol_grow s s' extra :
  closeArmed s' = closeArmed s -> removing s' = removing s ->
  waitForChromeToClose s' = waitForChromeToClose s ->
  log s' = log s ++ extra -> existsb asyncFailure extra = false ->
  closeProtocol s -> closeProtocol s'.
Proof.
  unfold closeProtocol. intros -> -> -> -> Hextra.
  rewrite existsb_app, Hextra, orb_false_r.
  destruct (closeArmed s), (removing s); try exact id.
  intros Hs Hfailed. destruct (Hs Hfailed) as [Hpending Hreported].
  split; [exact Hpending|]. apply in_or_app. left. exact Hreported.
Qed.

Lemma closeProtocol_same s s' :
  closeArmed s' = closeArmed s -> removing s' = removing s ->
  waitForChromeToClose s' = waitForChromeToClose s -> log s' = log s ->
  closeProtocol s -> closeProtocol s'.
Proof.
  intros Harmed Hremoving Hpromise Hlog.
  apply (closeProtocol_grow s s' []); try assumption; try reflexivity.
  rewrite Hlog. symmetry. apply app_nil_r.
Qed.

Lemma asyncFailure_kills s : existsb asyncFailure (kills s) = false.
Proof.
  unfold kills. destruct (live s); [|reflexivity].
  destruct (pid (chrome s)); [|reflexivity].
  destruct (win32 (chrome s)); reflexivity.
Qed.

Lemma closeProtocol_forceKillChrome os s :
  closeProtocol s -> closeProtocol (snd (forceKillChrome os s)).
Proof.
  destruct (forceKillChrome_effect os s)
    as (_ & _ & Harmed & Hremoving & _ & Hpromise & _ & _ & _ & Hlog & _).
  eapply closeProtocol_grow; try eassumption.
  rewrite existsb_app, asyncFailure_kills.
  destruct (refused os s); reflexivity.
Qed.

Lemma closeProtocol_onClose s :
  closeArmed s = true -> closeProtocol s -> closeProtocol (onClose s).
Proof.
  unfold closeProtocol, onClose. cbv zeta. intros ->.
  destruct (removing s) eqn:Hremoving; [contradiction|].
  intros [Hpending Hnone].
  destruct (ownedDirectory (closed s));
    cbn [closeArmed removing waitForChromeToClose log closed withRemoving
         fulfill].
  - split; assumption.
  - rewrite Hremoving. intros Hfailed. congruence.
Qed.

Lemma closeProtocol_onRemoved permitted s :
  removing s = true -> closeProtocol s -> closeProtocol (onRemoved permitted s).
Proof.
  unfold closeProtocol at 1. intros Hremoving. rewrite Hremoving.
  destruct (closeArmed s) eqn:Harmed; [contradiction|].
  intros [Hpending Hnone]. unfold onRemoved.
  destruct (ownedDirectory s) as [owned|].
  2:{ unfold closeProtocol. rewrite Harmed, Hremoving. split; assumption. }
  destruct (rimraf owned permitted (existing s)) as [outcome paths].
  cbv zeta. unfold closeProtocol.
  destruct outcome;
    cbn [closeArmed removing waitForChromeToClose log withExisting record
         withRemoving fulfill];
    rewrite Harmed, ?existsb_app, ?Hnone; cbn [existsb asyncFailure orb].
  - discriminate.
  - discriminate.
  - intros _. split; [exact Hpending|].
    apply in_or_app. right. left. reflexivity.
Qed.

Lemma closeProtocol_deliver s e : closeProtocol s -> closeProtocol (deliver s e).
Proof.
  apply (deliver_preserves (fun s s' => closeProtocol s -> closeProtocol s')).
  - intros ? Hs; exact Hs.
  - intros s1 s2 s3 H12 H23 Hs. apply H23, H12, Hs.
  - intros; eapply closeProtocol_same; [..|eassumption]; reflexivity.
  - intros; apply closeProtocol_forceKillChrome; assumption.
  - intros ?; apply (closeProtocol_grow _ _ [Send "Browser.close"]);
      reflexivity.
  - apply closeProtocol_onClose.
  - intros; apply closeProtocol_onRemoved; assumption.
  - intros; eapply closeProtocol_same; [..|eassumption]; reflexivity.
  - intros; eapply closeProtocol_same; [..|eassumption]; reflexivity.
  - intros code ?; apply (closeProtocol_grow _ _ [ProcessExit code]);
      reflexivity.
  - intros reason ?; apply (closeProtocol_grow _ _ [Raised reason]);
      reflexivity.
Qed.

Lemma closeProtocol_feed events s :
  closeProtocol s -> closeProtocol (feed events s).
Proof.
  apply (feed_preserves (fun s s' => closeProtocol s -> closeProtocol s')).
  - intros ? Hs; exact Hs.
  - intros s1 s2 s3 H12 H23 Hs. apply H23, H12, Hs.
  - apply closeProtocol_deliver.
Qed.

(** *** The log between two points, and the subscriptions *)

Lemma noThrowSince_same s s' : log s' = log s -> noThrowSince s s'.
Proof.
  intros Hlog. exists []. rewrite Hlog, app_nil_r. split; reflexivity.
Qed.

Lemma noThrowSince_record e s :
  isThrow e = false -> noThrowSince s (record e s).
Proof.
  intros He. exists [e]. split; [reflexivity|].
  cbn [forallb]. rewrite He. reflexivity.
Qed.

Lemma noThrowSince_trans s1 s2 s3 :
  noThrowSince s1 s2 -> noThrowSince s2 s3 -> noThrowSince s1 s3.
Proof.
  intros (extra12 & Hlog12 & H12) (extra23 & Hlog23 & H23).
  exists (extra12 ++ extra23).
  rewrite Hlog23, Hlog12, <- app_assoc, forallb_app, H12, H23.
  split; reflexivity.
Qed.

Lemma noThrowSince_deliver s e : noThrowSince s (deliver s e).
Proof.
  apply (deliver_preserves noThrowSince).
  - intros; apply noThrowSince_same; reflexivity.
  - apply noThrowSince_trans.
  - intros; apply noThrowSince_same; reflexivity.
  - intros os s0.
    destruct (forceKillChrome_effect os s0)
      as (_ & _ & _ & _ & _ & _ & _ & _ & _ & Hlog & _).
    eexists. split; [exact Hlog|]. rewrite forallb_app.
    assert (forallb (fun e => negb (isThrow e)) (kills s0) = true) as ->.
    { unfold kills. destruct (live s0); [|reflexivity].
      destruct (pid (chrome s0)); [|reflexivity].
      destruct (win32 (chrome s0)); reflexivity. }
    destruct (refused os s0); reflexivity.
  - intros; apply noThrowSince_record; reflexivity.
  - intros s0 _. apply noThrowSince_same. unfold onClose. cbv zeta.
    destruct (ownedDirectory (closed s0)); reflexivity.
  - intros permitted s0 _. unfold onRemoved.
    destruct (ownedDirectory s0) as [owned|];
      [|apply noThrowSince_same; reflexivity].
    destruct (rimraf owned permitted (existing s0)) as [[] paths]; cbv zeta.
    + exists [RimrafAsync owned Removed]. split; reflexivity.
    + exists [RimrafAsync owned Absent]. split; reflexivity.
    + exists [RimrafAsync owned Failed; ConsoleError]. split; [|reflexivity].
      cbn [log record withExisting withRemoving]. rewrite <- app_assoc.
      reflexivity.
  - intros; apply noThrowSince_same; reflexivity.
  - intros; apply noThrowSince_same; reflexivity.
  - intros; apply noThrowSince_record; reflexivity.
  - intros; apply noThrowSince_record; reflexivity.
Qed.

Lemma noThrowSince_feed events s : noThrowSince s (feed events s).
Proof.
  apply (feed_preserves noThrowSince).
  - intros; apply noThrowSince_same; reflexivity.
  - apply noThrowSince_trans.
  - apply noThrowSince_deliver.
Qed.

Lemma staysWired_same s s' :
  chrome s' = chrome s -> subscribed s' = subscribed s -> staysWired s s'.
Proof.
  intros Hchrome Hsubscribed. split; [exact Hchrome|].
  unfold wired. rewrite Hchrome, Hsubscribed. exact id.
Qed.

Lemma staysWired_trans s1 s2 s3 :
  staysWired s1 s2 -> staysWired s2 s3 -> staysWired s1 s3.
Proof.
  intros [Hc12 H12] [Hc23 H23]. split; [congruence|]. intros Hs. apply H23, H12, Hs.
Qed.

(** Releasing the array from a wired child leaves nothing subscribed. *)
Lemma unsubscribe_wired s :
  wired s ->
  removeEventListeners (listeners (chrome s)) (subscribed s) = [].
Proof.
  intros [->| ->];
    [apply HelperFacts.removeEventListeners_self
    |apply HelperFacts.removeEventListeners_nil].
Qed.

Lemma staysWired_deliver s e : staysWired s (deliver s e).
Proof.
  apply (deliver_preserves staysWired).
  - intros; apply staysWired_same; reflexivity.
  - apply staysWired_trans.
  - intros s0. split; [reflexivity|]. intros Hwired. right.
    cbn [subscribed withSubscribed]. apply unsubscribe_wired, Hwired.
  - intros os s0.
    destruct (forceKillChrome_effect os s0)
      as (Hchrome & _ & _ & _ & _ & _ & _ & _ & Hsubscribed & _).
    split; [exact Hchrome|]. intros Hwired. right.
    rewrite Hsubscribed. apply unsubscribe_wired, Hwired.
  - intros; apply staysWired_same; reflexivity.
  - intros s0 _. apply staysWired_same; unfold onClose; cbv zeta;
      destruct (ownedDirectory (closed s0)); reflexivity.
  - intros permitted s0 _. apply staysWired_same; unfold onRemoved;
      (destruct (ownedDirectory s0) as [owned|]; [|reflexivity]);
      destruct (rimraf owned permitted (existing s0)) as [[] paths];
      reflexivity.
  - intros; apply staysWired_same; reflexivity.
  - intros; apply staysWired_same; reflexivity.
  - intros; apply staysWired_same; reflexivity.
  - intros; apply staysWired_same; reflexivity.
Qed.

End SupervisorFacts.


(** ** Launcher.launch *)

Module LauncherFacts.
Import JS Helper FS Supervisor Launcher SupervisorFacts.

(** *** Relations that [launch] respects *)

Section LaunchPreservation.
Variable R : state -> state -> Prop.
Hypothesis R_refl : forall s, R s s.
Hypothesis R_trans : forall s1 s2 s3, R s1 s2 -> R s2 s3 -> R s1 s3.
Hypothesis R_deliver : forall s e, R s (deliver s e).
Hypothesis R_force : forall os s, R s (snd (forceKillChrome os s)).
Hypothesis R_throw : forall reason s, R s (record (Throw reason) s).
Hypothesis R_connected : forall s, R s (connected s).

Lemma awaitEndpoint_preserves revision ms events :
  forall race s, R s (snd (awaitEndpoint revision ms events race s)).
Proof.
  induction events as [|e events IH]; intros race s; [apply R_refl|].
  cbn [awaitEndpoint].
  destruct (isPending (Handshake.result race) && negb (halted s));
    [|apply R_refl].
  destruct e as [e|e]; [apply IH|].
  eapply R_trans; [apply R_deliver|apply IH].
Qed.

Lemma catch_preserves reason os s : R s (snd (catch reason os s)).
Proof.
  unfold catch. pose proof (R_force os s) as Hforced.
  destruct (forceKillChrome os s) as [[thrown|] s1]; cbn [snd] in *;
    (eapply R_trans; [exact Hforced|apply R_throw]).
Qed.

Lemma supervise_preserves revision o s events connecting connect os :
  R s (snd (supervise revision o s events connecting connect os)).
Proof.
  unfold supervise. cbv zeta.
  pose proof (awaitEndpoint_preserves revision (handshakeTimeout o) events
                (Handshake.start (handshakeTimeout o)) s) as Hawaited.
  destruct (awaitEndpoint revision (handshakeTimeout o) events
              (Handshake.start (handshakeTimeout o)) s) as [race s1].
  cbn [snd] in Hawaited.
  assert (forall reason s2, R s s2 ->
            R s (snd (catch reason os s2))) as Hcatch.
  { intros reason s2 Hs2.
    eapply R_trans; [exact Hs2|apply catch_preserves]. }
  destruct (halted s1); [exact Hawaited|].
  destruct (Handshake.result race) as [|endpoint|reason].
  - exact Hawaited.
  - assert (R s (feed connecting s1)) as Hconnecting.
    { eapply R_trans; [exact Hawaited|].
      apply feed_preserves; assumption. }
    destruct (halted (feed connecting s1)); [exact Hconnecting|].
    destruct connect as [[]|reason].
    + cbn [snd]. eapply R_trans; [exact Hconnecting|apply R_connected].
    + apply Hcatch, Hconnecting.
  - apply Hcatch, Hawaited.
Qed.

(** The state in which a setup failure is caught is reached by
    deliveries alone. *)
Lemma setupFailure_reaches revision o s events connecting connect reason s1 :
  setupFailure revision o s events connecting connect = Some (reason, s1) ->
  R s s1.
Proof.
  unfold setupFailure. cbv zeta.
  pose proof (awaitEndpoint_preserves revision (handshakeTimeout o) events
                (Handshake.start (handshakeTimeout o)) s) as Hawaited.
  destruct (awaitEndpoint revision (handshakeTimeout o) events
              (Handshake.start (handshakeTimeout o)) s) as [race s0].
  cbn [snd] in Hawaited.
  destruct (Handshake.result race) as [|endpoint|reason']; [discriminate| |].
  - destruct connect as [[]|reason']; [discriminate|].
    intros [= <- <-]. eapply R_trans; [exact Hawaited|].
    apply feed_preserves; assumption.
  - intros [= <- <-]. exact Hawaited.
Qed.

End LaunchPreservation.

(** A launch that got as far as its [try] has composed its arguments,
    found an executable and spawned it. *)
Lemma launch_spawned platformIsWin32 pathJoin tmpdir revision o w h events
    connecting connect os outcome s :
  launch platformIsWin32 pathJoin tmpdir revision o w h events connecting
         connect os = (outcome, Some s) ->
  exists c executable chromePid,
    Composer.composeArguments pathJoin tmpdir o w = Ok c
    /\ chromeExecutable o h = Ok executable
    /\ spawn h executable (Composer.chromeArguments c) = Ok chromePid
    /\ supervise revision o (spawned platformIsWin32 o c chromePid)
                 events connecting connect os = (outcome, s).
Proof.
  unfold launch.
  destruct (Composer.composeArguments pathJoin tmpdir o w) as [c|reason];
    [|discriminate].
  destruct (chromeExecutable o h) as [executable|reason]; [|discriminate].
  destruct (spawn h executable (Composer.chromeArguments c))
    as [chromePid|reason] eqn:Hspawn; [|discriminate].
  destruct (supervise revision o (spawned platformIsWin32 o c chromePid)
              events connecting connect os) as [outcome' s'] eqn:Hsupervised.
  intros [= <- <-]. exists c, executable, chromePid.
  split; [reflexivity|]. split; [reflexivity|]. split; [exact Hspawn|].
  exact Hsupervised.
Qed.

(** A setup failure in a process that is still running takes [launch]
    into its [catch]. *)
Lemma supervise_catches revision o s events connecting connect os reason s1 :
  setupFailure revision o s events connecting connect = Some (reason, s1) ->
  halted s1 = false ->
  supervise revision o s events connecting connect os = catch reason os s1.
Proof.
  unfold setupFailure, supervise. cbv zeta.
  destruct (awaitEndpoint revision (handshakeTimeout o) events
              (Handshake.start (handshakeTimeout o)) s) as [race s0].
  destruct (Handshake.result race) as [|endpoint|reason']; [discriminate| |].
  - destruct connect as [[]|reason']; [discriminate|].
    intros [= <- <-] Hrunning.
    destruct (halted s0) eqn:Hhalted.
    + rewrite feed_halted in Hrunning by exact Hhalted. congruence.
    + rewrite Hrunning. reflexivity.
  - intros [= <- <-] ->. reflexivity.
Qed.

(** The state [launch] enters its [try] with. *)
Lemma spawned_fields platformIsWin32 o c chromePid :
  let s := spawned platformIsWin32 o c chromePid in
  chrome s
  = mkChild chromePid false (Composer.temporaryUserDataDir c)
            (fst (wire o)) platformIsWin32
  /\ subscribed s = fst (wire o)
  /\ log s = []
  /\ existing s = dirs (Composer.after c)
  /\ closeArmed s = true
  /\ removing s = false
  /\ waitForChromeToClose s = Pending
  /\ halted s = false.
Proof.
  cbv zeta. unfold spawned, wire.
  destruct (isNotFalse (Composer.handleSIGINT o)),
    (isNotFalse (Composer.handleSIGTERM o)),
    (isNotFalse (Composer.handleSIGHUP o)); repeat split; reflexivity.
Qed.

Lemma filter_isThrow_none effects :
  forallb (fun e => negb (isThrow e)) effects = true ->
  List.filter isThrow effects = [].
Proof.
  induction effects as [|e effects IH]; [reflexivity|].
  cbn [forallb List.filter]. intros [He Hrest]%andb_true_iff.
  destruct (isThrow e); [discriminate|]. apply IH, Hrest.
Qed.

(** *** The signal wiring *)

(** What [sigHandler] does once [emit] has come back: the exception, if
    there is one, goes on; otherwise the process exits. *)
Lemma sigHandler_one h sig os s :
  listenersOf ExitEmitter (signalName sig) (subscribed s) = [h] ->
  sigHandler sig os s
  = match call h os (deaf s) with
    | (Some reason, s') => record (Raised reason) s'
    | (None, s') => halt (record (ProcessExit (exitCode sig)) s')
    end.
Proof.
  intros Hone. unfold sigHandler, emit. cbv zeta.
  change (subscribed (deaf s)) with (subscribed s). rewrite Hone.
  cbn [callAll]. destruct (call h os (deaf s)) as [[reason|] s']; reflexivity.
Qed.

Lemma sigHandler_none sig os s :
  listenersOf ExitEmitter (signalName sig) (subscribed s) = [] ->
  sigHandler sig os s = halt (record (ProcessExit (exitCode sig)) (deaf s)).
Proof.
  intros Hnone. unfold sigHandler, emit. cbv zeta.
  change (subscribed (deaf s)) with (subscribed s). rewrite Hnone.
  reflexivity.
Qed.

(** C3, as the code has it.  [launch] subscribes [forceKillChrome] to
    [exit] always and to [SIGINT] exactly when [handleSIGINT] is not
    [false]; it subscribes [killChrome] to [SIGTERM] and to [SIGHUP]
    exactly when [handleSIGTERM], respectively [handleSIGHUP], is not
    [false].  Accordingly, a signal reaching the freshly wired child runs
    that operation, or none, before the process exits with the signal's
    code; should the operation throw, its exception goes on instead. *)
Theorem signal_wiring (platformIsWin32 : bool)
    (o : Composer.LaunchOptions) (c : Composer.composed)
    (chromePid : option Z) (os : answers) :
  let attached := snd (wire o) in
  let s := spawned platformIsWin32 o c chromePid in
  let exits (sig : signal) (r : option error * state) : state :=
    match r with
    | (Some reason, s') => record (Raised reason) s'
    | (None, s') => halt (record (ProcessExit (exitCode sig)) s')
    end in
  fst (wire o) = attached
  /\ subscribed s = attached
  /\ listenersOf ExitEmitter "exit" attached = [ForceKillChrome]
  /\ listenersOf ExitEmitter "SIGINT" attached
     = (if isNotFalse (Composer.handleSIGINT o) then [ForceKillChrome] else [])
  /\ listenersOf ExitEmitter "SIGTERM" attached
     = (if isNotFalse (Composer.handleSIGTERM o) then [KillChrome] else [])
  /\ listenersOf ExitEmitter "SIGHUP" attached
     = (if isNotFalse (Composer.handleSIGHUP o) then [KillChrome] else [])
  /\ deliver s (Signal SIGINT os)
     = exits SIGINT (if isNotFalse (Composer.handleSIGINT o)
                     then forceKillChrome os (deaf s) else (None, deaf s))
  /\ deliver s (Signal SIGTERM os)
     = exits SIGTERM (if isNotFalse (Composer.handleSIGTERM o)
                      then killChrome os (deaf s) else (None, deaf s))
  /\ deliver s (Signal SIGHUP os)
     = exits SIGHUP (if isNotFalse (Composer.handleSIGHUP o)
                     then killChrome os (deaf s) else (None, deaf s)).
Proof.
  cbv zeta.
  assert (Hwire : fst (wire o) = snd (wire o)
    /\ listenersOf ExitEmitter "exit" (snd (wire o)) = [ForceKillChrome]
    /\ listenersOf ExitEmitter "SIGINT" (snd (wire o))
       = (if isNotFalse (Composer.handleSIGINT o)
          then [ForceKillChrome] else [])
    /\ listenersOf ExitEmitter "SIGTERM" (snd (wire o))
       = (if isNotFalse (Composer.handleSIGTERM o) then [KillChrome] else [])
    /\ listenersOf ExitEmitter "SIGHUP" (snd (wire o))
       = (if isNotFalse (Composer.handleSIGHUP o) then [KillChrome] else [])).
  { unfold wire.
    destruct (isNotFalse (Composer.handleSIGINT o)),
      (isNotFalse (Composer.handleSIGTERM o)),
      (isNotFalse (Composer.handleSIGHUP o)); repeat split; reflexivity. }
  destruct Hwire as (Hsame & Hexit & Hint & Hterm & Hhup).
  destruct (spawned_fields platformIsWin32 o c chromePid)
    as (_ & Hsubscribed & _ & _ & _ & _ & _ & Hrunning).
  set (s := spawned platformIsWin32 o c chromePid) in *.
  assert (Hlistening : processListening s = true).
  { unfold s, spawned. destruct (wire o). reflexivity. }
  rewrite Hsame in Hsubscribed.
  split; [exact Hsame|]. split; [exact Hsubscribed|].
  split; [exact Hexit|]. split; [exact Hint|]. split; [exact Hterm|].
  split; [exact Hhup|].
  assert (Hsignal : forall sig, deliver s (Signal sig os) = sigHandler sig os s).
  { intros sig. unfold deliver. rewrite Hrunning, Hlistening. reflexivity. }
  rewrite !Hsignal. split; [|split].
  - destruct (isNotFalse (Composer.handleSIGINT o)).
    + apply (sigHandler_one ForceKillChrome SIGINT).
      rewrite Hsubscribed. exact Hint.
    + apply sigHandler_none. rewrite Hsubscribed. exact Hint.
  - destruct (isNotFalse (Composer.handleSIGTERM o)).
    + apply (sigHandler_one KillChrome SIGTERM).
      rewrite Hsubscribed. exact Hterm.
    + apply sigHandler_none. rewrite Hsubscribed. exact Hterm.
  - destruct (isNotFalse (Composer.handleSIGHUP o)).
    + apply (sigHandler_one KillChrome SIGHUP).
      rewrite Hsubscribed. exact Hhup.
    + apply sigHandler_none. rewrite Hsubscribed. exact Hhup.
Qed.

(** C3 as the specification words it fails: with [handleSIGINT] set to
    [false] nothing is subscribed to [SIGINT], and the signal reaches the
    child's supervisor without any kill or removal being attempted. *)
Lemma sigint_ignored_when_disabled :
  let s := spawned false Composer.sigintDisabled
             (Composer.mkComposed [] (Some sampleProfile)
                (mkWorld {[sampleProfile]} []))
             (Some 4242%Z) in
  listenersOf ExitEmitter "SIGINT" (snd (wire Composer.sigintDisabled)) = []
  /\ log (deliver s (Signal SIGINT obliging)) = [ProcessExit 2]
  /\ ~ In ForceKillChrome
         (listenersOf ExitEmitter "SIGINT" (subscribed s)).
Proof.
  cbv zeta. split; [reflexivity|]. split; [reflexivity|].
  intros [].
Qed.

(** *** Failure during setup *)

(** Whether the kill is attempted, in the words of line 162. *)
Lemma live_spelled s :
  live s
  = match pid (chrome s) with
    | Some n => negb (n =? 0)%Z && negb (killed (chrome s))
                && negb (chromeClosed s)
    | None => false
    end.
Proof. reflexivity. Qed.

(** How the synchronous removal ends, in the words of [rimraf]. *)
Lemma syncOutcome_spelled permitted s :
  syncOutcome permitted s
  = match temporaryUserDataDir (chrome s) with
    | Some path =>
        if String.eqb path "" then Failed
        else fst (rimraf path permitted (existing s))
    | None => Failed
    end.
Proof.
  unfold syncOutcome, ownedDirectory.
  destruct (temporaryUserDataDir (chrome s)) as [path|]; [|reflexivity].
  cbn [truthy]. destruct (String.eqb path ""); reflexivity.
Qed.

(** What the [catch] of [launch] does, case by case. *)
Lemma catch_cases reason os s :
  wired s ->
  let caught := catch reason os s in
  subscribed (snd caught) = []
  /\ chrome (snd caught) = chrome s
  /\ match refused os s with
     | Some thrown =>
         fst caught = Rejected thrown
         /\ log (snd caught) = log s ++ kills s ++ [Throw thrown]
         /\ existing (snd caught) = existing s
     | None =>
         fst caught = Rejected reason
         /\ log (snd caught)
            = log s ++ kills s
                ++ [RimrafSync (temporaryUserDataDir (chrome s))
                               (syncOutcome (removable os) s);
                    Throw reason]
         /\ existing (snd caught)
            = match ownedDirectory s with
              | Some path => snd (rimraf path (removable os) (existing s))
              | None => existing s
              end
     end.
Proof.
  intros Hwired. cbv zeta. unfold catch.
  pose proof (forceKillChrome_thrown os s) as Hthrown.
  destruct (forceKillChrome_effect os s)
    as (Hchrome & _ & _ & _ & _ & _ & _ & _ & Hsubscribed & Hlog & Hexisting).
  destruct (forceKillChrome os s) as [thrown s'].
  cbn [fst snd] in *. subst thrown.
  assert (subscribed s' = []) as Hnone
    by (rewrite Hsubscribed; apply unsubscribe_wired, Hwired).
  destruct (refused os s) as [thrown|]; cbn [fst snd subscribed chrome log
                                              existing record].
  - rewrite Hlog, app_nil_r, <- app_assoc. repeat split; assumption.
  - rewrite Hlog, <- !app_assoc. repeat split; assumption.
Qed.

(** The subscriptions of [launch] are those of its array, or none, at
    every point of the life of the child. *)
Lemma wired_spawned platformIsWin32 o c chromePid :
  wired (spawned platformIsWin32 o c chromePid).
Proof.
  destruct (spawned_fields platformIsWin32 o c chromePid)
    as (Hchrome & Hsubscribed & _).
  left. rewrite Hsubscribed, Hchrome. reflexivity.
Qed.

(** X17.  What [launch] does when the handshake or the connection setup
    fails while the Node process is running.  It releases the signal
    subscriptions and throws exactly once.  A child without a pid, or
    one whose close event has been handled, is not killed: the removal of
    the profile directory is attempted and [launch] rejects with the
    failure.  Any other child is sent the platform's kill.  When the kill
    goes through, the removal is attempted and [launch] rejects with the
    failure.  When the kill throws, nothing is removed, the directories
    stay as they were, and [launch] rejects with the error of the kill
    in place of the failure. *)
Theorem setup_failure_runs_forced_kill (platformIsWin32 : bool)
    (pathJoin : string -> string -> string)
    (tmpdir ChromiumRevision : string) (o : Composer.LaunchOptions)
    (w : world) (h : host) (events : list happening)
    (connecting : list event) (connect : result unit) (os : answers)
    (c : Composer.composed) (executable : string) (chromePid : option Z)
    (reason : error) (s1 : state) :
  Composer.composeArguments pathJoin tmpdir o w = Ok c ->
  chromeExecutable o h = Ok executable ->
  spawn h executable (Composer.chromeArguments c) = Ok chromePid ->
  setupFailure ChromiumRevision o (spawned platformIsWin32 o c chromePid)
               events connecting connect = Some (reason, s1) ->
  halted s1 = false ->
  let launched :=
    launch platformIsWin32 pathJoin tmpdir ChromiumRevision o w h events
           connecting connect os in
  let kill (n : Z) : effect :=
    if platformIsWin32 then Taskkill n else KillGroup n in
  let removal : effect :=
    RimrafSync (Composer.temporaryUserDataDir c)
      match Composer.temporaryUserDataDir c with
      | Some path =>
          if String.eqb path "" then Failed
          else fst (rimraf path (removable os) (existing s1))
      | None => Failed
      end in
  exists final,
    snd launched = Some final
    /\ subscribed final = []
    /\ length (List.filter isThrow (log final)) = 1
    /\ (chromePid = None \/ chromePid = Some 0%Z \/ chromeClosed s1 = true ->
        fst launched = Rejected reason
        /\ log final = log s1 ++ [removal; Throw reason])
    /\ (forall n,
          chromePid = Some n -> n <> 0%Z -> chromeClosed s1 = false ->
          match killError os with
          | None =>
              fst launched = Rejected reason
              /\ log final = log s1 ++ [kill n; removal; Throw reason]
          | Some thrown =>
              fst launched = Rejected thrown
              /\ log final = log s1 ++ [kill n; Throw thrown]
              /\ existing final = existing s1
          end).
Proof.
  intros Hcomposed Hexecutable Hspawn Hfailure Hrunning. cbv zeta.
  set (s0 := spawned platformIsWin32 o c chromePid) in *.
  destruct (spawned_fields platformIsWin32 o c chromePid)
    as (Hchrome0 & _ & Hlog0 & _).
  fold s0 in Hchrome0, Hlog0.
  assert (staysWired s0 s1) as [Hchrome Hwired].
  { apply (setupFailure_reaches staysWired) in Hfailure; try assumption.
    - intros; apply staysWired_same; reflexivity.
    - apply staysWired_trans.
    - apply staysWired_deliver. }
  assert (noThrowSince s0 s1) as (extra & Hextra & Hnothrow).
  { apply (setupFailure_reaches noThrowSince) in Hfailure; try assumption.
    - intros; apply noThrowSince_same; reflexivity.
    - apply noThrowSince_trans.
    - apply noThrowSince_deliver. }
  rewrite Hlog0 in Hextra. cbn [app] in Hextra.
  specialize (Hwired (wired_spawned _ _ _ _)).
  assert (Hlaunched :
    launch platformIsWin32 pathJoin tmpdir ChromiumRevision o w h events
           connecting connect os
    = (fst (catch reason os s1), Some (snd (catch reason os s1)))).
  { unfold launch. rewrite Hcomposed, Hexecutable, Hspawn. fold s0.
    rewrite (supervise_catches _ _ _ _ _ _ _ _ _ Hfailure Hrunning).
    destruct (catch reason os s1). reflexivity. }
  rewrite Hlaunched. cbn [fst snd].
  destruct (catch_cases reason os s1 Hwired) as (Hnone & _ & Hcases).
  assert (Htemporary :
    temporaryUserDataDir (chrome s1) = Composer.temporaryUserDataDir c)
    by (rewrite Hchrome, Hchrome0; reflexivity).
  assert (Hlive : live s1
                  = match chromePid with
                    | Some n => negb (n =? 0)%Z && negb (chromeClosed s1)
                    | None => false
                    end).
  { rewrite live_spelled, Hchrome, Hchrome0. cbn [pid killed].
    destruct chromePid; [|reflexivity]. rewrite andb_true_r. reflexivity. }
  assert (Hkills : kills s1
                   = if live s1 then
                       match chromePid with
                       | Some n => [if platformIsWin32 then Taskkill n
                                    else KillGroup n]
                       | None => []
                       end
                     else []).
  { unfold kills. rewrite Hchrome, Hchrome0. reflexivity. }
  rewrite syncOutcome_spelled, Htemporary in Hcases.
  assert (Hno : forall l, forallb (fun e => negb (isThrow e)) l = true ->
                  List.filter isThrow l = [])
    by apply filter_isThrow_none.
  assert (Hkillthrow : List.filter isThrow (kills s1) = []).
  { rewrite Hkills. destruct (live s1); [|reflexivity].
    destruct chromePid; [|reflexivity].
    destruct platformIsWin32; reflexivity. }
  exists (snd (catch reason os s1)).
  split; [reflexivity|]. split; [exact Hnone|]. split; [|split].
  - unfold refused in Hcases.
    destruct (if live s1 then killError os else None) as [thrown|];
      destruct Hcases as (_ & -> & _);
      rewrite Hextra, !List.filter_app, (Hno _ Hnothrow), Hkillthrow;
      reflexivity.
  - intros Hnokill.
    assert (live s1 = false) as Hdead.
    { rewrite Hlive.
      destruct Hnokill as [->|[->|Hclosed]]; [reflexivity|reflexivity|].
      destruct chromePid; [|reflexivity].
      rewrite Hclosed, andb_false_r. reflexivity. }
    unfold refused in Hcases. rewrite Hkills, Hdead in Hcases.
    destruct Hcases as (Hrejected & Hlog & _).
    split; [exact Hrejected|exact Hlog].
  - intros n -> Hnonzero Hopen.
    assert (live s1 = true) as Halive.
    { rewrite Hlive, Hopen. apply Z.eqb_neq in Hnonzero. rewrite Hnonzero.
      reflexivity. }
    unfold refused in Hcases. rewrite Hkills, Halive in Hcases.
    destruct (killError os) as [thrown|].
    + destruct Hcases as (Hrejected & Hlog & Hexisting).
      split; [exact Hrejected|]. split; [exact Hlog|exact Hexisting].
    + destruct Hcases as (Hrejected & Hlog & _).
      split; [exact Hrejected|exact Hlog].
Qed.

(** A child that prints one line and exits: the failure is caught, the
    kill goes through, the directory is removed, and the error rethrown. *)
Lemma launch_failure_on_early_exit :
  exists final,
    snd (launch false Path.posixJoin "/tmp" "526987" Composer.noOptions
           (Composer.emptyWorld ["Ab3dE9"]) (installed 4242)
           [Race (Handshake.StderrLine "oops"); Race Handshake.ChildExit]
           [] (Ok tt) obliging)
    = Some final
    /\ length (List.filter isThrow (log final)) = 1
    /\ subscribed final = [].
Proof.
  pose (events := [Race (Handshake.StderrLine "oops");
                   Race Handshake.ChildExit]).
  pose (composing := Composer.composeArguments Path.posixJoin "/tmp"
                       Composer.noOptions (Composer.emptyWorld ["Ab3dE9"])).
  let r := eval vm_compute in composing in
  lazymatch r with
  | Ok ?c =>
      assert (Hcomposed : composing = Ok c) by (vm_compute; reflexivity);
      let f := eval vm_compute in
        (setupFailure "526987" Composer.noOptions
           (spawned false Composer.noOptions c (Some 4242%Z))
           events [] (Ok tt)) in
      lazymatch f with
      | Some (?m, ?s1) =>
          destruct (setup_failure_runs_forced_kill
                      false Path.posixJoin "/tmp" "526987" Composer.noOptions
                      (Composer.emptyWorld ["Ab3dE9"]) (installed 4242)
                      events [] (Ok tt) obliging c _ (Some 4242%Z) m s1
                      Hcomposed eq_refl eq_refl
                      ltac:(vm_compute; reflexivity) eq_refl)
            as (final & Hlaunch & Hreleased & Hthrow & _)
      end
  end.
  exists final. split; [exact Hlaunch|]. split; assumption.
Defined.

(** C6 fails on the code.  The child prints one line and exits, so that
    by the time the failure is caught its process group is gone and the
    kill throws: [launch] rejects with the error of the kill, the
    synchronous removal is never reached, and the temporary profile
    directory is left behind. *)
Theorem launch_failure_skips_removal_when_kill_throws :
  exists final,
    launch false Path.posixJoin "/tmp" "526987" Composer.noOptions
           (Composer.emptyWorld ["Ab3dE9"]) (installed 4242)
           [Race (Handshake.StderrLine "oops"); Race Handshake.ChildExit]
           [] (Ok tt) childless
    = (Rejected (mkError "Error" "kill ESRCH"), Some final)
    /\ log final = [KillGroup 4242; Throw (mkError "Error" "kill ESRCH")]
    /\ existsb (runsRemoval sampleProfile) (log final) = false
    /\ temporaryUserDataDir (chrome final) = Some sampleProfile
    /\ existing final = {[sampleProfile]}
    /\ subscribed final = [].
Proof.
  eexists. split; [vm_compute; reflexivity|].
  cbn [log existing subscribed chrome temporaryUserDataDir].
  split; [reflexivity|]. split; [reflexivity|]. split; [reflexivity|].
  split; [vm_compute|]; reflexivity.
Qed.

(** *** Removal of the profile directory *)







(** *** The promise behind a graceful close *)

Lemma closeProtocol_spawned platformIsWin32 o c chromePid :
  closeProtocol (spawned platformIsWin32 o c chromePid).
Proof.
  destruct (spawned_fields platformIsWin32 o c chromePid)
    as (_ & _ & Hlog & _ & Harmed & Hremoving & Hpending & _).
  unfold closeProtocol. rewrite Harmed, Hremoving, Hlog.
  split; [exact Hpending|reflexivity].
Qed.

Lemma closeProtocol_supervise revision o s events connecting connect os :
  closeProtocol s ->
  closeProtocol
    (snd (supervise revision o s events connecting connect os)).
Proof.
  apply (supervise_preserves (fun s s' => closeProtocol s -> closeProtocol s')).
  - intros ? Hs; exact Hs.
  - intros s1 s2 s3 H12 H23 Hs. apply H23, H12, Hs.
  - apply closeProtocol_deliver.
  - apply closeProtocol_forceKillChrome.
  - intros reason ?; apply (closeProtocol_grow _ _ [Throw reason]);
      reflexivity.
  - intros ?; apply closeProtocol_same; reflexivity.
Qed.

(** The child closes while it owns a directory that exists, and the
    removal is refused: the failure and its report enter the log. *)
Lemma close_then_refused_removal s path :
  halted s = false -> closeArmed s = true ->
  ownedDirectory s = Some path -> path ∈ existing s ->
  log (feed [ChildClose; RemovalDone false] s)
  = log s ++ [RimrafAsync path Failed; ConsoleError].
Proof.
  intros Hrunning Harmed Howned Hexists.
  unfold feed. cbn [foldl]. unfold deliver at 2.
  rewrite Hrunning, Harmed. unfold onClose. cbv zeta.
  change (ownedDirectory (closed s)) with (ownedDirectory s). rewrite Howned.
  unfold deliver. cbn [halted removing withRemoving closed].
  rewrite Hrunning. unfold onRemoved.
  change (ownedDirectory (withRemoving true (closed s)))
    with (ownedDirectory s).
  rewrite Howned. cbn [existing withRemoving closed]. unfold rimraf.
  rewrite decide_True by exact Hexists.
  cbn [log record withExisting withRemoving closed].
  rewrite <- app_assoc. reflexivity.
Qed.

(** C10.  At any time in the life of a process that [launch] has spawned:
    if the asynchronous removal started by the close listener has failed,
    then the failure was reported to the console and that is all;
    [waitForChromeToClose], the promise [killChrome] returns, is still
    pending, and since the close listener is spent nothing will settle it
    later either. *)
Theorem failed_removal_leaves_close_pending (platformIsWin32 : bool)
    (pathJoin : string -> string -> string)
    (tmpdir ChromiumRevision : string) (o : Composer.LaunchOptions)
    (w : world) (h : host) (events : list happening)
    (connecting : list event) (connect : result unit) (os : answers)
    (outcome : promise unit) (s : state) (later : list event) :
  launch platformIsWin32 pathJoin tmpdir ChromiumRevision o w h events
         connecting connect os = (outcome, Some s) ->
  existsb asyncFailure (log (feed later s)) = true ->
  forall afterwards,
    waitForChromeToClose (feed (later ++ afterwards) s) = Pending
    /\ In ConsoleError (log (feed (later ++ afterwards) s))
    /\ closeArmed (feed (later ++ afterwards) s) = false
    /\ removing (feed (later ++ afterwards) s) = false.
Proof.
  intros Hlaunch.
  destruct (launch_spawned _ _ _ _ _ _ _ _ _ _ _ _ _ Hlaunch)
    as (c & executable & chromePid & _ & _ & _ & Hsupervised).
  pose proof (closeProtocol_supervise ChromiumRevision o
                (spawned platformIsWin32 o c chromePid)
                events connecting connect os
                (closeProtocol_spawned platformIsWin32 o c chromePid))
    as Hprotocol.
  rewrite Hsupervised in Hprotocol. cbn [snd] in Hprotocol.
  intros Hfailed afterwards.
  assert (existsb asyncFailure (log (feed (later ++ afterwards) s)) = true)
    as Hstill.
  { rewrite feed_split.
    destruct (noThrowSince_feed afterwards (feed later s))
      as (extra & -> & _).
    rewrite existsb_app, Hfailed. reflexivity. }
  pose proof (closeProtocol_feed (later ++ afterwards) s Hprotocol) as Hend.
  unfold closeProtocol in Hend.
  destruct (closeArmed (feed (later ++ afterwards) s)),
    (removing (feed (later ++ afterwards) s)).
  - contradiction.
  - destruct Hend as [_ Hnone]. congruence.
  - destruct Hend as [_ Hnone]. congruence.
  - destruct (Hend Hstill) as [Hpending Hreported]. repeat split; assumption.
Qed.

(** A graceful close whose synchronous removal fails, then the child's
    close whose asynchronous removal fails as well; even a later close
    request that does delete the directory leaves the promise pending. *)
Lemma close_pending_after_failed_removal :
  exists s,
    sampleLaunch = (Resolved tt, Some s)
    /\ waitForChromeToClose
         (feed ([CloseHook guarding; ChildClose; RemovalDone false]
                  ++ [CloseHook obliging; RemovalDone true]) s)
       = Pending.
Proof.
  let r := eval vm_compute in sampleLaunch in
  lazymatch r with (_, Some ?s) => exists s end.
  split; [vm_compute; reflexivity|].
  apply (proj1 (failed_removal_leaves_close_pending
                  false Path.posixJoin "/tmp" "526987" Composer.noOptions
                  (Composer.emptyWorld ["Ab3dE9"]) (installed 4242)
                  [endpointLine] [] (Ok tt) obliging (Resolved tt) _
                  [CloseHook guarding; ChildClose; RemovalDone false]
                  ltac:(vm_compute; reflexivity)
                  ltac:(vm_compute; reflexivity)
                  [CloseHook obliging; RemovalDone true])).
Defined.

End LauncherFacts.


(** * Further properties *)

(** ** The discovery pattern and the diagnostic buffer *)

Module HandshakeMoreFacts.
Import JS Helper Handshake HandshakeFacts StringFacts.

Lemma atLineTerminator_spec s :
  atLineTerminator s = true
  <-> exists terminator rest,
        In terminator lineTerminators /\ s = terminator +:+ rest.
Proof.
  unfold atLineTerminator. rewrite existsb_exists. split.
  - intros (terminator & Hin & Hstarts).
    destruct (stripPrefix terminator s) as [rest|] eqn:Hrest; [|discriminate].
    exists terminator, rest. split; [exact Hin|].
    apply stripPrefix_spec, Hrest.
  - intros (terminator & rest & Hin & Hs). exists terminator.
    split; [exact Hin|].
    rewrite (proj2 (stripPrefix_spec terminator s rest) Hs). reflexivity.
Qed.

Lemma lineTerminator_nonempty terminator :
  In terminator lineTerminators ->
  exists c rest, terminator = String c rest.
Proof.
  intros [<-|[<-|[<-|[<-|[]]]]]; eexists; eexists; reflexivity.
Qed.

(** The starred dot matches a text exactly when no line terminator
    occurs in it. *)
Lemma dotStar_spec s :
  dotStar s = true
  <-> forall terminator before after,
        In terminator lineTerminators ->
        s <> before +:+ terminator +:+ after.
Proof.
  induction s as [|c s IH]; cbn [dotStar].
  - split; [|reflexivity]. intros _ terminator before after Hin Hs.
    destruct (lineTerminator_nonempty terminator Hin) as (ch & rest & ->).
    destruct before; discriminate.
  - rewrite andb_true_iff, negb_true_iff, IH. split.
    + intros [Hhere Hlater] terminator before after Hin Hs.
      destruct before as [|b before].
      * assert (atLineTerminator (String c s) = true) as Hstarts
          by (apply atLineTerminator_spec; exists terminator, after;
              split; [exact Hin|exact Hs]).
        congruence.
      * change (String c s = String b (before +:+ terminator +:+ after)) in Hs.
        injection Hs as _ Hs. exact (Hlater terminator before after Hin Hs).
    + intros Hnone. split.
      * destruct (atLineTerminator (String c s)) eqn:Hstarts; [|reflexivity].
        apply atLineTerminator_spec in Hstarts
          as (terminator & rest & Hin & Hs).
        destruct (Hnone terminator "" rest Hin Hs).
      * intros terminator before after Hin Hs.
        apply (Hnone terminator (String c before) after Hin).
        rewrite Hs. reflexivity.
Qed.

(** X1.  A line matches the discovery pattern exactly when it is the text
    [DevTools listening on ] followed by an endpoint that starts with
    [ws://] and goes on, to the end of the line, without any of the four
    line terminators of ECMAScript: line feed, carriage return, and the
    separators U+2028 and U+2029 (three bytes each in UTF-8).  The
    endpoint is what the match captures. *)
Theorem matchEndpoint_captures_rest_of_line (line endpoint : string) :
  let byte (n : nat) (rest : string) : string := String (ascii_of_nat n) rest in
  let terminators : list string :=
    [byte 10 ""; byte 13 "";
     byte 226 (byte 128 (byte 168 ""));
     byte 226 (byte 128 (byte 169 ""))] in
  matchEndpoint line = Some endpoint
  <-> line = "DevTools listening on " +:+ endpoint
      /\ exists tail,
           endpoint = "ws://" +:+ tail
           /\ forall terminator before after,
                In terminator terminators ->
                tail <> before +:+ terminator +:+ after.
Proof.
  cbv zeta. unfold matchEndpoint. split.
  - destruct (stripPrefix "DevTools listening on " line) as [group|] eqn:Hline;
      [|discriminate].
    destruct (stripPrefix "ws://" group) as [tail|] eqn:Hgroup; [|discriminate].
    destruct (dotStar tail) eqn:Htail; [|discriminate].
    intros [= <-]. apply stripPrefix_spec in Hline, Hgroup.
    split; [exact Hline|]. exists tail. split; [exact Hgroup|].
    apply dotStar_spec, Htail.
  - intros (Hline & tail & Hgroup & Htail).
    apply stripPrefix_spec in Hline, Hgroup.
    apply (proj2 (dotStar_spec tail)) in Htail.
    rewrite Hline, Hgroup, Htail. reflexivity.
Qed.

(** X2.  The buffer [stderr] holds the lines read up to and including the
    first event that settles the promise, each followed by a line feed;
    lines that arrive later are not recorded.  While nothing has settled
    the promise it holds all the lines read. *)
Theorem stderr_records_until_settled (ChromiumRevision : string)
    (timeout : Z) (before later : list event) (e : event) :
  existsb (qualifying timeout) before = false ->
  qualifying timeout e = true ->
  stderr (Handshake.feed ChromiumRevision timeout before (start timeout))
  = linesRead before
  /\ stderr (Handshake.feed ChromiumRevision timeout (before ++ e :: later)
               (start timeout))
     = grow (linesRead before) e.
Proof.
  intros Hquiet He.
  rewrite start_racing, feed_app, !feed_quiet, feed_cons by exact Hquiet.
  split; [reflexivity|]. rewrite deliver_racing.
  destruct e as [line| | |message|]; cbn [qualifying] in He.
  - destruct (matchEndpoint line); [|discriminate].
    rewrite feed_finished. reflexivity.
  - rewrite feed_finished. reflexivity.
  - rewrite feed_finished. reflexivity.
  - rewrite feed_finished. reflexivity.
  - rewrite He, feed_finished. reflexivity.
Qed.

(** A line of chatter, the endpoint, and more chatter that is dropped. *)
Lemma stderr_drops_late_chatter :
  stderr (Handshake.feed "526987" 30000
            ([StderrLine "starting up"]
               ++ StderrLine "DevTools listening on ws://host/x"
               :: [StderrLine "late"; StderrLine "later"])
            (start 30000))
  = "starting up" +:+ nl +:+ "DevTools listening on ws://host/x" +:+ nl.
Proof.
  apply (proj2 (stderr_records_until_settled
                  "526987" 30000 [StderrLine "starting up"]
                  [StderrLine "late"; StderrLine "later"]
                  (StderrLine "DevTools listening on ws://host/x")
                  eq_refl eq_refl)).
Defined.

(** X14.  Whatever was read before, as long as nothing settled the
    promise, a line made of [DevTools listening on ] and a [ws://] address
    in which none of the four line terminators occurs resolves the promise
    with that address, and nothing that comes later changes it. *)
Theorem listening_line_resolves_with_address (ChromiumRevision : string)
    (timeout : Z) (before later : list event) (tail : string) :
  let byte (n : nat) (rest : string) : string := String (ascii_of_nat n) rest in
  let terminators : list string :=
    [byte 10 ""; byte 13 "";
     byte 226 (byte 128 (byte 168 ""));
     byte 226 (byte 128 (byte 169 ""))] in
  existsb (qualifying timeout) before = false ->
  (forall terminator left right,
     In terminator terminators -> tail <> left +:+ terminator +:+ right) ->
  result (Handshake.feed ChromiumRevision timeout
            (before ++ StderrLine ("DevTools listening on ws://" +:+ tail)
               :: later)
            (start timeout))
  = Resolved ("ws://" +:+ tail).
Proof.
  cbv zeta. intros Hquiet Htail.
  assert (matchEndpoint ("DevTools listening on ws://" +:+ tail)
          = Some ("ws://" +:+ tail)) as Hmatch.
  { unfold matchEndpoint.
    rewrite (proj2 (stripPrefix_spec "DevTools listening on "
                      ("DevTools listening on ws://" +:+ tail)
                      ("ws://" +:+ tail)) eq_refl).
    rewrite (proj2 (stripPrefix_spec "ws://" ("ws://" +:+ tail) tail) eq_refl).
    rewrite (proj2 (dotStar_spec tail) Htail). reflexivity. }
  rewrite start_racing, feed_app, feed_quiet, feed_cons by exact Hquiet.
  rewrite deliver_racing, Hmatch, feed_finished. reflexivity.
Qed.

(** Chrome's own line, after a warning and before its exit. *)
Lemma chrome_line_resolves :
  result (Handshake.feed "526987" 30000
            ([StderrLine "[WARNING] no sandbox"]
               ++ StderrLine ("DevTools listening on ws://" +:+
                              "127.0.0.1:9222/devtools/browser/abc")
               :: [ChildExit])
            (start 30000))
  = Resolved ("ws://" +:+ "127.0.0.1:9222/devtools/browser/abc").
Proof.
  apply (listening_line_resolves_with_address
           "526987" 30000 [StderrLine "[WARNING] no sandbox"] [ChildExit]
           "127.0.0.1:9222/devtools/browser/abc" eq_refl).
  apply dotStar_spec. reflexivity.
Defined.

(** An address that holds the line separator U+2028 does not match: the
    promise stays pending. *)
Example separator_in_address_does_not_match :
  result (Handshake.feed "526987" 30000
            [StderrLine ("DevTools listening on ws://host/" +:+ lineSeparator
                         +:+ "x")]
            (start 30000))
  = Pending.
Proof. reflexivity. Qed.

End HandshakeMoreFacts.


(** ** More about the argument list *)

Module ComposerMoreFacts.
Import JS FS Composer ComposerFacts Vocabulary.

Lemma isTrue_spec v : isTrue v = true <-> v = VBool true.
Proof.
  destruct v as [| |[]| |]; cbn; split; intros H;
    try discriminate; try reflexivity.
Qed.

(** The test of line 82 on the options as they are when it is reached. *)
Lemma headless_condition o :
  negb (isBoolean (effectiveHeadless o)) || truthy (effectiveHeadless o) = true
  <-> headlessWanted o.
Proof.
  unfold effectiveHeadless, headlessWanted.
  destruct (truthy (appMode o)).
  - destruct (isTrue (devtools o)); cbn; split;
      [discriminate|intros [[=] _]|discriminate|intros [[=] _]].
  - destruct (isTrue (devtools o)) eqn:Hdevtools.
    + apply isTrue_spec in Hdevtools. cbn. split; [discriminate|].
      intros (_ & Hnot & _). contradiction.
    + assert (devtools o <> VBool true) as Hnot.
      { intros Hyes. apply isTrue_spec in Hyes. congruence. }
      destruct (headless o) as [| |[]| |]; cbn; split; intros H;
        try reflexivity; try discriminate;
        try (repeat split; [exact Hnot|discriminate]).
      destruct H as (_ & _ & Hfalse). contradiction.
Qed.

(** What [profile] pushes is nothing or one [--user-data-dir=] argument. *)
Lemma pushed_form pathJoin tmpdir o w pushed temporary w' :
  profile pathJoin tmpdir o w = Ok (pushed, temporary, w') ->
  (lacksUserDataDirArg o = false /\ pushed = [])
  \/ (lacksUserDataDirArg o = true
      /\ exists dir, pushed = ["--user-data-dir=" +:+ dir]).
Proof.
  intros Hp. apply profile_cases in Hp.
  destruct (lacksUserDataDirArg o); [right|left].
  - split; [reflexivity|].
    destruct (truthyString (userDataDir o)).
    + destruct Hp as (dir & _ & -> & _). exists dir. reflexivity.
    + destruct Hp as (dir & _ & -> & _). exists dir. reflexivity.
  - destruct Hp as (-> & _). split; reflexivity.
Qed.

Lemma not_pushed flag pushed :
  pushed = [] \/ (exists dir, pushed = ["--user-data-dir=" +:+ dir]) ->
  String.prefix "--user-data-dir" flag = false ->
  flag ∉ pushed.
Proof.
  intros [->|[dir ->]] Hflag Hin.
  - apply elem_of_nil in Hin. exact Hin.
  - apply list_elem_of_singleton in Hin. rewrite Hin in Hflag. discriminate.
Qed.

(** X3.  Leaving the caller's own arguments aside, the list [launch]
    builds ends with the four headless flags exactly when [headless] is
    not the boolean [false] and neither app mode nor [devtools: true]
    overrides it; and it holds the flag that opens DevTools exactly when
    [devtools] is the boolean [true]. *)
Theorem headless_unless_overridden (pathJoin : string -> string -> string)
    (tmpdir : string) (o : LaunchOptions)
    (w : world) (c : composed) :
  composeArguments pathJoin tmpdir o w = Ok c ->
  exists built,
    chromeArguments c = built ++ default [] (args o)
    /\ ("--headless" ∈ built <-> headlessWanted o)
    /\ (headlessWanted o ->
        exists front,
          built = front ++ ["--headless"; "--disable-gpu";
                            "--hide-scrollbars"; "--mute-audio"])
    /\ ("--auto-open-devtools-for-tabs" ∈ built <-> devtools o = VBool true).
Proof.
  intros Hcomposed.
  destruct (composeArguments_shape _ _ _ _ _ Hcomposed) as (pushed & Hp & Hshape).
  assert (pushed = [] \/ exists dir, pushed = ["--user-data-dir=" +:+ dir])
    as Hpushed.
  { destruct (pushed_form _ _ _ _ _ _ _ Hp) as [[_ ->]|[_ Hdir]]; auto. }
  pose proof (not_pushed "--headless" pushed Hpushed eq_refl) as Hp1.
  pose proof (not_pushed "--auto-open-devtools-for-tabs" pushed Hpushed
                eq_refl) as Hp2.
  set (automation := if truthy (appMode o) then [] else AUTOMATION_ARGS) in *.
  set (opened := if isTrue (devtools o)
                 then ["--auto-open-devtools-for-tabs"] else []) in *.
  set (hidden := if negb (isBoolean (effectiveHeadless o))
                    || truthy (effectiveHeadless o)
                 then ["--headless"; "--disable-gpu"; "--hide-scrollbars";
                       "--mute-audio"]
                 else []) in *.
  assert ("--headless" ∉ DEFAULT_ARGS) as Hd1
    by (apply (proj1 (bool_decide_eq_false _)); vm_compute; reflexivity).
  assert ("--auto-open-devtools-for-tabs" ∉ DEFAULT_ARGS) as Hd2
    by (apply (proj1 (bool_decide_eq_false _)); vm_compute; reflexivity).
  assert ("--headless" ∉ automation) as Ha1.
  { subst automation. destruct (truthy (appMode o));
      apply (proj1 (bool_decide_eq_false _)); vm_compute; reflexivity. }
  assert ("--auto-open-devtools-for-tabs" ∉ automation) as Ha2.
  { subst automation. destruct (truthy (appMode o));
      apply (proj1 (bool_decide_eq_false _)); vm_compute; reflexivity. }
  assert ("--headless" ∉ opened) as Ho1.
  { subst opened. destruct (isTrue (devtools o));
      apply (proj1 (bool_decide_eq_false _)); vm_compute; reflexivity. }
  assert ("--auto-open-devtools-for-tabs" ∈ opened
          <-> devtools o = VBool true) as Ho2.
  { rewrite <- isTrue_spec. subst opened. destruct (isTrue (devtools o)).
    - split; [reflexivity|intros _; apply list_elem_of_here].
    - split; [intros Hin; apply elem_of_nil in Hin; contradiction
             |discriminate]. }
  assert ("--headless" ∈ hidden <-> headlessWanted o) as Hh1.
  { rewrite <- headless_condition. subst hidden.
    destruct (negb (isBoolean (effectiveHeadless o))
              || truthy (effectiveHeadless o)).
    - split; [reflexivity|intros _; apply list_elem_of_here].
    - split; [intros Hin; apply elem_of_nil in Hin; contradiction
             |discriminate]. }
  assert ("--auto-open-devtools-for-tabs" ∉ hidden) as Hh2.
  { subst hidden.
    destruct (negb (isBoolean (effectiveHeadless o))
              || truthy (effectiveHeadless o));
      apply (proj1 (bool_decide_eq_false _)); vm_compute; reflexivity. }
  exists ((((DEFAULT_ARGS ++ automation) ++ pushed) ++ opened) ++ hidden).
  split; [rewrite Hshape; apply app_assoc|].
  rewrite !elem_of_app. split; [tauto|]. split; [|tauto].
  intros Hwanted. apply headless_condition in Hwanted.
  exists (((DEFAULT_ARGS ++ automation) ++ pushed) ++ opened).
  subst hidden. rewrite Hwanted. reflexivity.
Qed.

(** The empty options: headless, no DevTools. *)
Lemma headless_by_default :
  exists c built,
    composeArguments Path.posixJoin "/tmp" noOptions (emptyWorld ["Ab3dE9"]) = Ok c
    /\ chromeArguments c = built ++ []
    /\ "--headless" ∈ built.
Proof.
  destruct (composeArguments Path.posixJoin "/tmp" noOptions (emptyWorld ["Ab3dE9"]))
    as [c|message] eqn:Hcomposed; [|vm_compute in Hcomposed; discriminate].
  destruct (headless_unless_overridden _ _ _ _ _ Hcomposed)
    as (built & Hbuilt & Hheadless & _).
  exists c, built. split; [reflexivity|]. split; [exact Hbuilt|].
  apply Hheadless. repeat split; discriminate.
Defined.

Lemma filter_count_app (f : string -> bool) l1 l2 :
  length (List.filter f (l1 ++ l2))
  = length (List.filter f l1) + length (List.filter f l2).
Proof. rewrite List.filter_app. apply length_app. Qed.

Lemma existsb_counts (f : string -> bool) l :
  existsb f l = true -> 1 <= length (List.filter f l).
Proof.
  induction l as [|x l IH]; cbn [existsb List.filter]; [discriminate|].
  destruct (f x); cbn [orb length]; [lia|exact IH].
Qed.

Lemma filter_none (f : string -> bool) l :
  existsb f l = false -> List.filter f l = [].
Proof.
  induction l as [|x l IH]; cbn [existsb List.filter]; [reflexivity|].
  destruct (f x); cbn [orb]; [discriminate|exact IH].
Qed.

(** X4.  The composed list always names a profile directory, and [launch]
    never adds a [--user-data-dir] argument to one the caller gave: when no
    element of [options.args] starts with [--user-data-dir] the list holds
    exactly one such argument, otherwise exactly the caller's. *)
Theorem one_profile_argument_unless_given (pathJoin : string -> string -> string)
    (tmpdir : string)
    (o : LaunchOptions) (w : world) (c : composed) :
  composeArguments pathJoin tmpdir o w = Ok c ->
  userDataDirArgs (chromeArguments c)
  = (if lacksUserDataDirArg o then 1
     else userDataDirArgs (default [] (args o)))
  /\ 1 <= userDataDirArgs (chromeArguments c).
Proof.
  intros Hcomposed.
  destruct (composeArguments_shape _ _ _ _ _ Hcomposed) as (pushed & Hp & ->).
  assert (userDataDirArgs
            (if truthy (appMode o) then [] else AUTOMATION_ARGS) = 0) as Ha
    by (destruct (truthy (appMode o)); reflexivity).
  assert (userDataDirArgs
            (if isTrue (devtools o)
             then ["--auto-open-devtools-for-tabs"] else []) = 0) as Ho
    by (destruct (isTrue (devtools o)); reflexivity).
  assert (userDataDirArgs
            (if negb (isBoolean (effectiveHeadless o))
                || truthy (effectiveHeadless o)
             then ["--headless"; "--disable-gpu"; "--hide-scrollbars";
                   "--mute-audio"]
             else []) = 0) as Hh
    by (destruct (negb (isBoolean (effectiveHeadless o))
                  || truthy (effectiveHeadless o)); reflexivity).
  assert (userDataDirArgs DEFAULT_ARGS = 0) as Hd by reflexivity.
  unfold userDataDirArgs in *.
  rewrite !filter_count_app, Hd, Ha, Ho, Hh.
  destruct (pushed_form _ _ _ _ _ _ _ Hp) as [[Hlacks ->]|[Hlacks [dir ->]]];
    rewrite Hlacks.
  - cbn [List.filter length Nat.add]. split; [reflexivity|].
    unfold lacksUserDataDirArg in Hlacks.
    destruct (args o) as [list|]; [|discriminate].
    apply negb_false_iff, existsb_counts in Hlacks. exact Hlacks.
  - assert (List.filter (startsWith "--user-data-dir")
              ["--user-data-dir=" +:+ dir] = ["--user-data-dir=" +:+ dir])
      as -> by reflexivity.
    assert (List.filter (startsWith "--user-data-dir") (default [] (args o))
            = []) as ->.
    { unfold lacksUserDataDirArg in Hlacks.
      destruct (args o) as [list|]; [|reflexivity].
      apply negb_true_iff, filter_none in Hlacks. exact Hlacks. }
    cbn [length Nat.add]. split; [reflexivity|apply le_n].
Qed.

(** The caller names the profile twice; [launch] adds no third. *)
Lemma two_profile_arguments_kept :
  exists c,
    composeArguments Path.posixJoin "/tmp"
      (mkOptions VUndefined
                 (Some ["--user-data-dir=/a"; "--user-data-dir=/b"]) None
                 VUndefined VUndefined VUndefined VUndefined
                 VUndefined VUndefined VUndefined None None)
      (emptyWorld []) = Ok c
    /\ userDataDirArgs (chromeArguments c) = 2.
Proof.
  match goal with
  | |- exists c, composeArguments ?j ?t ?o ?w = _ /\ _ =>
      destruct (composeArguments j t o w) as [c|message] eqn:Hcomposed;
        [|vm_compute in Hcomposed; discriminate];
      exists c; split; [reflexivity|];
      apply (proj1 (one_profile_argument_unless_given j t o w c Hcomposed))
  end.
Defined.

End ComposerMoreFacts.


(** ** More about the supervised child *)

Module SupervisorMoreFacts.
Import JS Helper FS Supervisor SupervisorFacts Vocabulary.

(** *** Signals *)









(** SIGINT reaches the sample child when its process group is gone: the
    kill throws and [process.exit] is not called. *)
Example sigint_without_exit :
  exists s,
    Launcher.sampleLaunch = (Resolved tt, Some s)
    /\ log (deliver s (Signal SIGINT childless))
       = [KillGroup 4242; Raised ESRCH].
Proof.
  let r := eval vm_compute in Launcher.sampleLaunch in
  lazymatch r with
  | (_, Some ?s) => exists s; split; vm_compute; reflexivity
  end.
Qed.

(** *** The two ways of closing *)

(** X6.  [killChrome] asks politely only when there is no temporary
    profile: then it kills and removes nothing, throws nothing, and sends
    [Browser.close] if a connection exists, else nothing at all.  With a
    temporary profile it is [forceKillChrome] under another name, and no
    [Browser.close] is sent.  Either way it leaves [waitForChromeToClose],
    the promise it returns, as it found it. *)
Theorem killChrome_polite_without_temporary_profile (os : answers)
    (s : state) :
  (ownedDirectory s = None ->
   fst (killChrome os s) = None
   /\ log (snd (killChrome os s))
      = log s ++ (if connection s then [Send "Browser.close"] else [])
   /\ existing (snd (killChrome os s)) = existing s)
  /\ (forall path, ownedDirectory s = Some path -> wired s ->
      killChrome os s = forceKillChrome os s)
  /\ waitForChromeToClose (snd (killChrome os s)) = waitForChromeToClose s.
Proof.
  unfold killChrome. cbv zeta.
  set (s1 := withSubscribed
               (removeEventListeners (listeners (chrome s)) (subscribed s)) s).
  change (ownedDirectory s1) with (ownedDirectory s).
  change (connection s1) with (connection s).
  split; [|split].
  - intros ->. split; [reflexivity|].
    destruct (connection s); cbn [snd log existing record].
    + split; reflexivity.
    + rewrite app_nil_r. split; reflexivity.
  - intros path -> Hwired. unfold forceKillChrome. cbv zeta.
    assert (withSubscribed
              (removeEventListeners (listeners (chrome s1)) (subscribed s1)) s1
            = withSubscribed
                (removeEventListeners (listeners (chrome s)) (subscribed s)) s)
      as ->; [|reflexivity].
    subst s1. cbn [chrome subscribed withSubscribed].
    rewrite (unsubscribe_wired s Hwired),
      HelperFacts.removeEventListeners_nil.
    reflexivity.
  - destruct (ownedDirectory s).
    + destruct (forceKillChrome_effect os s1)
        as (_ & _ & _ & _ & _ & Hpromise & _).
      exact Hpromise.
    + destruct (connection s); reflexivity.
Qed.

(** Closing the sample browser, which has a temporary profile. *)
Lemma close_kills_sample_child :
  exists s,
    Launcher.sampleLaunch = (Resolved tt, Some s)
    /\ killChrome obliging s = forceKillChrome obliging s.
Proof.
  let r := eval vm_compute in Launcher.sampleLaunch in
  lazymatch r with
  | (_, Some ?s) =>
      exists s; split; [vm_compute; reflexivity|];
      apply (proj1 (proj2 (killChrome_polite_without_temporary_profile
                             obliging s))
               Launcher.sampleProfile eq_refl)
  end.
  left. reflexivity.
Defined.

(** *** Kills and the child's close *)

Lemma noKillOnceClosed_same s s' :
  chromeClosed s' = chromeClosed s -> log s' = log s ->
  noKillOnceClosed s s'.
Proof.
  intros Hclosed Hlog Hs. rewrite Hclosed, Hlog. split; [exact Hs|].
  exists []. rewrite app_nil_r. split; reflexivity.
Qed.

Lemma noKillOnceClosed_record e s :
  isKill e = false -> noKillOnceClosed s (record e s).
Proof.
  intros He Hs. split; [exact Hs|]. exists [e]. split; [reflexivity|].
  cbn [forallb]. rewrite He. reflexivity.
Qed.

Lemma noKillOnceClosed_trans s1 s2 s3 :
  noKillOnceClosed s1 s2 -> noKillOnceClosed s2 s3 ->
  noKillOnceClosed s1 s3.
Proof.
  intros H12 H23 Hs. destruct (H12 Hs) as (Hs2 & extra12 & Hlog12 & Hk12).
  destruct (H23 Hs2) as (Hs3 & extra23 & Hlog23 & Hk23).
  split; [exact Hs3|]. exists (extra12 ++ extra23).
  rewrite Hlog23, Hlog12, <- app_assoc, forallb_app, Hk12, Hk23.
  split; reflexivity.
Qed.

Lemma noKillOnceClosed_forceKillChrome os s :
  noKillOnceClosed s (snd (forceKillChrome os s)).
Proof.
  intros Hs.
  destruct (forceKillChrome_effect os s)
    as (_ & Hclosed & _ & _ & _ & _ & _ & _ & _ & Hlog & _).
  rewrite Hclosed. split; [exact Hs|]. eexists. split; [exact Hlog|].
  unfold refused, kills, live. rewrite Hs.
  destruct (pid (chrome s)) as [n|]; [|reflexivity].
  rewrite andb_false_r. reflexivity.
Qed.

Lemma noKillOnceClosed_deliver s e : noKillOnceClosed s (deliver s e).
Proof.
  apply (deliver_preserves noKillOnceClosed).
  - intros; apply noKillOnceClosed_same; reflexivity.
  - apply noKillOnceClosed_trans.
  - intros; apply noKillOnceClosed_same; reflexivity.
  - apply noKillOnceClosed_forceKillChrome.
  - intros; apply noKillOnceClosed_record; reflexivity.
  - intros s0 _ Hs. unfold onClose. cbv zeta.
    destruct (ownedDirectory (closed s0)); (split; [reflexivity|]);
      exists []; cbn [log closed withRemoving fulfill];
      rewrite app_nil_r; split; reflexivity.
  - intros permitted s0 _ Hs. unfold onRemoved.
    destruct (ownedDirectory s0) as [owned|].
    2:{ split; [exact Hs|]. exists []. rewrite app_nil_r. split; reflexivity. }
    destruct (rimraf owned permitted (existing s0)) as [[] paths]; cbv zeta;
      (split; [exact Hs|]).
    + exists [RimrafAsync owned Removed]. split; reflexivity.
    + exists [RimrafAsync owned Absent]. split; reflexivity.
    + exists [RimrafAsync owned Failed; ConsoleError]. split; [|reflexivity].
      cbn [log record withExisting withRemoving]. rewrite <- app_assoc.
      reflexivity.
  - intros; apply noKillOnceClosed_same; reflexivity.
  - intros; apply noKillOnceClosed_same; reflexivity.
  - intros; apply noKillOnceClosed_record; reflexivity.
  - intros; apply noKillOnceClosed_record; reflexivity.
Qed.

(** X7.  Once the child's close event has been handled no kill is sent
    any more, whatever is asked of the launcher afterwards: the pid may
    belong to someone else by then. *)
Theorem no_kill_after_close (s : state) (events : list event) :
  halted s = false -> closeArmed s = true ->
  chromeClosed (deliver s ChildClose) = true
  /\ exists extra,
       log (feed events (deliver s ChildClose))
       = log (deliver s ChildClose) ++ extra
       /\ forallb (fun e => negb (isKill e)) extra = true.
Proof.
  intros Hrunning Harmed.
  assert (chromeClosed (deliver s ChildClose) = true) as Hclosed.
  { unfold deliver. rewrite Hrunning, Harmed. unfold onClose. cbv zeta.
    destruct (ownedDirectory (closed s)); reflexivity. }
  split; [exact Hclosed|].
  apply (feed_preserves noKillOnceClosed).
  - intros; apply noKillOnceClosed_same; reflexivity.
  - apply noKillOnceClosed_trans.
  - apply noKillOnceClosed_deliver.
  - exact Hclosed.
Qed.

(** The sample child closes; closing the browser twice then kills
    nothing. *)
Lemma no_kill_after_sample_close :
  exists s extra,
    Launcher.sampleLaunch = (Resolved tt, Some s)
    /\ log (feed [CloseHook obliging; CloseHook obliging]
                 (deliver s ChildClose))
       = log (deliver s ChildClose) ++ extra
    /\ forallb (fun e => negb (isKill e)) extra = true.
Proof.
  let r := eval vm_compute in Launcher.sampleLaunch in
  lazymatch r with
  | (_, Some ?s) =>
      destruct (no_kill_after_close s [CloseHook obliging; CloseHook obliging]
                  eq_refl eq_refl) as (_ & extra & Hlog & Hnone);
      exists s, extra
  end.
  split; [vm_compute; reflexivity|]. split; assumption.
Defined.

(** *** Subscriptions once released *)

Lemma staysReleased_same s s' :
  chrome s' = chrome s -> subscribed s' = subscribed s -> staysReleased s s'.
Proof.
  intros Hchrome Hsubscribed. split; [exact Hchrome|].
  rewrite Hsubscribed. exact id.
Qed.

Lemma staysReleased_trans s1 s2 s3 :
  staysReleased s1 s2 -> staysReleased s2 s3 -> staysReleased s1 s3.
Proof.
  intros [Hc12 H12] [Hc23 H23]. split; [congruence|].
  intros Hs. apply H23, H12, Hs.
Qed.

Lemma staysReleased_forceKillChrome os s :
  staysReleased s (snd (forceKillChrome os s)).
Proof.
  destruct (forceKillChrome_effect os s)
    as (Hchrome & _ & _ & _ & _ & _ & _ & _ & Hsubscribed & _).
  split; [exact Hchrome|]. intros Hnone.
  rewrite Hsubscribed, Hnone. apply HelperFacts.removeEventListeners_nil.
Qed.

Lemma staysReleased_deliver s e : staysReleased s (deliver s e).
Proof.
  apply (deliver_preserves staysReleased).
  - intros; apply staysReleased_same; reflexivity.
  - apply staysReleased_trans.
  - intros s0. split; [reflexivity|]. intros Hnone.
    cbn [subscribed withSubscribed]. rewrite Hnone.
    apply HelperFacts.removeEventListeners_nil.
  - apply staysReleased_forceKillChrome.
  - intros; apply staysReleased_same; reflexivity.
  - intros s0 _. apply staysReleased_same; unfold onClose; cbv zeta;
      destruct (ownedDirectory (closed s0)); reflexivity.
  - intros permitted s0 _. apply staysReleased_same; unfold onRemoved;
      (destruct (ownedDirectory s0) as [owned|]; [|reflexivity]);
      destruct (rimraf owned permitted (existing s0)) as [[] paths];
      reflexivity.
  - intros; apply staysReleased_same; reflexivity.
  - intros; apply staysReleased_same; reflexivity.
  - intros; apply staysReleased_same; reflexivity.
  - intros; apply staysReleased_same; reflexivity.
Qed.

(** Either way of closing leaves a wired child with no subscription. *)
Lemma killChrome_releases os s :
  wired s -> subscribed (raised (killChrome os s)) = [].
Proof.
  intros Hwired.
  assert (subscribed (snd (killChrome os s)) = []) as Hnone.
  { unfold killChrome. cbv zeta.
    set (s1 := withSubscribed
                 (removeEventListeners (listeners (chrome s)) (subscribed s))
                 s).
    assert (subscribed s1 = []) as Hnone
      by apply unsubscribe_wired, Hwired.
    destruct (ownedDirectory s1).
    - apply (staysReleased_forceKillChrome os s1), Hnone.
    - cbn [snd]. destruct (connection s1); exact Hnone. }
  destruct (killChrome os s) as [[reason|] s1]; exact Hnone.
Qed.

(** *** Whom the kill is for *)

Lemma killsOnlyOwnChild_grow s s' extra :
  chrome s' = chrome s -> log s' = log s ++ extra ->
  Forall (killsOwnChild (chrome s)) extra ->
  killsOnlyOwnChild s s'.
Proof.
  intros Hchrome Hlog Hextra. split; [exact Hchrome|].
  intros Hs. rewrite Hlog. apply Forall_app. split; assumption.
Qed.

Lemma killsOnlyOwnChild_same s s' :
  chrome s' = chrome s -> log s' = log s -> killsOnlyOwnChild s s'.
Proof.
  intros Hchrome Hlog. apply (killsOnlyOwnChild_grow s s' []);
    [exact Hchrome|rewrite Hlog, app_nil_r; reflexivity|constructor].
Qed.

Lemma killsOnlyOwnChild_trans s1 s2 s3 :
  killsOnlyOwnChild s1 s2 -> killsOnlyOwnChild s2 s3 ->
  killsOnlyOwnChild s1 s3.
Proof.
  intros [Hc12 H12] [Hc23 H23]. split; [congruence|].
  intros Hs. rewrite <- Hc12. apply H23. rewrite Hc12. apply H12, Hs.
Qed.

Lemma kills_own_child s : Forall (killsOwnChild (chrome s)) (kills s).
Proof.
  unfold kills. destruct (live s); [|constructor].
  destruct (pid (chrome s)) as [n|] eqn:Hpid; [|constructor].
  constructor; [|constructor].
  destruct (win32 (chrome s)) eqn:Hwin; cbn [killsOwnChild];
    split; assumption.
Qed.

Lemma killsOnlyOwnChild_forceKillChrome os s :
  killsOnlyOwnChild s (snd (forceKillChrome os s)).
Proof.
  destruct (forceKillChrome_effect os s)
    as (Hchrome & _ & _ & _ & _ & _ & _ & _ & _ & Hlog & _).
  eapply killsOnlyOwnChild_grow; [exact Hchrome|exact Hlog|].
  apply Forall_app. split; [apply kills_own_child|].
  destruct (refused os s); [constructor|].
  constructor; [exact I|constructor].
Qed.

Lemma killsOnlyOwnChild_deliver s e : killsOnlyOwnChild s (deliver s e).
Proof.
  apply (deliver_preserves killsOnlyOwnChild).
  - intros; apply killsOnlyOwnChild_same; reflexivity.
  - apply killsOnlyOwnChild_trans.
  - intros; apply killsOnlyOwnChild_same; reflexivity.
  - apply killsOnlyOwnChild_forceKillChrome.
  - intros s0. apply (killsOnlyOwnChild_grow _ _ [Send "Browser.close"]);
      [reflexivity|reflexivity|constructor; [exact I|constructor]].
  - intros s0 _. apply killsOnlyOwnChild_same; unfold onClose; cbv zeta;
      destruct (ownedDirectory (closed s0)); reflexivity.
  - intros permitted s0 _. unfold onRemoved.
    destruct (ownedDirectory s0) as [owned|];
      [|apply killsOnlyOwnChild_same; reflexivity].
    destruct (rimraf owned permitted (existing s0)) as [[] paths]; cbv zeta.
    + apply (killsOnlyOwnChild_grow _ _ [RimrafAsync owned Removed]);
        [reflexivity|reflexivity|constructor; [exact I|constructor]].
    + apply (killsOnlyOwnChild_grow _ _ [RimrafAsync owned Absent]);
        [reflexivity|reflexivity|constructor; [exact I|constructor]].
    + apply (killsOnlyOwnChild_grow _ _
               [RimrafAsync owned Failed; ConsoleError]);
        [reflexivity
        |cbn [log record withExisting withRemoving];
         rewrite <- app_assoc; reflexivity
        |repeat constructor].
  - intros; apply killsOnlyOwnChild_same; reflexivity.
  - intros; apply killsOnlyOwnChild_same; reflexivity.
  - intros code s0. apply (killsOnlyOwnChild_grow _ _ [ProcessExit code]);
      [reflexivity|reflexivity|constructor; [exact I|constructor]].
  - intros reason s0. apply (killsOnlyOwnChild_grow _ _ [Raised reason]);
      [reflexivity|reflexivity|constructor; [exact I|constructor]].
Qed.

(** *** Directories that are not the child's *)

Lemma keepsOthers_same s s' :
  chrome s' = chrome s -> existing s' = existing s -> keepsOthers s s'.
Proof.
  intros Hchrome Hexisting. split; [exact Hchrome|].
  intros path Hin _. rewrite Hexisting. exact Hin.
Qed.

Lemma keepsOthers_trans s1 s2 s3 :
  keepsOthers s1 s2 -> keepsOthers s2 s3 -> keepsOthers s1 s3.
Proof.
  intros [Hc12 H12] [Hc23 H23]. split; [congruence|].
  intros path Hin Hother. apply H23; [apply H12; assumption|].
  unfold ownedDirectory in *. rewrite Hc12. exact Hother.
Qed.

Lemma rimraf_keeps_others owned permitted paths path :
  path ∈ paths -> owned <> path ->
  path ∈ snd (rimraf owned permitted paths).
Proof.
  intros Hin Hother.
  destruct (rimraf_cases owned permitted paths)
    as [(_ & _ & ->)|[(_ & _ & ->)|(_ & ->)]]; cbn [snd]; try exact Hin.
  rewrite elem_of_difference, elem_of_singleton. split; [exact Hin|congruence].
Qed.

Lemma keepsOthers_forceKillChrome os s :
  keepsOthers s (snd (forceKillChrome os s)).
Proof.
  destruct (forceKillChrome_effect os s)
    as (Hchrome & _ & _ & _ & _ & _ & _ & _ & _ & _ & Hexisting).
  split; [exact Hchrome|]. intros path Hin Hother. rewrite Hexisting.
  destruct (refused os s); [exact Hin|].
  destruct (ownedDirectory s) as [owned|]; [|exact Hin].
  apply rimraf_keeps_others; [exact Hin|congruence].
Qed.

Lemma keepsOthers_onRemoved permitted s :
  keepsOthers s (onRemoved permitted s).
Proof.
  unfold onRemoved.
  destruct (ownedDirectory s) as [owned|] eqn:Howned;
    [|apply keepsOthers_same; reflexivity].
  pose proof (rimraf_keeps_others owned permitted (existing s)) as Hkeeps.
  destruct (rimraf owned permitted (existing s)) as [outcome paths].
  cbn [snd] in Hkeeps. cbv zeta.
  split; [destruct outcome; reflexivity|].
  intros path Hin Hother. rewrite Howned in Hother.
  assert (path ∈ paths) as Hstill by (apply Hkeeps; [exact Hin|congruence]).
  destruct outcome; exact Hstill.
Qed.

Lemma keepsOthers_deliver s e : keepsOthers s (deliver s e).
Proof.
  apply (deliver_preserves keepsOthers).
  - intros; apply keepsOthers_same; reflexivity.
  - apply keepsOthers_trans.
  - intros; apply keepsOthers_same; reflexivity.
  - apply keepsOthers_forceKillChrome.
  - intros; apply keepsOthers_same; reflexivity.
  - intros s0 _. apply keepsOthers_same; unfold onClose; cbv zeta;
      destruct (ownedDirectory (closed s0)); reflexivity.
  - intros permitted s0 _. apply keepsOthers_onRemoved.
  - intros; apply keepsOthers_same; reflexivity.
  - intros; apply keepsOthers_same; reflexivity.
  - intros; apply keepsOthers_same; reflexivity.
  - intros; apply keepsOthers_same; reflexivity.
Qed.

(** *** When the promise of a close settles *)

Lemma closedWhenSettled_shrink s s' :
  chrome s' = chrome s -> chromeClosed s' = chromeClosed s ->
  closeArmed s' = closeArmed s -> removing s' = removing s ->
  waitForChromeToClose s' = waitForChromeToClose s ->
  (forall path, path ∉ existing s -> path ∉ existing s') ->
  closedWhenSettled s -> closedWhenSettled s'.
Proof.
  unfold closedWhenSettled, ownedDirectory.
  intros -> -> -> -> -> Hshrink [Hclosed Hsettled].
  split; [exact Hclosed|]. destruct Hsettled as [Hpending|(Ha & Hr & Hgone)];
    [left; exact Hpending|right].
  split; [exact Ha|]. split; [exact Hr|].
  intros path Howned. apply Hshrink, Hgone, Howned.
Qed.

Lemma keepsCloseOrder_same s s' :
  chrome s' = chrome s -> chromeClosed s' = chromeClosed s ->
  closeArmed s' = closeArmed s -> removing s' = removing s ->
  waitForChromeToClose s' = waitForChromeToClose s ->
  existing s' = existing s ->
  forall extra, log s' = log s ++ extra ->
  existsb asyncFailure extra = false ->
  keepsCloseOrder s s'.
Proof.
  intros Hchrome Hclosed Harmed Hremoving Hpromise Hexisting extra Hlog Hextra
         [Hprotocol Hsettled].
  split.
  - eapply closeProtocol_grow; eassumption.
  - eapply closedWhenSettled_shrink; try eassumption.
    intros path. rewrite Hexisting. exact id.
Qed.

Lemma keepsCloseOrder_forceKillChrome os s :
  keepsCloseOrder s (snd (forceKillChrome os s)).
Proof.
  intros [Hprotocol Hsettled].
  split; [apply closeProtocol_forceKillChrome, Hprotocol|].
  destruct (forceKillChrome_effect os s)
    as (Hchrome & Hclosed & Harmed & Hremoving & _ & Hpromise & _ & _ & _ & _
        & Hexisting).
  eapply closedWhenSettled_shrink; try eassumption.
  intros path Hgone. rewrite Hexisting.
  destruct (refused os s); [exact Hgone|].
  destruct (ownedDirectory s) as [owned|]; [|exact Hgone].
  destruct (rimraf_cases owned (removable os) (existing s))
    as [(_ & _ & ->)|[(_ & _ & ->)|(_ & ->)]]; cbn [snd]; try exact Hgone.
  rewrite elem_of_difference. tauto.
Qed.

Lemma keepsCloseOrder_onClose s :
  closeArmed s = true -> keepsCloseOrder s (onClose s).
Proof.
  intros Harmed [Hprotocol Hsettled].
  split; [apply closeProtocol_onClose; assumption|].
  assert (removing s = false) as Hidle.
  { unfold closeProtocol in Hprotocol. rewrite Harmed in Hprotocol.
    destruct (removing s); [contradiction|reflexivity]. }
  destruct Hsettled as [_ [Hpending|(Hspent & _)]]; [|congruence].
  unfold onClose, closedWhenSettled. cbv zeta.
  destruct (ownedDirectory (closed s)) as [owned|] eqn:Howned.
  - split; [reflexivity|]. left. exact Hpending.
  - split; [reflexivity|]. right. split; [reflexivity|].
    split; [exact Hidle|].
    intros path Hpath.
    change (ownedDirectory (fulfill (closed s)))
      with (ownedDirectory (closed s)) in Hpath.
    congruence.
Qed.

Lemma keepsCloseOrder_onRemoved permitted s :
  removing s = true -> keepsCloseOrder s (onRemoved permitted s).
Proof.
  intros Hremoving [Hprotocol Hsettled].
  split; [apply closeProtocol_onRemoved; assumption|].
  assert (closeArmed s = false) as Hspent.
  { unfold closeProtocol in Hprotocol. rewrite Hremoving in Hprotocol.
    destruct (closeArmed s); [contradiction|reflexivity]. }
  destruct Hsettled as [Hclosed Hsettled].
  destruct Hsettled as [Hpending|(_ & Hidle & _)]; [|congruence].
  unfold onRemoved. destruct (ownedDirectory s) as [owned|] eqn:Howned.
  2:{ split; [exact Hclosed|]. left. exact Hpending. }
  destruct (rimraf_cases owned permitted (existing s))
    as [(_ & _ & ->)|[(_ & _ & ->)|(Hgone & ->)]]; cbv zeta;
    (split; [exact Hclosed|]).
  - right. split; [exact Hspent|]. split; [reflexivity|].
    intros path Hpath.
    change (ownedDirectory s = Some path) in Hpath.
    rewrite Howned in Hpath. injection Hpath as <-.
    cbn [existing fulfill withExisting].
    rewrite elem_of_difference, elem_of_singleton. tauto.
  - left. exact Hpending.
  - right. split; [exact Hspent|]. split; [reflexivity|].
    intros path Hpath.
    change (ownedDirectory s = Some path) in Hpath.
    rewrite Howned in Hpath. injection Hpath as <-. exact Hgone.
Qed.

Lemma keepsCloseOrder_deliver s e : keepsCloseOrder s (deliver s e).
Proof.
  apply (deliver_preserves keepsCloseOrder).
  - intros ? Hs; exact Hs.
  - intros s1 s2 s3 H12 H23 Hs. apply H23, H12, Hs.
  - intros s0. apply (keepsCloseOrder_same _ _) with (extra := []);
      try reflexivity. cbn [log withSubscribed]. symmetry. apply app_nil_r.
  - apply keepsCloseOrder_forceKillChrome.
  - intros s0.
    apply (keepsCloseOrder_same _ _) with (extra := [Send "Browser.close"]);
      reflexivity.
  - apply keepsCloseOrder_onClose.
  - apply keepsCloseOrder_onRemoved.
  - intros s0. apply (keepsCloseOrder_same _ _) with (extra := []);
      try reflexivity. cbn [log deaf]. symmetry. apply app_nil_r.
  - intros s0. apply (keepsCloseOrder_same _ _) with (extra := []);
      try reflexivity. cbn [log halt]. symmetry. apply app_nil_r.
  - intros code s0.
    apply (keepsCloseOrder_same _ _) with (extra := [ProcessExit code]);
      reflexivity.
  - intros reason s0.
    apply (keepsCloseOrder_same _ _) with (extra := [Raised reason]);
      reflexivity.
Qed.

End SupervisorMoreFacts.


(** ** More about Launcher.launch *)

Module LauncherMoreFacts.
Import JS Helper FS Supervisor Launcher.
Import SupervisorFacts LauncherFacts Vocabulary SupervisorMoreFacts.

(** A relation respected by every delivery, by [forceKillChrome], by the
    throw of [launch] and by the connection being made holds between the
    state [launch] enters its [try] with and any later state of the
    child. *)
Lemma launch_preserves (R : state -> state -> Prop) :
  (forall s, R s s) ->
  (forall s1 s2 s3, R s1 s2 -> R s2 s3 -> R s1 s3) ->
  (forall s e, R s (deliver s e)) ->
  (forall os s, R s (snd (forceKillChrome os s))) ->
  (forall reason s, R s (record (Throw reason) s)) ->
  (forall s, R s (connected s)) ->
  forall platformIsWin32 pathJoin tmpdir revision o w h events connecting
         connect os outcome s later,
    launch platformIsWin32 pathJoin tmpdir revision o w h events connecting
           connect os = (outcome, Some s) ->
    exists c executable chromePid,
      Composer.composeArguments pathJoin tmpdir o w = Ok c
      /\ chromeExecutable o h = Ok executable
      /\ spawn h executable (Composer.chromeArguments c) = Ok chromePid
      /\ R (spawned platformIsWin32 o c chromePid) (feed later s).
Proof.
  intros R_refl R_trans R_deliver R_force R_throw R_connected
         platformIsWin32 pathJoin tmpdir revision o w h events connecting
         connect os outcome s later Hlaunch.
  destruct (launch_spawned _ _ _ _ _ _ _ _ _ _ _ _ _ Hlaunch)
    as (c & executable & chromePid & Hcomposed & Hexecutable & Hspawn
        & Hsupervised).
  pose proof (supervise_preserves R R_refl R_trans R_deliver R_force R_throw
                R_connected revision o
                (spawned platformIsWin32 o c chromePid)
                events connecting connect os) as Hpreserved.
  rewrite Hsupervised in Hpreserved. cbn [snd] in Hpreserved.
  exists c, executable, chromePid.
  split; [exact Hcomposed|]. split; [exact Hexecutable|].
  split; [exact Hspawn|].
  eapply R_trans; [exact Hpreserved|].
  apply feed_preserves; assumption.
Qed.

(** *** The process exits *)

Lemma exit_listeners o :
  listenersOf ExitEmitter "exit" (snd (wire o)) = [ForceKillChrome].
Proof.
  unfold wire.
  destruct (isNotFalse (Composer.handleSIGINT o)),
    (isNotFalse (Composer.handleSIGTERM o)),
    (isNotFalse (Composer.handleSIGHUP o)); reflexivity.
Qed.

(** X8.  When the Node process exits while the subscriptions of [launch]
    are still in place, [forceKillChrome] runs, whatever the [handle...]
    options say, and the launcher itself calls no [process.exit].  A
    child that has a pid, was not killed through its handle and has not
    closed is sent the platform's kill.  If the kill goes through, or
    none is sent, the removal of the temporary profile is attempted; if
    the kill throws, the exception leaves the handler, nothing is removed
    and the directories stay as they were. *)
Theorem exit_forces_kill (o : Composer.LaunchOptions) (s : state)
    (os : answers) :
  halted s = false -> processListening s = true ->
  subscribed s = snd (wire o) ->
  let s' := deliver s (Exit os) in
  let kill (n : Z) : effect :=
    if win32 (chrome s) then Taskkill n else KillGroup n in
  let removal : effect :=
    RimrafSync (temporaryUserDataDir (chrome s))
      match temporaryUserDataDir (chrome s) with
      | Some path =>
          if String.eqb path "" then Failed
          else fst (rimraf path (removable os) (existing s))
      | None => Failed
      end in
  halted s' = true
  /\ (exists extra,
        log s' = log s ++ extra
        /\ forallb (fun e => negb (isProcessExit e)) extra = true)
  /\ match pid (chrome s) with
     | Some n =>
         if (n =? 0)%Z || killed (chrome s) || chromeClosed s
         then log s' = log s ++ [removal]
         else
           match killError os with
           | None => log s' = log s ++ [kill n; removal]
           | Some thrown =>
               log s' = log s ++ [kill n; Raised thrown]
               /\ existing s' = existing s
           end
     | None => log s' = log s ++ [removal]
     end.
Proof.
  intros Hrunning Hlistening Hsubscribed. cbv zeta.
  assert (deliver s (Exit os)
          = halt (raised (forceKillChrome os (deaf s)))) as ->.
  { unfold deliver. rewrite Hrunning, Hlistening.
    unfold exitHandler, emit. cbv zeta.
    change (subscribed (deaf s)) with (subscribed s).
    rewrite Hsubscribed, exit_listeners. cbn [callAll call].
    destruct (forceKillChrome os (deaf s)) as [[reason|] s1]; reflexivity. }
  pose proof (forceKillChrome_thrown os (deaf s)) as Hthrown.
  destruct (forceKillChrome_effect os (deaf s))
    as (_ & _ & _ & _ & _ & _ & _ & _ & _ & Hlog & Hexisting).
  change (refused os (deaf s)) with (refused os s) in *.
  change (kills (deaf s)) with (kills s) in *.
  change (log (deaf s)) with (log s) in *.
  change (existing (deaf s)) with (existing s) in *.
  change (ownedDirectory (deaf s)) with (ownedDirectory s) in *.
  change (chrome (deaf s)) with (chrome s) in *.
  change (syncOutcome (removable os) (deaf s))
    with (syncOutcome (removable os) s) in *.
  rewrite LauncherFacts.syncOutcome_spelled in Hlog.
  destruct (forceKillChrome os (deaf s)) as [thrown s1].
  cbn [fst snd] in *. subst thrown.
  split; [reflexivity|].
  assert (forallb (fun e => negb (isProcessExit e)) (kills s) = true)
    as Hkillsquiet.
  { unfold kills. destruct (live s); [|reflexivity].
    destruct (pid (chrome s)); [|reflexivity].
    destruct (win32 (chrome s)); reflexivity. }
  unfold refused, kills in *. rewrite LauncherFacts.live_spelled in *.
  destruct (pid (chrome s)) as [n|].
  - rewrite <- !negb_orb in *.
    destruct ((n =? 0)%Z || killed (chrome s) || chromeClosed s);
      cbn [negb] in *.
    + cbn [raised log halt]. split; [|exact Hlog].
      eexists. split; [exact Hlog|]. reflexivity.
    + destruct (killError os) as [thrown|]; cbn [raised log halt existing
                                                  record].
      * rewrite Hlog, app_nil_r, <- app_assoc. split.
        -- eexists. split; [reflexivity|].
           destruct (win32 (chrome s)); reflexivity.
        -- split; [reflexivity|exact Hexisting].
      * split; [|exact Hlog]. eexists. split; [exact Hlog|].
        destruct (win32 (chrome s)); reflexivity.
  - cbn [raised log halt]. split; [|exact Hlog].
    eexists. split; [exact Hlog|]. reflexivity.
Qed.

(** The process exits while the sample browser is open. *)
Lemma exit_kills_sample_child :
  exists s,
    sampleLaunch = (Resolved tt, Some s)
    /\ halted (deliver s (Exit obliging)) = true.
Proof.
  let r := eval vm_compute in sampleLaunch in
  lazymatch r with
  | (_, Some ?s) =>
      exists s; split; [vm_compute; reflexivity|];
      apply (proj1 (exit_forces_kill Composer.noOptions s obliging
                      eq_refl eq_refl eq_refl))
  end.
Defined.

(** The same exit, with the kill going through and with the kill
    throwing. *)
Example exit_of_sample_child :
  exists s,
    sampleLaunch = (Resolved tt, Some s)
    /\ log (deliver s (Exit obliging))
       = [KillGroup 4242; RimrafSync (Some sampleProfile) Removed]
    /\ log (deliver s (Exit childless)) = [KillGroup 4242; Raised ESRCH].
Proof.
  let r := eval vm_compute in sampleLaunch in
  lazymatch r with
  | (_, Some ?s) => exists s; repeat split; vm_compute; reflexivity
  end.
Qed.

(** *** After a close *)

(** X9.  Once [killChrome] has been called in a running process nothing
    of this launch stays subscribed to [exitEmitter], for good: a signal
    that arrives later runs no handler of this launch, it only ends the
    process. *)
Theorem close_releases_subscriptions (platformIsWin32 : bool)
    (pathJoin : string -> string -> string)
    (tmpdir ChromiumRevision : string) (o : Composer.LaunchOptions)
    (w : world) (h : host) (events : list happening)
    (connecting : list event) (connect : result unit) (os : answers)
    (outcome : promise unit) (s : state) (before after : list event)
    (allowed : answers) :
  launch platformIsWin32 pathJoin tmpdir ChromiumRevision o w h events
         connecting connect os = (outcome, Some s) ->
  halted (feed before s) = false ->
  let closing := feed (before ++ CloseHook allowed :: after) s in
  subscribed closing = []
  /\ forall sig allowed',
       halted closing = false -> processListening closing = true ->
       log (deliver closing (Signal sig allowed'))
       = log closing ++ [ProcessExit (exitCode sig)].
Proof.
  intros Hlaunch Hrunning. cbv zeta.
  assert (subscribed (feed (before ++ CloseHook allowed :: after) s) = [])
    as Hnone.
  { destruct (launch_preserves staysWired
                ltac:(intros; apply staysWired_same; reflexivity)
                staysWired_trans staysWired_deliver
                ltac:(intros os0 s0;
                      destruct (forceKillChrome_effect os0 s0)
                        as (Hc & _ & _ & _ & _ & _ & _ & _ & Hs & _);
                      split; [exact Hc|]; intros Hw; right;
                      rewrite Hs; apply unsubscribe_wired, Hw)
                ltac:(intros; apply staysWired_same; reflexivity)
                ltac:(intros; apply staysWired_same; reflexivity)
                _ _ _ _ _ _ _ _ _ _ _ _ _ before Hlaunch)
      as (c & executable & chromePid & _ & _ & _ & _ & Hwired).
    specialize (Hwired (wired_spawned _ _ _ _)).
    assert (feed (before ++ CloseHook allowed :: after) s
            = feed after (raised (killChrome allowed (feed before s)))) as ->.
    { rewrite feed_split.
      change (feed (CloseHook allowed :: after) (feed before s))
        with (feed after (deliver (feed before s) (CloseHook allowed))).
      assert (deliver (feed before s) (CloseHook allowed)
              = raised (killChrome allowed (feed before s))) as ->
        by (unfold deliver; rewrite Hrunning; reflexivity).
      reflexivity. }
    assert (staysReleased (raised (killChrome allowed (feed before s)))
              (feed after (raised (killChrome allowed (feed before s)))))
      as [_ Hreleased].
    { apply (feed_preserves staysReleased).
      - intros; apply staysReleased_same; reflexivity.
      - apply staysReleased_trans.
      - apply staysReleased_deliver. }
    apply Hreleased, killChrome_releases, Hwired. }
  split; [exact Hnone|].
  intros sig allowed' Hstill Hlistening. unfold deliver.
  rewrite Hstill, Hlistening. unfold sigHandler, emit. cbv zeta.
  change (subscribed (deaf ?x)) with (subscribed x).
  rewrite Hnone. reflexivity.
Qed.

(** The sample browser is closed, then SIGINT arrives. *)
Lemma sigint_after_sample_close :
  exists s,
    sampleLaunch = (Resolved tt, Some s)
    /\ subscribed (feed ([] ++ CloseHook obliging :: [ChildClose]) s) = [].
Proof.
  let r := eval vm_compute in sampleLaunch in
  lazymatch r with
  | (_, Some ?s) =>
      exists s; split; [vm_compute; reflexivity|];
      apply (proj1 (close_releases_subscriptions
                      false Path.posixJoin "/tmp" "526987" Composer.noOptions
                      (Composer.emptyWorld ["Ab3dE9"]) (installed 4242)
                      [endpointLine] [] (Ok tt) obliging (Resolved tt) s
                      [] [ChildClose] obliging
                      ltac:(vm_compute; reflexivity) eq_refl))
  end.
Defined.

(** *** Whom the kill is for *)

(** X10.  Whatever happens to a child that [launch] has spawned, the only
    kill the launcher ever issues is the platform's own, [taskkill] on
    Windows and a [SIGKILL] to the process group elsewhere, aimed at the
    pid that [childProcess.spawn] gave for the executable and the
    arguments of this launch; when spawning gave no pid, nothing is ever
    killed. *)
Theorem kill_is_for_spawned_child (platformIsWin32 : bool)
    (pathJoin : string -> string -> string)
    (tmpdir ChromiumRevision : string) (o : Composer.LaunchOptions)
    (w : world) (h : host) (events : list happening)
    (connecting : list event) (connect : result unit) (os : answers)
    (outcome : promise unit) (s : state) (later : list event) (e : effect) :
  launch platformIsWin32 pathJoin tmpdir ChromiumRevision o w h events
         connecting connect os = (outcome, Some s) ->
  e ∈ log (feed later s) ->
  let spawnedAs (n : Z) : Prop :=
    exists c executable,
      Composer.composeArguments pathJoin tmpdir o w = Ok c
      /\ chromeExecutable o h = Ok executable
      /\ spawn h executable (Composer.chromeArguments c) = Ok (Some n) in
  match e with
  | Taskkill n => platformIsWin32 = true /\ spawnedAs n
  | KillGroup n => platformIsWin32 = false /\ spawnedAs n
  | _ => True
  end.
Proof.
  intros Hlaunch Hin. cbv zeta.
  destruct (launch_preserves killsOnlyOwnChild
              ltac:(intros; apply killsOnlyOwnChild_same; reflexivity)
              killsOnlyOwnChild_trans killsOnlyOwnChild_deliver
              killsOnlyOwnChild_forceKillChrome
              ltac:(intros reason s0;
                    apply (killsOnlyOwnChild_grow _ _ [Throw reason]);
                    [reflexivity|reflexivity
                    |constructor; [exact I|constructor]])
              ltac:(intros; apply killsOnlyOwnChild_same; reflexivity)
              _ _ _ _ _ _ _ _ _ _ _ _ _ later Hlaunch)
    as (c & executable & chromePid & Hcomposed & Hexecutable & Hspawn & _
        & Hkills).
  destruct (spawned_fields platformIsWin32 o c chromePid)
    as (Hchrome & _ & Hlog & _).
  rewrite Hlog, Hchrome in Hkills.
  specialize (Hkills (List.Forall_nil _)).
  rewrite Forall_forall in Hkills. specialize (Hkills e Hin).
  destruct e; try exact I; cbn [killsOwnChild win32 pid] in Hkills;
    destruct Hkills as [Hplatform ->];
    (split; [exact Hplatform|]); exists c, executable;
    repeat split; assumption.
Qed.

(** The sample browser is closed twice: both kills go to pid 4242. *)
Lemma kills_go_to_sample_child :
  exists s,
    sampleLaunch = (Resolved tt, Some s)
    /\ KillGroup 4242 ∈ log (feed [CloseHook obliging; CloseHook obliging] s)
    /\ exists c executable,
         spawn (installed 4242) executable (Composer.chromeArguments c)
         = Ok (Some 4242%Z).
Proof.
  let r := eval vm_compute in sampleLaunch in
  lazymatch r with
  | (_, Some ?s) =>
      exists s; split; [vm_compute; reflexivity|];
      assert (KillGroup 4242
              ∈ log (feed [CloseHook obliging; CloseHook obliging] s))
        as Hin by (apply list_elem_of_In; vm_compute; tauto);
      split; [exact Hin|];
      destruct (kill_is_for_spawned_child
               false Path.posixJoin "/tmp" "526987" Composer.noOptions
               (Composer.emptyWorld ["Ab3dE9"]) (installed 4242)
               [endpointLine] [] (Ok tt) obliging (Resolved tt) s
               [CloseHook obliging; CloseHook obliging] (KillGroup 4242)
               ltac:(vm_compute; reflexivity) Hin)
        as (_ & c & executable & _ & _ & Hspawn)
  end.
  exists c, executable. exact Hspawn.
Defined.

(** *** Directories that are not the child's *)

(** Composing only ever adds the directory it allocates, and that one
    was not there before. *)
Lemma composeArguments_world pathJoin tmpdir o w c :
  Composer.composeArguments pathJoin tmpdir o w = Ok c ->
  (forall path, path ∈ dirs w -> path ∈ dirs (Composer.after c))
  /\ (forall path, Composer.temporaryUserDataDir c = Some path ->
        path ∉ dirs w).
Proof.
  intros Hcomposed.
  destruct (ComposerFacts.composeArguments_shape _ _ _ _ _ Hcomposed)
    as (pushed & Hp & _).
  apply ComposerFacts.profile_cases in Hp.
  destruct (Composer.lacksUserDataDirArg o).
  - destruct (Composer.truthyString (Composer.userDataDir o)).
    + destruct Hp as (dir & _ & _ & -> & ->). split; [auto|discriminate].
    + destruct Hp as (path & Hmk & _ & ->).
      destruct (ComposerFacts.mkdtempFrom_fresh _ _ _ _ _ Hmk)
        as (Hnew & -> & _).
      split.
      * intros other Hin. apply elem_of_union_r, Hin.
      * intros p [= <-]. exact Hnew.
  - destruct Hp as (_ & -> & ->). split; [auto|discriminate].
Qed.

(** X11.  [launch] and everything that follows it delete no directory
    that existed before the launch: a [userDataDir] supplied by the caller,
    like any other directory, is still there whatever is killed, closed or
    signalled. *)
Theorem launch_spares_existing_directories (platformIsWin32 : bool)
    (pathJoin : string -> string -> string)
    (tmpdir ChromiumRevision : string) (o : Composer.LaunchOptions)
    (w : world) (h : host) (events : list happening)
    (connecting : list event) (connect : result unit) (os : answers)
    (outcome : promise unit) (s : state) (later : list event)
    (path : string) :
  launch platformIsWin32 pathJoin tmpdir ChromiumRevision o w h events
         connecting connect os = (outcome, Some s) ->
  path ∈ dirs w ->
  path ∈ existing (feed later s).
Proof.
  intros Hlaunch Hin.
  destruct (launch_preserves keepsOthers
              ltac:(intros; apply keepsOthers_same; reflexivity)
              keepsOthers_trans keepsOthers_deliver
              keepsOthers_forceKillChrome
              ltac:(intros; apply keepsOthers_same; reflexivity)
              ltac:(intros; apply keepsOthers_same; reflexivity)
              _ _ _ _ _ _ _ _ _ _ _ _ _ later Hlaunch)
    as (c & executable & chromePid & Hcomposed & _ & _ & _ & Hkept).
  destruct (composeArguments_world _ _ _ _ _ Hcomposed) as [Hadded Hfresh].
  destruct (spawned_fields platformIsWin32 o c chromePid)
    as (Hchrome & _ & _ & Hexisting & _).
  apply Hkept.
  - rewrite Hexisting. apply Hadded, Hin.
  - intros Howned. apply owned_is_temporary in Howned.
    rewrite Hchrome in Howned. cbn [temporaryUserDataDir] in Howned.
    exact (Hfresh _ Howned Hin).
Qed.

(** A browser on the caller's own profile is killed by a signal; the
    profile stays. *)
Lemma own_profile_survives :
  exists outcome s,
    launch false Path.posixJoin "/tmp" "526987" Composer.ownProfile
           (mkWorld {["/home/me/profile"]} []) (installed 4242)
           [endpointLine] [] (Ok tt) obliging = (outcome, Some s)
    /\ "/home/me/profile"
       ∈ existing (feed [CloseHook obliging; Signal SIGINT obliging] s).
Proof.
  let r := eval vm_compute in
    (launch false Path.posixJoin "/tmp" "526987" Composer.ownProfile
            (mkWorld {["/home/me/profile"]} []) (installed 4242)
            [endpointLine] [] (Ok tt) obliging) in
  lazymatch r with
  | (?outcome, Some ?s) =>
      assert (launch false Path.posixJoin "/tmp" "526987" Composer.ownProfile
                     (mkWorld {["/home/me/profile"]} []) (installed 4242)
                     [endpointLine] [] (Ok tt) obliging = (outcome, Some s))
        as Hlaunch by (vm_compute; reflexivity);
      exists outcome, s; split; [exact Hlaunch|];
      refine (launch_spares_existing_directories _ _ _ _ _ _ _ _ _ _ _ _ _
                [CloseHook obliging; Signal SIGINT obliging]
                "/home/me/profile" Hlaunch _)
  end.
  cbn [dirs]. apply elem_of_singleton. reflexivity.
Defined.

(** *** When a close is over *)

Lemma closedWhenSettled_spawned platformIsWin32 o c chromePid :
  closedWhenSettled (spawned platformIsWin32 o c chromePid).
Proof.
  destruct (spawned_fields platformIsWin32 o c chromePid)
    as (_ & _ & _ & _ & Harmed & _ & Hpending & _).
  split; [rewrite Harmed; discriminate|left; exact Hpending].
Qed.

(** X12.  The promise [killChrome] returns is no longer pending only
    after the child's close event, and, for a child with a temporary
    profile, only once that directory is gone: whoever awaits the close
    finds Chrome closed and the profile removed. *)
Theorem close_settles_after_close_and_removal (platformIsWin32 : bool)
    (pathJoin : string -> string -> string)
    (tmpdir ChromiumRevision : string) (o : Composer.LaunchOptions)
    (w : world) (h : host) (events : list happening)
    (connecting : list event) (connect : result unit) (os : answers)
    (outcome : promise unit) (s : state) (later : list event) :
  launch platformIsWin32 pathJoin tmpdir ChromiumRevision o w h events
         connecting connect os = (outcome, Some s) ->
  waitForChromeToClose (feed later s) <> Pending ->
  chromeClosed (feed later s) = true
  /\ closeArmed (feed later s) = false
  /\ removing (feed later s) = false
  /\ forall path, ownedDirectory s = Some path ->
       path ∉ existing (feed later s).
Proof.
  intros Hlaunch Hsettled.
  destruct (launch_preserves keepsCloseOrder
              ltac:(intros ? Hs; exact Hs)
              ltac:(intros s1 s2 s3 H12 H23 Hs; apply H23, H12, Hs)
              keepsCloseOrder_deliver keepsCloseOrder_forceKillChrome
              ltac:(intros reason s0;
                    apply (keepsCloseOrder_same _ _)
                      with (extra := [Throw reason]); reflexivity)
              ltac:(intros s0;
                    apply (keepsCloseOrder_same _ _) with (extra := []);
                    try reflexivity;
                    cbn [log connected]; symmetry; apply app_nil_r)
              _ _ _ _ _ _ _ _ _ _ _ _ _ later Hlaunch)
    as (c & executable & chromePid & _ & _ & _ & Horder).
  destruct (Horder (conj (closeProtocol_spawned _ _ _ _)
                         (closedWhenSettled_spawned _ _ _ _)))
    as (_ & Hclosed & [Hpending|(Hspent & Hidle & Hgone)]);
    [contradiction|].
  split; [apply Hclosed, Hspent|]. split; [exact Hspent|].
  split; [exact Hidle|].
  intros path Howned. apply Hgone.
  destruct (feed_preserves keepsOthers
              ltac:(intros; apply keepsOthers_same; reflexivity)
              keepsOthers_trans keepsOthers_deliver later s) as [Hchrome _].
  unfold ownedDirectory in *. rewrite Hchrome. exact Howned.
Qed.

(** The sample browser is closed, the child closes, the removal ends. *)
Lemma sample_close_settles_late :
  exists s,
    sampleLaunch = (Resolved tt, Some s)
    /\ chromeClosed
         (feed [CloseHook guarding; ChildClose; RemovalDone true] s) = true
    /\ sampleProfile
       ∉ existing (feed [CloseHook guarding; ChildClose; RemovalDone true] s).
Proof.
  let r := eval vm_compute in sampleLaunch in
  lazymatch r with
  | (_, Some ?s) =>
      exists s; split; [vm_compute; reflexivity|];
      destruct (close_settles_after_close_and_removal
                  false Path.posixJoin "/tmp" "526987" Composer.noOptions
                  (Composer.emptyWorld ["Ab3dE9"]) (installed 4242)
                  [endpointLine] [] (Ok tt) obliging (Resolved tt) s
                  [CloseHook guarding; ChildClose; RemovalDone true]
                  ltac:(vm_compute; reflexivity)
                  ltac:(vm_compute; discriminate))
        as (Hclosed & _ & _ & Hgone)
  end.
  split; [exact Hclosed|]. apply Hgone. reflexivity.
Defined.

(** *** The deadline of the handshake inside launch *)

Lemma awaitEndpoint_settled revision ms events race s :
  isPending (Handshake.result race) = false ->
  awaitEndpoint revision ms events race s = (race, s).
Proof.
  intros Hsettled. destruct events as [|e events]; [reflexivity|].
  cbn [awaitEndpoint]. rewrite Hsettled. reflexivity.
Qed.

(** While only the race receives events and the process runs, awaiting
    the endpoint is feeding the race. *)
Lemma awaitEndpoint_races revision ms events : forall buffer s,
  halted s = false ->
  awaitEndpoint revision ms (Race <$> events) (Handshake.racing ms buffer) s
  = (Handshake.feed revision ms events (Handshake.racing ms buffer), s).
Proof.
  induction events as [|e events IH]; intros buffer s Hrunning;
    [reflexivity|].
  cbn [fmap list_fmap awaitEndpoint]. rewrite Hrunning.
  cbn [Handshake.result Handshake.racing isPending andb negb].
  rewrite HandshakeFacts.feed_cons.
  destruct (HandshakeFacts.feed_racing revision ms [e] buffer) as [_ Hshape].
  change (Handshake.feed revision ms [e] (Handshake.racing ms buffer))
    with (Handshake.deliver revision ms (Handshake.racing ms buffer) e)
    in Hshape.
  destruct (existsb (Handshake.qualifying ms) [e]).
  - destruct Hshape as (text & outcome & -> & Hsettled).
    rewrite awaitEndpoint_settled, HandshakeFacts.feed_finished
      by exact Hsettled.
    reflexivity.
  - rewrite Hshape. apply IH, Hrunning.
Qed.

(** X13.  Inside [launch] the handshake always has a deadline: it is
    [options.timeout] when that is a number other than zero and 30000
    milliseconds otherwise, so a timeout of 0 does not switch the deadline
    off.  When nothing reaches the launcher before the deadline but lines
    of the child's stderr that do not match, and the kill of the [catch]
    is not attempted or goes through, [launch] rejects with the plain
    [Error] whose message names that number, in decimal when it is below
    2^53. *)
Theorem launch_deadline_cannot_be_disabled (platformIsWin32 : bool)
    (pathJoin : string -> string -> string)
    (tmpdir ChromiumRevision : string) (o : Composer.LaunchOptions)
    (w : world) (h : host) (before later : list Handshake.event)
    (connecting : list event) (connect : result unit) (os : answers)
    (c : Composer.composed) (executable : string) (chromePid : option Z) :
  Composer.composeArguments pathJoin tmpdir o w = Ok c ->
  chromeExecutable o h = Ok executable ->
  spawn h executable (Composer.chromeArguments c) = Ok chromePid ->
  existsb (Handshake.qualifying (handshakeTimeout o)) before = false ->
  isNumber (handshakeTimeout o) = true ->
  chromePid = None \/ chromePid = Some 0%Z \/ killError os = None ->
  handshakeTimeout o
  = match Composer.timeout o with
    | Some ms => if (ms =? 0)%Z then 30000%Z else ms
    | None => 30000%Z
    end
  /\ handshakeTimeout o <> 0%Z
  /\ Handshake.timerPending (Handshake.start (handshakeTimeout o)) = true
  /\ fst (launch platformIsWin32 pathJoin tmpdir ChromiumRevision o w h
                 (Race <$> (before ++ Handshake.Deadline :: later))
                 connecting connect os)
     = Rejected
         (mkError "Error"
            ("Timed out after " +:+ showNumber (handshakeTimeout o) +:+
             " ms while trying to connect to Chrome! The only Chrome revision guaranteed to work is r"
             +:+ ChromiumRevision))
  /\ ((- 2 ^ 53 < handshakeTimeout o < 2 ^ 53)%Z ->
      showNumber (handshakeTimeout o)
      = NilZero.string_of_int (Z.to_int (handshakeTimeout o))).
Proof.
  intros Hcomposed Hexecutable Hspawn Hquiet _ Hnothrow.
  assert (handshakeTimeout o
          = match Composer.timeout o with
            | Some ms => if (ms =? 0)%Z then 30000%Z else ms
            | None => 30000%Z
            end) as Hvalue.
  { unfold handshakeTimeout. destruct (Composer.timeout o) as [ms|];
      [|reflexivity].
    cbn [truthy]. destruct (ms =? 0)%Z; reflexivity. }
  assert (handshakeTimeout o <> 0%Z) as Hnonzero.
  { rewrite Hvalue. destruct (Composer.timeout o) as [ms|]; [|discriminate].
    destruct (ms =? 0)%Z eqn:Hms; [discriminate|].
    apply Z.eqb_neq, Hms. }
  assert (truthy (VNum (handshakeTimeout o)) = true) as Harmed.
  { cbn [truthy]. apply negb_true_iff, Z.eqb_neq, Hnonzero. }
  split; [exact Hvalue|]. split; [exact Hnonzero|].
  split; [exact Harmed|]. split; [|apply HandshakeFacts.showNumber_safe].
  destruct (spawned_fields platformIsWin32 o c chromePid)
    as (Hchrome & _ & _ & _ & _ & _ & _ & Hrunning).
  unfold launch. rewrite Hcomposed, Hexecutable, Hspawn.
  unfold supervise. cbv zeta.
  rewrite HandshakeFacts.start_racing, awaitEndpoint_races by exact Hrunning.
  rewrite HandshakeFacts.feed_app, HandshakeFacts.feed_quiet,
    HandshakeFacts.feed_cons by exact Hquiet.
  rewrite HandshakeFacts.onTimeout_racing, HandshakeFacts.feed_finished
    by exact Harmed.
  rewrite Hrunning. cbn [Handshake.result Handshake.finished].
  unfold catch.
  pose proof (forceKillChrome_thrown os
                (spawned platformIsWin32 o c chromePid)) as Hthrown.
  assert (refused os (spawned platformIsWin32 o c chromePid) = None)
    as Hrefused.
  { unfold refused. rewrite LauncherFacts.live_spelled, Hchrome.
    cbn [pid killed].
    destruct Hnothrow as [->|[->|Hnone]]; [reflexivity|reflexivity|].
    rewrite Hnone. destruct chromePid as [n|]; [|reflexivity].
    destruct (negb (n =? 0)%Z && negb false && _); reflexivity. }
  rewrite Hrefused in Hthrown.
  destruct (forceKillChrome os (spawned platformIsWin32 o c chromePid))
    as [thrown s1].
  cbn [fst] in Hthrown. subst thrown. reflexivity.
Qed.

(** [launch({timeout: 0})] against a child that stays silent. *)
Lemma launch_with_timeout_zero_times_out :
  fst (launch false Path.posixJoin "/tmp" "526987"
         (Composer.mkOptions VUndefined None None VUndefined VUndefined
                             VUndefined VUndefined VUndefined VUndefined
                             VUndefined None (Some 0%Z))
         (Composer.emptyWorld ["Ab3dE9"]) (installed 4242)
         (Race <$> ([Handshake.StderrLine "starting up"]
                      ++ Handshake.Deadline :: []))
         [] (Ok tt) obliging)
  = Rejected
      (mkError "Error"
         "Timed out after 30000 ms while trying to connect to Chrome! The only Chrome revision guaranteed to work is r526987").
Proof.
  match goal with
  | |- fst (launch _ ?j ?t _ ?o ?w _ _ _ _ _) = _ =>
      destruct (Composer.composeArguments j t o w) as [c|reason] eqn:Hcomposed;
        [|vm_compute in Hcomposed; discriminate];
      apply (proj1 (proj2 (proj2 (proj2 (launch_deadline_cannot_be_disabled
               false j t "526987" o w (installed 4242)
               [Handshake.StderrLine "starting up"] [] [] (Ok tt) obliging
               c _ (Some 4242%Z) Hcomposed eq_refl eq_refl eq_refl eq_refl
               (or_intror (or_intror eq_refl)))))))
  end.
Defined.

(** *** Launches that succeed, and launches that never start *)

(** X15.  When nothing reaches the launcher but lines of the child's
    stderr until one of them announces the endpoint, and the connection
    is then made with nothing happening meanwhile, [launch] resolves and
    has left the child alone: nothing was killed, removed or logged, the
    directories are those the composing left, the signal subscriptions are
    all in place, and the promise of a close is pending. *)
Theorem launch_success_leaves_child_alone (platformIsWin32 : bool)
    (pathJoin : string -> string -> string)
    (tmpdir ChromiumRevision : string) (o : Composer.LaunchOptions)
    (w : world) (h : host) (before later : list Handshake.event)
    (line endpoint : string) (os : answers) (c : Composer.composed)
    (executable : string) (chromePid : option Z) :
  Composer.composeArguments pathJoin tmpdir o w = Ok c ->
  chromeExecutable o h = Ok executable ->
  spawn h executable (Composer.chromeArguments c) = Ok chromePid ->
  existsb (Handshake.qualifying (handshakeTimeout o)) before = false ->
  Handshake.matchEndpoint line = Some endpoint ->
  exists s,
    launch platformIsWin32 pathJoin tmpdir ChromiumRevision o w h
           (Race <$> (before ++ Handshake.StderrLine line :: later))
           [] (Ok tt) os
    = (Resolved tt, Some s)
    /\ log s = []
    /\ existing s = dirs (Composer.after c)
    /\ subscribed s = snd (wire o)
    /\ pid (chrome s) = chromePid
    /\ connection s = true
    /\ chromeClosed s = false
    /\ waitForChromeToClose s = Pending.
Proof.
  intros Hcomposed Hexecutable Hspawn Hquiet Hmatch.
  destruct (spawned_fields platformIsWin32 o c chromePid)
    as (Hchrome & Hsubscribed & Hlog & Hexisting & _ & _ & Hpending
        & Hrunning).
  exists (connected (spawned platformIsWin32 o c chromePid)).
  split.
  - unfold launch. rewrite Hcomposed, Hexecutable, Hspawn.
    unfold supervise. cbv zeta.
    rewrite HandshakeFacts.start_racing, awaitEndpoint_races
      by exact Hrunning.
    rewrite HandshakeFacts.feed_app, HandshakeFacts.feed_quiet,
      HandshakeFacts.feed_cons by exact Hquiet.
    rewrite HandshakeFacts.deliver_racing, Hmatch,
      HandshakeFacts.feed_finished.
    rewrite Hrunning. cbn [Handshake.result Handshake.finished feed foldl].
    rewrite Hrunning. reflexivity.
  - cbn [log existing subscribed connection chromeClosed
         waitForChromeToClose connected chrome].
    split; [exact Hlog|]. split; [exact Hexisting|].
    split; [|split; [|split; [reflexivity|split; [|exact Hpending]]]].
    + rewrite Hsubscribed. unfold wire.
      destruct (isNotFalse (Composer.handleSIGINT o)),
        (isNotFalse (Composer.handleSIGTERM o)),
        (isNotFalse (Composer.handleSIGHUP o)); reflexivity.
    + rewrite Hchrome. reflexivity.
    + unfold spawned. destruct (wire o). reflexivity.
Qed.

(** The sample launch is such a launch. *)
Lemma sample_launch_leaves_child_alone :
  exists s,
    launch false Path.posixJoin "/tmp" "526987" Composer.noOptions
           (Composer.emptyWorld ["Ab3dE9"]) (installed 4242)
           (Race <$> ([] ++ Handshake.StderrLine
                              "DevTools listening on ws://127.0.0.1:9222/devtools/browser/abc"
                         :: []))
           [] (Ok tt) obliging
    = (Resolved tt, Some s)
    /\ log s = [].
Proof.
  destruct (Composer.composeArguments Path.posixJoin "/tmp" Composer.noOptions
              (Composer.emptyWorld ["Ab3dE9"]))
    as [c|reason] eqn:Hcomposed; [|vm_compute in Hcomposed; discriminate].
  destruct (launch_success_leaves_child_alone
              false Path.posixJoin "/tmp" "526987" Composer.noOptions
              (Composer.emptyWorld ["Ab3dE9"]) (installed 4242) [] []
              "DevTools listening on ws://127.0.0.1:9222/devtools/browser/abc"
              "ws://127.0.0.1:9222/devtools/browser/abc" obliging c _
              (Some 4242%Z) Hcomposed eq_refl eq_refl eq_refl eq_refl)
    as (s & Hlaunch & Hlog & _).
  exists s. split; assumption.
Defined.

Lemma composeArguments_fails_iff pathJoin tmpdir o w reason :
  Composer.composeArguments pathJoin tmpdir o w = Err reason
  <-> Composer.lacksUserDataDirArg o = true
      /\ Composer.truthyString (Composer.userDataDir o) = false
      /\ mkdtemp (pathJoin tmpdir "puppeteer_dev_profile-") w = Err reason.
Proof.
  unfold Composer.composeArguments, Composer.profile.
  change (Composer.CHROME_PROFILE_PATH pathJoin tmpdir)
    with (pathJoin tmpdir "puppeteer_dev_profile-").
  destruct (Composer.lacksUserDataDirArg o).
  2:{ split; [discriminate|intros ([=] & _)]. }
  destruct (Composer.truthyString (Composer.userDataDir o)); cbn [negb].
  { split; [discriminate|intros (_ & [=] & _)]. }
  destruct (mkdtemp (pathJoin tmpdir "puppeteer_dev_profile-") w)
    as [[path w']|reason'].
  - split; [discriminate|intros (_ & _ & [=])].
  - split; [intros [= ->]; repeat split|intros (_ & _ & [= ->]); reflexivity].
Qed.

(** The executable is [options.executablePath] when that is a string;
    otherwise the lookup of the downloaded revision decides, and fails
    when the Downloader throws or when the revision is not downloaded and
    [console.assert] throws. *)
Lemma chromeExecutable_fails_iff o h reason :
  chromeExecutable o h = Err reason
  <-> (forall path, Composer.executablePath o <> VStr path)
      /\ (revisionInfo h = Err reason
          \/ exists path,
               revisionInfo h = Ok (false, path)
               /\ assertion h = Some reason).
Proof.
  unfold chromeExecutable.
  assert (forall r : result string,
            (forall path, Composer.executablePath o <> VStr path) ->
            match Composer.executablePath o with
            | VStr path => Ok path
            | _ => r
            end = r) as Hother.
  { intros r Hnot. destruct (Composer.executablePath o) as [| | | |path];
      try reflexivity. destruct (Hnot path eq_refl). }
  destruct (Composer.executablePath o) as [| | | |path] eqn:Hpath.
  5:{ split; [discriminate|]. intros [Hnot _]. destruct (Hnot path eq_refl). }
  all: (assert (forall path, Composer.executablePath o <> VStr path) as Hnot
          by (intros path; rewrite Hpath; discriminate));
       rewrite Hpath in Hnot;
       destruct (revisionInfo h) as [[[] path]|reason'];
       [split; [discriminate|];
        intros [_ [[=]|(p & [=] & _)]]
       |destruct (assertion h) as [thrown|];
        [split;
         [intros [= ->]; split; [exact Hnot|];
          right; exists path; split; reflexivity
         |intros [_ [[=]|(p & _ & [= ->])]]; reflexivity]
        |split; [discriminate|intros [_ [[=]|(p & _ & [=])]]]]
       |split;
        [intros [= ->]; split; [exact Hnot|]; left; reflexivity
        |intros [_ [[= ->]|(p & [=] & _)]]; reflexivity]].
Qed.

(** The three ways of failing before the [try], in the words of the
    definitions. *)
Lemma launch_fails_before_try
    (platformIsWin32 : bool) (pathJoin : string -> string -> string)
    (tmpdir ChromiumRevision : string) (o : Composer.LaunchOptions)
    (w : world) (h : host) (events : list happening)
    (connecting : list event) (connect : result unit) (os : answers) :
  let launched :=
    launch platformIsWin32 pathJoin tmpdir ChromiumRevision o w h events
           connecting connect os in
  let allocationFails (reason : error) : Prop :=
    Composer.lacksUserDataDirArg o = true
    /\ Composer.truthyString (Composer.userDataDir o) = false
    /\ mkdtemp (pathJoin tmpdir "puppeteer_dev_profile-") w = Err reason in
  let lookupFails (reason : error) : Prop :=
    (exists c, Composer.composeArguments pathJoin tmpdir o w = Ok c)
    /\ (forall path, Composer.executablePath o <> VStr path)
    /\ (revisionInfo h = Err reason
        \/ exists path,
             revisionInfo h = Ok (false, path)
             /\ assertion h = Some reason) in
  let spawnFails (reason : error) : Prop :=
    exists c executable,
      Composer.composeArguments pathJoin tmpdir o w = Ok c
      /\ chromeExecutable o h = Ok executable
      /\ spawn h executable (Composer.chromeArguments c) = Err reason in
  (forall reason,
     launched = (Rejected reason, None)
     <-> allocationFails reason \/ lookupFails reason \/ spawnFails reason)
  /\ (snd launched = None -> exists reason, launched = (Rejected reason, None))
  /\ (forall path,
        Composer.executablePath o = VStr path ->
        chromeExecutable o h = Ok path).
Proof.
  cbv zeta. unfold launch.
  split; [|split].
  - intros reason.
    rewrite <- composeArguments_fails_iff.
    destruct (Composer.composeArguments pathJoin tmpdir o w)
      as [c|reason1] eqn:Hcomposed.
    + rewrite <- chromeExecutable_fails_iff.
      destruct (chromeExecutable o h) as [executable|reason2] eqn:Hexecutable.
      * destruct (spawn h executable (Composer.chromeArguments c))
          as [chromePid|reason3] eqn:Hspawn.
        -- destruct (supervise ChromiumRevision o
                       (spawned platformIsWin32 o c chromePid)
                       events connecting connect os) as [outcome s].
           split; [discriminate|].
           intros [[=]|[(_ & [=])|(c' & executable' & [= <-] & [= <-] & Hs)]].
           congruence.
        -- split.
           ++ intros [= ->]. right. right. exists c, executable.
              repeat split. exact Hspawn.
           ++ intros [[=]|[(_ & [=])|(c' & executable' & [= <-] & [= <-]
                                      & Hs)]].
              congruence.
      * split.
        -- intros [= ->]. right. left. split; [exists c|]; reflexivity.
        -- intros [[=]|[(_ & [= ->])|(c' & executable' & _ & [=] & _)]].
           reflexivity.
    + split.
      * intros [= ->]. left. reflexivity.
      * intros [[= ->]|[([c' [=]] & _)|(c' & executable' & [=] & _)]].
        reflexivity.
  - destruct (Composer.composeArguments pathJoin tmpdir o w) as [c|reason1];
      [|intros _; exists reason1; reflexivity].
    destruct (chromeExecutable o h) as [executable|reason2];
      [|intros _; exists reason2; reflexivity].
    destruct (spawn h executable (Composer.chromeArguments c))
      as [chromePid|reason3]; [|intros _; exists reason3; reflexivity].
    destruct (supervise ChromiumRevision o
                (spawned platformIsWin32 o c chromePid)
                events connecting connect os) as [outcome s].
    discriminate.
  - intros path Hpath. unfold chromeExecutable. rewrite Hpath. reflexivity.
Qed.


Lemma chromeExecutable_succeeds_iff o h executable :
  chromeExecutable o h = Ok executable
  <-> Composer.executablePath o = VStr executable
      \/ ((forall path, Composer.executablePath o <> VStr path)
          /\ exists downloaded,
               revisionInfo h = Ok (downloaded, executable)
               /\ (downloaded = false -> assertion h = None)).
Proof.
  unfold chromeExecutable.
  destruct (Composer.executablePath o) as [| | | |path] eqn:Hpath.
  5:{ split.
      - intros [= ->]. left. reflexivity.
      - intros [[= ->]|[Hnot _]]; [reflexivity|].
        destruct (Hnot path eq_refl). }
  all: (split;
        [intros Hfound; right; split; [discriminate|];
         destruct (revisionInfo h) as [[[] path]|reason];
         [injection Hfound as ->; exists true; split;
          [reflexivity|discriminate]
         |destruct (assertion h) as [thrown|]; [discriminate|];
          injection Hfound as ->; exists false; split; reflexivity
         |discriminate]
        |intros [[=]|[_ (downloaded & -> & Hassert)]];
         destruct downloaded; [reflexivity|];
         rewrite (Hassert eq_refl); reflexivity]).
Qed.

(** X16.  [launch] gives up before its [try], with nothing spawned,
    wired or cleaned up, in exactly three cases, and rejects with the
    error of the case: it has to allocate the temporary profile directory
    (no argument starts with [--user-data-dir] and [userDataDir] is absent
    or empty) and [mkdtemp] fails; [executablePath] is not a string and
    the lookup of the downloaded revision throws, or the revision is not
    downloaded and [console.assert] throws; [childProcess.spawn] throws
    on the executable found, which is [executablePath] when that is a
    string and the path of the revision otherwise. *)
Theorem launch_fails_before_try_in_three_cases
    (platformIsWin32 : bool) (pathJoin : string -> string -> string)
    (tmpdir ChromiumRevision : string) (o : Composer.LaunchOptions)
    (w : world) (h : host) (events : list happening)
    (connecting : list event) (connect : result unit) (os : answers) :
  let launched :=
    launch platformIsWin32 pathJoin tmpdir ChromiumRevision o w h events
           connecting connect os in
  let allocationFails (reason : error) : Prop :=
    (forall list arg, Composer.args o = Some list -> arg ∈ list ->
       Composer.startsWith "--user-data-dir" arg = false)
    /\ (Composer.userDataDir o = None \/ Composer.userDataDir o = Some "")
    /\ mkdtemp (pathJoin tmpdir "puppeteer_dev_profile-") w = Err reason in
  let lookupFails (reason : error) : Prop :=
    (exists c, Composer.composeArguments pathJoin tmpdir o w = Ok c)
    /\ (forall path, Composer.executablePath o <> VStr path)
    /\ (revisionInfo h = Err reason
        \/ exists path,
             revisionInfo h = Ok (false, path)
             /\ assertion h = Some reason) in
  let found (executable : string) : Prop :=
    Composer.executablePath o = VStr executable
    \/ ((forall path, Composer.executablePath o <> VStr path)
        /\ exists downloaded,
             revisionInfo h = Ok (downloaded, executable)
             /\ (downloaded = false -> assertion h = None)) in
  let spawnFails (reason : error) : Prop :=
    exists c executable,
      Composer.composeArguments pathJoin tmpdir o w = Ok c
      /\ found executable
      /\ spawn h executable (Composer.chromeArguments c) = Err reason in
  (forall reason,
     launched = (Rejected reason, None)
     <-> allocationFails reason \/ lookupFails reason \/ spawnFails reason)
  /\ (snd launched = None -> exists reason, launched = (Rejected reason, None))
  /\ (forall executable, chromeExecutable o h = Ok executable <-> found executable).
Proof.
  cbv zeta.
  pose proof (launch_fails_before_try platformIsWin32 pathJoin tmpdir
                ChromiumRevision o w h events connecting connect os)
    as Hcases.
  cbv zeta in Hcases. destruct Hcases as (Hiff & Hnone & _).
  split; [|split; [exact Hnone|intros; apply chromeExecutable_succeeds_iff]].
  intros reason. rewrite (Hiff reason).
  rewrite <- ComposerFacts.lacksUserDataDirArg_spec,
    <- ComposerFacts.truthyString_spec.
  assert ((exists c executable,
             Composer.composeArguments pathJoin tmpdir o w = Ok c
             /\ chromeExecutable o h = Ok executable
             /\ spawn h executable (Composer.chromeArguments c) = Err reason)
          <-> (exists c executable,
                 Composer.composeArguments pathJoin tmpdir o w = Ok c
                 /\ (Composer.executablePath o = VStr executable
                     \/ ((forall path, Composer.executablePath o <> VStr path)
                         /\ exists downloaded,
                              revisionInfo h = Ok (downloaded, executable)
                              /\ (downloaded = false -> assertion h = None)))
                 /\ spawn h executable (Composer.chromeArguments c)
                    = Err reason)) as Hspawn.
  { split; intros (c & executable & Hcomposed & Hfound & Hfails);
      exists c, executable; (split; [exact Hcomposed|]);
      (split; [apply chromeExecutable_succeeds_iff, Hfound|exact Hfails]). }
  rewrite Hspawn. reflexivity.
Qed.

(** No name is left to draw: [launch()] rejects with [mkdtemp]'s error. *)
Lemma launch_without_free_name :
  launch false Path.posixJoin "/tmp" "526987" Composer.noOptions
         (Composer.emptyWorld []) (installed 4242) [endpointLine] []
         (Ok tt) obliging
  = (Rejected (newError "EEXIST: file already exists, mkdtemp"), None).
Proof.
  apply (proj1 (launch_fails_before_try_in_three_cases
                  false Path.posixJoin "/tmp" "526987" Composer.noOptions
                  (Composer.emptyWorld []) (installed 4242) [endpointLine] []
                  (Ok tt) obliging)).
  left. split; [intros list arg [=]|].
  split; [left; reflexivity|reflexivity].
Defined.

(** An empty [executablePath] on a machine whose [spawn] refuses it:
    [launch] rejects before its [try], and the profile directory it has
    just made stays behind. *)
Example launch_with_empty_executable :
  let refusing : host :=
    mkHost (Ok (true, "/opt/chrome")) None
           (fun executable _ =>
              if String.eqb executable ""
              then Err (mkError "TypeError"
                          "The argument 'file' must be a non-empty string")
              else Ok (Some 4242%Z)) in
  launch false Path.posixJoin "/tmp" "526987"
         (Composer.mkOptions (VStr "") None None VUndefined VUndefined
                             VUndefined VUndefined VUndefined VUndefined
                             VUndefined None None)
         (Composer.emptyWorld ["Ab3dE9"]) refusing [endpointLine] []
         (Ok tt) obliging
  = (Rejected (mkError "TypeError"
                 "The argument 'file' must be a non-empty string"), None).
Proof. reflexivity. Qed.

End LauncherMoreFacts.
